(** * SX Bet quickstart: the order-protocol arithmetic and signing payloads

    A shallow embedding of the JavaScript sources
    - [tutorial/src/utils/formatter.js]    (module [Formatter]; the
      stand-alone utilities module has the same three functions, and
      [formatAddress], module [Utils]),
    - [tutorial/post-order/post.js]        (modules [Post], [PostOrder]),
    - [tutorial/fill-order/fill.js]        (modules [Fill], [FillPrompt]),
    - [tutorial/post-order/cancel.js]      (module [Cancel]),
    - the stand-alone order-management module (module [OrderManagement]),
    - the loop of [displayOrderBook] in [tutorial/src/ui/display.js]
      (module [Display]),
    together with the parts of the JavaScript run time ([JS], [Float64],
    [Float64More], [Node]), of the ethers library ([Ethers], [Units])
    and of bignumber.js ([BigNumber]) that these files call.

    Conventions.  A decimal numeral that the code turns into a BigInt or
    a Number is kept as the integer it denotes; a hex string is kept as
    the bytes it spells; any other string is kept as the bytes of its
    UTF-8 encoding; a Number is a binary64 value of [Float64]. *)

From Stdlib Require Import ZArith Lia List Bool.
From Stdlib.Strings Require Import String Ascii Byte.
From Stdlib Require Import DecimalString DecimalZ DecimalPos Floats.
Import ListNotations.
Local Open Scope string_scope.
Local Open Scope Z_scope.
Local Open Scope list_scope.

(** ** The JavaScript run time: exceptions and BigInt *)

Module JS.

(** The exceptions the embedded code can raise. *)
Inductive exn : Type :=
| RangeError_DivisionByZero            (* BigInt division by 0n *)
| Error (message : string)             (* [throw new Error(message)] *)
| ApiError                             (* [new Error(`API Error: ...`)] *)
| TypeError_reading (property : string) (* [x.property] for an [x] that is
                                          [undefined] or [null] *)
| InvalidArgument (what : string).     (* an assertion of ethers fails;
                                          [what] is its message, whatever
                                          the code of the error *)

(** A computation either returns a value or throws. *)
Inductive result (A : Type) : Type :=
| Ok (a : A)
| Throw (e : exn).
Arguments Ok {A} a.
Arguments Throw {A} e.

Definition bind {A B} (c : result A) (k : A -> result B) : result B :=
  match c with
  | Ok a => k a
  | Throw e => Throw e
  end.

Definition is_ok {A} (c : result A) : bool :=
  match c with Ok _ => true | Throw _ => false end.

(** [a / b] on BigInt: the quotient is truncated toward zero and a zero
    divisor raises [RangeError: Division by zero]. *)
Definition BigInt_div (a b : Z) : result Z :=
  if b =? 0 then Throw RangeError_DivisionByZero else Ok (Z.quot a b).

(** [BigInt.prototype.toString()]: the decimal numeral, with a leading
    minus sign for negative values. *)
Definition BigInt_toString (z : Z) : string :=
  NilEmpty.string_of_int (Z.to_int z).

(** [BigInt(10**20)] and [BigInt(1e20)]: the double [1e20] is exactly
    [10^20] (it is [5^20 * 2^20] and [5^20 < 2^53]). *)
Definition BigInt_1e20 : Z := 10 ^ 20.

End JS.

Declare Scope js_scope.
Delimit Scope js_scope with js.
Notation "x <- c ;; k" := (JS.bind c (fun x => k))
  (at level 61, c at next level, right associativity) : js_scope.
Local Open Scope js_scope.

(** ** JavaScript numbers: IEEE 754 binary64, round to nearest even

    A finite double is [(-1)^neg * k * 2^-1074] for a natural number [k]:
    [2^-1074] is the smallest positive double, so every finite double
    (normal or subnormal) is an integer number of these units.  The
    sign is kept apart, as the format does, so that [-0] exists. *)

Module Float64.

Inductive number : Type :=
| NaN
| Infinity (neg : bool)
| Finite (neg : bool) (k : Z).

(** The number of units in [1.0]. *)
Definition unit : Z := 2 ^ 1074.

(** The first magnitude, in units, that no longer fits: [2^1024]. *)
Definition overflow_threshold : Z := 2 ^ 2098.

(** [rne a b]: the integer nearest to the rational [a / b]
    ([0 <= a], [0 < b]), ties to the even one. *)
Definition rne (a b : Z) : Z :=
  let q := a / b in
  match 2 * (a mod b) ?= b with
  | Lt => q
  | Gt => q + 1
  | Eq => if Z.even q then q else q + 1
  end.

(** The binary exponent of the grid on which a magnitude of [t] units
    (rounded down to an integer) lies: the spacing of doubles is [2^g]
    units once the magnitude needs more than 53 bits, and one unit
    below that (the subnormal range and the first normal binades). *)
Definition grid (t : Z) : Z := Z.max (Z.log2 t - 52) 0.

(** The magnitude [a / b] units rounded to 53 significant bits. *)
Definition round_mag (a b : Z) : Z :=
  let g := grid (a / b) in
  rne a (b * 2 ^ g) * 2 ^ g.

(** Rounding of the exact result [(-1)^neg * (a / b)] units of an
    operation, with overflow to infinity. *)
Definition round (neg : bool) (a b : Z) : number :=
  let k := round_mag a b in
  if overflow_threshold <=? k then Infinity neg else Finite neg k.

Definition zero : number := Finite false 0.
Definition one : number := Finite false unit.

(** [Number(z)] for a BigInt [z], and the value a decimal integer
    numeral is coerced to by an arithmetic operator. *)
Definition of_Z (z : Z) : number :=
  round (z <? 0) (Z.abs z * unit) 1.

(** The literal [1e20]. *)
Definition lit_1e20 : number := of_Z (10 ^ 20).

Definition opp (x : number) : number :=
  match x with
  | NaN => NaN
  | Infinity s => Infinity (negb s)
  | Finite s k => Finite (negb s) k
  end.

(** The signed number of units of a finite double. *)
Definition signed (s : bool) (k : Z) : Z := if s then - k else k.

(** [x + y]. An exact zero sum is [+0] unless both operands are
    negative (zeros). *)
Definition add (x y : number) : number :=
  match x, y with
  | NaN, _ | _, NaN => NaN
  | Infinity s, Infinity s' => if Bool.eqb s s' then Infinity s else NaN
  | Infinity s, Finite _ _ => Infinity s
  | Finite _ _, Infinity s => Infinity s
  | Finite s k, Finite s' k' =>
      let d := signed s k + signed s' k' in
      if d =? 0 then Finite (s && s') 0
      else round (d <? 0) (Z.abs d) 1
  end.

(** [x - y]. *)
Definition sub (x y : number) : number := add x (opp y).

(** [x / y]. *)
Definition div (x y : number) : number :=
  match x, y with
  | NaN, _ | _, NaN => NaN
  | Infinity _, Infinity _ => NaN
  | Infinity s, Finite s' _ => Infinity (xorb s s')
  | Finite s _, Infinity s' => Finite (xorb s s') 0
  | Finite s k, Finite s' k' =>
      if k' =? 0 then
        if k =? 0 then NaN else Infinity (xorb s s')
      else round (xorb s s') (k * unit) k'
  end.

(** [x > y]: false when either side is [NaN]; the two zeros are equal. *)
Definition gtb (x y : number) : bool :=
  match x, y with
  | NaN, _ | _, NaN => false
  | Infinity s, Infinity s' => negb s && s'
  | Infinity s, Finite _ _ => negb s
  | Finite _ _, Infinity s => s
  | Finite s k, Finite s' k' => signed s' k' <? signed s k
  end.

(** [Math.floor(x)]. *)
Definition Math_floor (x : number) : number :=
  match x with
  | Finite false k => Finite false (k / unit * unit)
  | Finite true k => Finite true (- (- k / unit) * unit)
  | _ => x
  end.

(** [Math.pow(10, d)] for a natural number [d]: the double nearest to
    [10^d] (exactly [10^d] up to [d = 22]). *)
Definition pow10 (d : nat) : number := of_Z (10 ^ Z.of_nat d).

(** The double held by a primitive float of Rocq, which is the
    machine's binary64; used to compare the operations above with
    the machine's. *)
Definition of_float (f : PrimFloat.float) : number :=
  match Prim2SF f with
  | S754_zero s => Finite s 0
  | S754_infinity s => Infinity s
  | S754_nan => NaN
  | S754_finite s m e => Finite s (Z.pos m * 2 ^ (e + 1074))
  end.

Definition same (x y : number) : bool :=
  match x, y with
  | NaN, NaN => true
  | Infinity s, Infinity s' => Bool.eqb s s'
  | Finite s k, Finite s' k' => Bool.eqb s s' && (k =? k')
  | _, _ => false
  end.

(** What a call returns when it returns text.  [Number::toString] of a
    finite double of magnitude at least [10^21] (exponent notation with
    the shortest digits that read back as the same double) is kept
    symbolic: the standard leaves its last digit to the engine. *)
Inductive text : Type :=
| Str (s : string)
| NumberToString (neg : bool) (k : Z).

Definition digit (d : Z) : ascii := ascii_of_nat (48 + Z.to_nat d).

(** The numeral with two fraction digits of [n / 100], [0 <= n]. *)
Definition fixed2 (neg : bool) (n : Z) : string :=
  ((if neg then "-" else "") ++
   JS.BigInt_toString (n / 100) ++
   String "." (String (digit (n mod 100 / 10)) (String (digit (n mod 10)) "")))%string.

(** The integer [n] for which [n / 100 - x] is as close to zero as
    possible, the larger one when two are, for [x] of [k] units. *)
Definition hundredths (k : Z) : Z := (200 * k + unit) / (2 * unit).

(** [Number.prototype.toFixed(2)]. *)
Definition toFixed2 (x : number) : text :=
  match x with
  | NaN => Str "NaN"
  | Infinity s => Str (if s then "-Infinity" else "Infinity")
  | Finite s k =>
      let neg := s && (0 <? k) in
      if 10 ^ 21 * unit <=? k then NumberToString neg k
      else Str (fixed2 neg (hundredths k))
  end.

End Float64.

(** ** The ethers library *)

Module Ethers.
Import JS.

Definition bytes : Type := list byte.

(** The cryptographic primitives ethers is built on. *)
Class Primitives : Type := {
  keccak256 : bytes -> bytes;
  keccak256_length : forall m : bytes, List.length (keccak256 m) = 32%nat;
  (** [new SigningKey(privateKey).sign(digest).serialized] *)
  sign : bytes -> bytes -> bytes;
  (** [computeAddress(privateKey)] *)
  computeAddress : bytes -> bytes
}.

Definition byte_of_Z (z : Z) : byte :=
  match Byte.of_N (Z.to_N (z mod 256)) with
  | Some b => b
  | None => x00
  end.

(** The [n] low-order bytes of [z], most significant first. *)
Fixpoint be_bytes (n : nat) (z : Z) : bytes :=
  match n with
  | O => []
  | S n' => be_bytes n' (z / 256) ++ [byte_of_Z z]
  end.

(** [toBigInt(hex)]: the unsigned big-endian reading. *)
Definition toBigInt (b : bytes) : Z :=
  fold_left (fun acc x => acc * 256 + Z.of_N (Byte.to_N x)) b 0.

#[local] Set Warnings "-register-all".

(** The JavaScript values handed to the encoders.  A hex string is
    kept as the bytes it spells ([V_hex]); [V_num] is a numeric field
    of an order, kept as the integer its numeral denotes; [V_string]
    is any other string and [V_number] a Number. *)
Inductive value : Type :=
| V_string (s : string)
| V_hex (b : bytes)
| V_num (z : Z)
| V_number (x : Float64.number)
| V_bool (b : bool)
| V_array (items : list value)
| V_object (props : list (string * value)).

(** [getBigInt(value)] for a string: decimal numerals, with an
    optional minus sign. *)
Definition getBigInt_string (s : string) : result Z :=
  match NilEmpty.int_of_string s with
  | Some (Decimal.Pos Decimal.Nil) | Some (Decimal.Neg Decimal.Nil) | None =>
      Throw (InvalidArgument "invalid BigNumberish string")
  | Some d => Ok (Z.of_int d)
  end.

(** [getBigInt(value)] for a Number: an integer within the safe range. *)
Definition getBigInt_number (x : Float64.number) : result Z :=
  match x with
  | Float64.Finite s k =>
      if (k mod Float64.unit =? 0) && (k / Float64.unit <? 2 ^ 53)
      then Ok (Float64.signed s (k / Float64.unit))
      else Throw (InvalidArgument "invalid BigNumberish value")
  | _ => Throw (InvalidArgument "invalid BigNumberish value")
  end.

(** The integer a value is read as where a [uintN] is expected. *)
Definition getBigInt (v : value) : result Z :=
  match v with
  | V_num z => Ok z
  | V_string s => getBigInt_string s
  | V_number x => getBigInt_number x
  | _ => Throw (InvalidArgument "invalid BigNumberish value")
  end.

Definition toUtf8Bytes (s : string) : bytes := list_byte_of_string s.

(** The order of the group of secp256k1. *)
Definition secp256k1_n : Z :=
  0xFFFFFFFFFFFFFFFFFFFFFFFFFFFFFFFEBAAEDCE6AF48A03BBFD25E8CD0364141.

Definition ZeroAddress : bytes := repeat x00 20.
Definition ZeroHash : bytes := repeat x00 32.

(** *** [solidityPacked] *)

Inductive soltype : Type :=
| bytes32 | address | uint256 | bool_.

(** The bytes of one value.  For a [uint256], [toBeArray] refuses a
    negative integer and [zeroPadValue] one that needs more than 32
    bytes. *)
Definition pack (t : soltype) (v : value) : result bytes :=
  match t, v with
  | address, V_hex b =>
      if (List.length b =? 20)%nat then Ok b
      else Throw (InvalidArgument "invalid address")
  | bytes32, V_hex b =>
      if (List.length b =? 32)%nat then Ok b
      else Throw (InvalidArgument "invalid value for bytes32")
  | uint256, _ =>
      z <- getBigInt v ;;
      if z <? 0
      then Throw (InvalidArgument "unsigned value cannot be negative")
      else if z <? 2 ^ 256 then Ok (be_bytes 32 z)
      else Throw (InvalidArgument "padding exceeds data length")
  | bool_, V_bool b => Ok [if b then x01 else x00]
  | _, _ => Throw (InvalidArgument "invalid type")
  end.

Fixpoint solidityPacked (types : list soltype) (values : list value)
  : result bytes :=
  match types, values with
  | [], [] => Ok []
  | t :: types', v :: values' =>
      head <- pack t v ;;
      tail <- solidityPacked types' values' ;;
      Ok (head ++ tail)
  | _, _ => Throw (InvalidArgument "wrong number of values; expected ${ types.length }")
  end.

Section WithPrimitives.
Context {P : Primitives}.

Definition solidityPackedKeccak256 (types : list soltype) (values : list value)
  : result bytes :=
  packed <- solidityPacked types values ;;
  Ok (keccak256 packed).

(** *** [hashMessage]: the EIP-191 personal-message digest *)

Definition MessagePrefix : string :=
  String "025" ("Ethereum Signed Message:" ++ String "010" "").

Definition hashMessage (message : bytes) : bytes :=
  keccak256 (toUtf8Bytes MessagePrefix
             ++ toUtf8Bytes (BigInt_toString (Z.of_nat (List.length message)))
             ++ message).

(** *** [TypedDataEncoder]: EIP-712 *)

Inductive ftype : Type :=
| T_string
| T_bytes
| T_bytesN (n : nat)
| T_uint (bits : nat)
| T_address
| T_bool
| T_array (elem : ftype)
| T_struct (name : string).

Definition field : Type := (string * ftype)%type.
Definition typetable : Type := list (string * list field).

Definition nat_toString (n : nat) : string := BigInt_toString (Z.of_nat n).

Fixpoint type_name (t : ftype) : string :=
  match t with
  | T_string => "string"
  | T_bytes => "bytes"
  | T_bytesN n => "bytes" ++ nat_toString n
  | T_uint bits => "uint" ++ nat_toString bits
  | T_address => "address"
  | T_bool => "bool"
  | T_array elem => type_name elem ++ "[]"
  | T_struct name => name
  end.

Fixpoint lookup {A : Type} (key : string) (l : list (string * A)) : option A :=
  match l with
  | [] => None
  | (k, a) :: l' => if String.eqb k key then Some a else lookup key l'
  end.

(** The struct a field type refers to, through any array nesting. *)
Fixpoint base_struct (t : ftype) : option string :=
  match t with
  | T_struct name => Some name
  | T_array elem => base_struct elem
  | _ => None
  end.

Definition children (fields : list field) : list string :=
  flat_map (fun f => match base_struct (snd f) with
                     | Some n => [n]
                     | None => []
                     end) fields.

Definition mem (s : string) (l : list string) : bool :=
  existsb (String.eqb s) l.

(** The type no other type refers to; ethers rejects a table that
    has none or several. *)
Definition inferPrimaryType (types : typetable) : result string :=
  let referenced := flat_map (fun e => children (snd e)) types in
  match filter (fun n => negb (mem n referenced)) (map fst types) with
  | [n] => Ok n
  | [] => Throw (InvalidArgument "missing primary type")
  | _ => Throw (InvalidArgument "ambiguous primary types or unused types")
  end.

(** All struct types reachable from [name]. *)
Fixpoint subtypes (fuel : nat) (types : typetable) (name : string)
  : list string :=
  match fuel with
  | O => []
  | S fuel' =>
      match lookup name types with
      | None => []
      | Some fields =>
          flat_map (fun c => c :: subtypes fuel' types c) (children fields)
      end
  end.

Fixpoint insert_sorted (s : string) (l : list string) : list string :=
  match l with
  | [] => [s]
  | x :: l' =>
      if String.eqb s x then l
      else if String.ltb s x then s :: l
      else x :: insert_sorted s l'
  end.

Definition sort_unique (l : list string) : list string :=
  fold_right insert_sorted [] l.

Fixpoint join (sep : string) (l : list string) : string :=
  match l with
  | [] => ""
  | [x] => x
  | x :: l' => x ++ sep ++ join sep l'
  end.

Definition encodeFields (name : string) (fields : list field) : string :=
  name ++ "(" ++
  join "," (map (fun f => (type_name (snd f) ++ " " ++ fst f)%string) fields)
  ++ ")".

Definition encodeOne (types : typetable) (name : string) : string :=
  match lookup name types with
  | Some fields => encodeFields name fields
  | None => ""
  end.

(** [encodeType]: the primary type first, then the types it reaches
    in alphabetical order. *)
Definition encodeType (types : typetable) (name : string) : string :=
  let deps :=
    filter (fun n => negb (String.eqb n name))
           (sort_unique (subtypes (List.length types) types name)) in
  encodeOne types name ++ String.concat "" (map (encodeOne types) deps).

Definition typeHash (types : typetable) (name : string) : bytes :=
  keccak256 (toUtf8Bytes (encodeType types name)).

Definition zeroPadValue (b : bytes) (n : nat) : bytes :=
  repeat x00 (n - List.length b) ++ b.

Definition zeroPadBytes (b : bytes) (n : nat) : bytes :=
  b ++ repeat x00 (n - List.length b).

(** The 32-byte word of an atomic value, the hash of a dynamic one,
    [hashStruct] of a struct. *)
Fixpoint encodeValue (types : typetable) (t : ftype) (v : value) {struct v}
  : result bytes :=
  match t, v with
  | T_string, V_string s => Ok (keccak256 (toUtf8Bytes s))
  | T_bytes, V_hex b => Ok (keccak256 b)
  | T_bytesN n, V_hex b =>
      if (List.length b =? n)%nat && (n <=? 32)%nat then Ok (zeroPadBytes b 32)
      else Throw (InvalidArgument "invalid length for bytesN")
  | T_uint bits, (V_num _ | V_string _ | V_number _) =>
      z <- getBigInt v ;;
      if (0 <=? z) && (z <? 2 ^ Z.of_nat bits) then Ok (be_bytes 32 z)
      else Throw (InvalidArgument "value out of range for uintN")
  | T_address, V_hex b =>
      if (List.length b =? 20)%nat then Ok (zeroPadValue b 32)
      else Throw (InvalidArgument "invalid address")
  | T_bool, V_bool b => Ok (be_bytes 32 (if b then 1 else 0))
  | T_array elem, V_array items =>
      words <-
        (fix each (l : list value) : result bytes :=
           match l with
           | [] => Ok []
           | x :: l' =>
               w <- encodeValue types elem x ;;
               ws <- each l' ;;
               Ok (w ++ ws)
           end) items ;;
      Ok (keccak256 words)
  | T_struct name, V_object props =>
      match lookup name types with
      | None => Throw (InvalidArgument "unknown type")
      | Some fields =>
          body <-
            (fix each (fs : list field) : result bytes :=
               match fs with
               | [] => Ok []
               | (fname, ft) :: fs' =>
                   w <-
                     (fix find (ps : list (string * value)) : result bytes :=
                        match ps with
                        | [] => Throw (InvalidArgument "missing value")
                        | (k, x) :: ps' =>
                            if String.eqb k fname
                            then encodeValue types ft x
                            else find ps'
                        end) props ;;
                   ws <- each fs' ;;
                   Ok (w ++ ws)
               end) fields ;;
          Ok (keccak256 (typeHash types name ++ body))
      end
  | _, _ => Throw (InvalidArgument "invalid value for type")
  end.

Definition hashStruct (types : typetable) (name : string) (v : value)
  : result bytes :=
  encodeValue types (T_struct name) v.

(** The EIP-712 domain: every field is optional. *)
Record domain : Type := {
  name : option string;
  version : option string;
  chainId : option Z;
  verifyingContract : option bytes;
  salt : option bytes
}.

Definition present {A : Type} (o : option A) (x : field * (A -> value))
  : list (field * value) :=
  match o with
  | Some a => [(fst x, snd x a)]
  | None => []
  end.

(** The fields a domain carries, in the standard's order. *)
Definition domainFields (d : domain) : list (field * value) :=
  present (name d) (("name", T_string), V_string) ++
  present (version d) (("version", T_string), V_string) ++
  present (chainId d) (("chainId", T_uint 256), V_num) ++
  present (verifyingContract d) (("verifyingContract", T_address), V_hex) ++
  present (salt d) (("salt", T_bytesN 32), V_hex).

Definition hashDomain (d : domain) : result bytes :=
  let fv := domainFields d in
  hashStruct [("EIP712Domain", map fst fv)] "EIP712Domain"
             (V_object (map (fun x => (fst (fst x), snd x)) fv)).

(** [TypedDataEncoder.hash(domain, types, value)]. *)
Definition TypedDataEncoder_hash (d : domain) (types : typetable) (v : value)
  : result bytes :=
  primaryType <- inferPrimaryType types ;;
  domainSeparator <- hashDomain d ;;
  structHash <- hashStruct types primaryType v ;;
  Ok (keccak256 ([x19; x01] ++ domainSeparator ++ structHash)).

End WithPrimitives.
End Ethers.

(** ** The process: environment, randomness, clock, network, console *)

Module Node.
Import JS Ethers.

(** The order object of [post.js] ([createOrder]). *)
Record order : Type := {
  marketHash : bytes;
  maker : bytes;
  totalBetSize : Z;
  percentageOdds : Z;
  baseToken : bytes;
  apiExpiry : Z;
  expiry : Z;
  executor : bytes;
  isMakerBettingOutcomeOne : bool;
  salt : Z
}.

(** [{ ...order, signature }]. *)
Record signedOrder : Type := {
  unsigned : order;
  signature : bytes
}.

(** An order as the API lists it ([fill.js]). *)
Record bookOrder : Type := {
  orderHash : bytes;
  listed : signedOrder
}.

(** The body of [POST /orders/fill]. *)
Record fillRequest : Type := {
  fill_orderHashes : list bytes;
  fill_takerAmounts : list string;
  taker : bytes;
  takerSig : bytes;
  fillSalt : string;
  action : string;
  market : string;
  betting : string;
  stake : string;
  odds : string;
  returning : string
}.

(** The body of [POST /orders/cancel/v2]. *)
Record cancelRequest : Type := {
  orderHashes : list string;
  cancel_signature : bytes;
  cancel_salt : bytes;
  cancel_maker : bytes;
  timestamp : Float64.number
}.

(** The requests this development follows to the network. *)
Inductive body : Type :=
| FillOrders (r : fillRequest)
| CancelOrders (r : cancelRequest).

(** The answer to a request, as far as the code reads it. *)
Record answer : Type := {
  success : bool;   (* [response.ok] and [data.status === 'success'] *)
  has_data : bool   (* [data.data] is neither [undefined] nor [null] *)
}.

Record world : Type := {
  entropy : nat -> byte;            (* the random source, byte by byte *)
  consumed : nat;                   (* how many of its bytes were drawn *)
  clock_ms : Z;                     (* [Date.now()] *)
  PRIVATE_KEY : option bytes;       (* [process.env.PRIVATE_KEY] *)
  signed : list bytes;              (* digests signed so far, newest first *)
  posted : list (string * body);    (* requests sent so far, newest first *)
  accepts : string -> body -> bool; (* does the API answer with success *)
  with_data : string -> body -> bool; (* has its answer a [data] member *)
  reported : list (string * exn)    (* [console.error(label, error)] *)
}.

(** A computation of the process: it returns or throws, and changes
    the world either way. *)
Definition io (A : Type) : Type := world -> result A * world.

Definition ret {A} (a : A) : io A := fun w => (Ok a, w).
Definition throw {A} (e : exn) : io A := fun w => (Throw e, w).
Definition lift {A} (r : result A) : io A := fun w => (r, w).

Definition bind {A B} (c : io A) (k : A -> io B) : io B :=
  fun w =>
    match c w with
    | (Ok a, w') => k a w'
    | (Throw e, w') => (Throw e, w')
    end.

(** [try { c } catch (error) { handler(error) }]. *)
Definition try_catch {A} (c : io A) (handler : exn -> io A) : io A :=
  fun w =>
    match c w with
    | (Ok a, w') => (Ok a, w')
    | (Throw e, w') => handler e w'
    end.

(** Field updates. *)
Definition draw (n : nat) (w : world) : world :=
  {| entropy := entropy w; consumed := (consumed w + n)%nat;
     clock_ms := clock_ms w; PRIVATE_KEY := PRIVATE_KEY w;
     signed := signed w; posted := posted w; accepts := accepts w;
     with_data := with_data w; reported := reported w |}.

Definition record_signed (digest : bytes) (w : world) : world :=
  {| entropy := entropy w; consumed := consumed w;
     clock_ms := clock_ms w; PRIVATE_KEY := PRIVATE_KEY w;
     signed := digest :: signed w; posted := posted w; accepts := accepts w;
     with_data := with_data w; reported := reported w |}.

Definition record_posted (url : string) (b : body) (w : world) : world :=
  {| entropy := entropy w; consumed := consumed w;
     clock_ms := clock_ms w; PRIVATE_KEY := PRIVATE_KEY w;
     signed := signed w; posted := (url, b) :: posted w;
     accepts := accepts w; with_data := with_data w;
     reported := reported w |}.

Definition record_reported (label : string) (e : exn) (w : world) : world :=
  {| entropy := entropy w; consumed := consumed w;
     clock_ms := clock_ms w; PRIVATE_KEY := PRIVATE_KEY w;
     signed := signed w; posted := posted w; accepts := accepts w;
     with_data := with_data w; reported := (label, e) :: reported w |}.

(** The next [n] bytes of the random source. *)
Definition next_bytes (n : nat) (w : world) : bytes :=
  map (fun i => entropy w (consumed w + i)%nat) (seq 0 n).

(** [randomBytes(n)]. *)
Definition randomBytes (n : nat) : io bytes :=
  fun w => (Ok (next_bytes n w), draw n w).

Definition Date_now : io Z := fun w => (Ok (clock_ms w), w).

(** [process.env.PRIVATE_KEY]: [None] when it is unset or empty. *)
Definition env_PRIVATE_KEY : io (option bytes) :=
  fun w => (Ok (PRIVATE_KEY w), w).

Definition console_error (label : string) (e : exn) : io unit :=
  fun w => (Ok tt, record_reported label e w).

(** [fetch(url, { method: 'POST', body })] and [response.json()]: the
    parsed answer. *)
Definition fetch_post (url : string) (b : body) : io answer :=
  fun w =>
    (Ok {| success := accepts w url b; has_data := with_data w url b |},
     record_posted url b w).

Section WithPrimitives.
Context {P : Primitives}.

(** The one place a private key is used. *)
Definition sign_digest (key digest : bytes) : io bytes :=
  fun w => (Ok (sign key digest), record_signed digest w).

(** [ethers.Wallet]. *)
Record Wallet : Type := { privateKey : bytes }.

(** [new ethers.Wallet(key)]: the key has 32 bytes, and the constructor
    computes the address of the wallet, for which the key, read as an
    integer, has to be a scalar of the curve. *)
Definition new_Wallet (key : bytes) : io Wallet :=
  if (List.length key =? 32)%nat then
    if (0 <? toBigInt key) && (toBigInt key <? secp256k1_n)
    then ret {| privateKey := key |}
    else throw (Error "Expected valid bigint: 0 < bigint < curve.n")
  else throw (InvalidArgument "invalid private key").

Definition Wallet_address (w : Wallet) : bytes :=
  computeAddress (privateKey w).

(** [wallet.signMessage(message)] for a message given as bytes. *)
Definition signMessage (w : Wallet) (message : bytes) : io bytes :=
  sign_digest (privateKey w) (hashMessage message).

(** [wallet.signTypedData(domain, types, value)]. *)
Definition signTypedData (w : Wallet) (d : domain) (types : typetable)
  (v : value) : io bytes :=
  bind (lift (TypedDataEncoder_hash d types v))
       (fun digest => sign_digest (privateKey w) digest).

End WithPrimitives.
End Node.

Declare Scope io_scope.
Delimit Scope io_scope with io.
Notation "x <~ c ;; k" := (Node.bind c (fun x => k))
  (at level 61, c at next level, right associativity) : io_scope.
Notation "c ;;; k" := (Node.bind c (fun _ => k))
  (at level 61, right associativity) : io_scope.
Local Open Scope io_scope.

(** ** [formatter.js] *)

Module Formatter.
Import JS Float64.

(** [calculateTakerOdds(percentageOdds)]; the argument is the integer
    the order's [percentageOdds] numeral denotes. *)
Definition calculateTakerOdds (percentageOdds : Z) : text :=
  let impliedOdds := sub one (div (of_Z percentageOdds) lit_1e20) in
  if gtb impliedOdds zero then toFixed2 (div one impliedOdds)
  else Str "N/A".

(** [convertToNominalUnits(ethereumAmount, decimals = 6)]. *)
Definition convertToNominalUnits (ethereumAmount : number) (decimals : nat)
  : text :=
  toFixed2 (div ethereumAmount (pow10 decimals)).

(** The fields of an order that [formatter.js] reads. *)
Record order : Type := {
  totalBetSize : Z;
  fillAmount : Z;
  percentageOdds : Z
}.

(** [calculateRemainingTakerSpace(order)]. *)
Definition calculateRemainingTakerSpace (o : order) : result text :=
  let totalBetSize := totalBetSize o in
  let fillAmount := fillAmount o in
  let percentageOdds := percentageOdds o in
  q <- BigInt_div ((totalBetSize - fillAmount) * BigInt_1e20) percentageOdds ;;
  let remaining := q - (totalBetSize - fillAmount) in
  Ok (convertToNominalUnits (of_Z remaining) 6).

End Formatter.

(** ** [post.js] *)

Module Post.
Import JS Ethers Node.

Section WithPrimitives.
Context {P : Primitives}.

(** [createOrderHash(order)]. *)
Definition createOrderHash (o : order) : result bytes :=
  solidityPackedKeccak256
    [ bytes32; address; uint256; uint256; uint256; uint256;
      address; address; bool_ ]
    [ V_hex (marketHash o);
      V_hex (baseToken o);
      V_num (totalBetSize o);
      V_num (percentageOdds o);
      V_num (expiry o);
      V_num (salt o);
      V_hex (maker o);
      V_hex (executor o);
      V_bool (isMakerBettingOutcomeOne o) ].

(** [signOrder(order)]. *)
Definition signOrder (o : order) : io signedOrder :=
  try_catch
    (privateKey <~ env_PRIVATE_KEY ;;
     match privateKey with
     | None => throw (Error "PRIVATE_KEY not found in .env file")
     | Some key =>
         wallet <~ new_Wallet key ;;
         orderHash <~ lift (createOrderHash o) ;;
         signature <~ signMessage wallet orderHash ;;
         ret {| unsigned := o; signature := signature |}
     end)
    (fun error => console_error "Error signing order:" error ;;; throw error).

End WithPrimitives.
End Post.

(** ** [fill.js] *)

Module Fill.
Import JS Ethers Node.

Module CONSTANTS.
Definition EIP712_FILL_HASHER : bytes :=
  be_bytes 20 0x845a2Da2D70fEDe8474b1C8518200798c60aC364.
Definition TAKER_ADDRESS : bytes :=
  be_bytes 20 0xADb93842A9cEa59A11Fed9E3D9870D37eb2eC9Dd.
Definition DOMAIN_NAME : string := "SX Bet".
Definition DOMAIN_VERSION : string := "6.0".
Definition CHAIN_ID : Z := 4162.
Definition API_BASE_URL : string := "https://api.sx.bet".
End CONSTANTS.

(** [calculatePotentialPayout(betAmount, percentageOdds)]; the two
    arguments are the integers that [BigInt(...)] reads from them. *)
Definition calculatePotentialPayout (betAmount percentageOdds : Z)
  : result string :=
  let amount := betAmount in
  let odds := percentageOdds in
  let base := BigInt_1e20 in
  let denominator := base - odds in
  payout <- BigInt_div (amount * base) denominator ;;
  Ok (BigInt_toString payout).

(** [generateFillSalt()]. *)
Definition generateFillSalt : io string :=
  (bytes <~ randomBytes 32 ;;
   ret (BigInt_toString (toBigInt bytes)))%io.

(** [calculateFillAmount(takerBetAmount, percentageOdds)]. *)
Definition calculateFillAmount (takerBetAmount percentageOdds : Z)
  : result string :=
  let betAmount := takerBetAmount in
  let odds := percentageOdds in
  let base := BigInt_1e20 in
  let denominator := base - odds in
  fillAmount <- BigInt_div (betAmount * odds) denominator ;;
  Ok (BigInt_toString fillAmount).

(** What [createSigningPayload] returns. *)
Record signingPayload : Type := {
  types : typetable;
  primaryType : string;
  domain : Ethers.domain;
  message : value;
  fillAmount : string;
  fillSalt : string
}.

Definition types_EIP712Domain : list field :=
  [ ("name", T_string);
    ("version", T_string);
    ("chainId", T_uint 256);
    ("verifyingContract", T_address) ].

Definition types_Details : list field :=
  [ ("action", T_string);
    ("market", T_string);
    ("betting", T_string);
    ("stake", T_string);
    ("odds", T_string);
    ("returning", T_string);
    ("fills", T_struct "FillObject") ].

Definition types_FillObject : list field :=
  [ ("orders", T_array (T_struct "Order"));
    ("makerSigs", T_array T_bytes);
    ("takerAmounts", T_array (T_uint 256));
    ("fillSalt", T_uint 256);
    ("beneficiary", T_address);
    ("beneficiaryType", T_uint 8);
    ("cashOutTarget", T_bytesN 32) ].

Definition types_Order : list field :=
  [ ("marketHash", T_bytesN 32);
    ("baseToken", T_address);
    ("totalBetSize", T_uint 256);
    ("percentageOdds", T_uint 256);
    ("expiry", T_uint 256);
    ("salt", T_uint 256);
    ("maker", T_address);
    ("executor", T_address);
    ("isMakerBettingOutcomeOne", T_bool) ].

(** [createSigningPayload(order, takerBetAmount)]. *)
Definition createSigningPayload (order : bookOrder) (takerBetAmount : Z)
  : io signingPayload :=
  let o := unsigned (listed order) in
  (fillSalt <~ generateFillSalt ;;
   fillAmount <~ lift (calculateFillAmount takerBetAmount (percentageOdds o)) ;;
   ret {|
     types :=
       [ ("EIP712Domain", types_EIP712Domain);
         ("Details", types_Details);
         ("FillObject", types_FillObject);
         ("Order", types_Order) ];
     primaryType := "Details";
     domain := {|
       name := Some CONSTANTS.DOMAIN_NAME;
       version := Some CONSTANTS.DOMAIN_VERSION;
       chainId := Some CONSTANTS.CHAIN_ID;
       verifyingContract := Some CONSTANTS.EIP712_FILL_HASHER;
       Ethers.salt := None |};
     message :=
       V_object
         [ ("action", V_string "N/A");
           ("market", V_string "N/A");
           ("betting", V_string "N/A");
           ("stake", V_string "N/A");
           ("odds", V_string "N/A");
           ("returning", V_string "N/A");
           ("fills",
            V_object
              [ ("makerSigs", V_array [V_hex (signature (listed order))]);
                ("orders",
                 V_array
                   [ V_object
                       [ ("marketHash", V_hex (marketHash o));
                         ("baseToken", V_hex (baseToken o));
                         ("totalBetSize", V_num (totalBetSize o));
                         ("percentageOdds", V_num (percentageOdds o));
                         ("expiry", V_num (expiry o));
                         ("salt", V_num (Node.salt o));
                         ("maker", V_hex (maker o));
                         ("executor", V_hex (executor o));
                         ("isMakerBettingOutcomeOne",
                          V_bool (isMakerBettingOutcomeOne o)) ] ]);
                ("takerAmounts", V_array [V_string fillAmount]);
                ("fillSalt", V_string fillSalt);
                ("beneficiary", V_hex ZeroAddress);
                ("beneficiaryType", V_num 0);
                ("cashOutTarget", V_hex ZeroHash) ]) ];
     fillAmount := fillAmount;
     fillSalt := fillSalt |})%io.

(** [payload.types.X]. *)
Definition get_type (name : string) (types : typetable) : list field :=
  match lookup name types with
  | Some fields => fields
  | None => []
  end.

Section WithPrimitives.
Context {P : Primitives}.

(** [fillOrder(order, wallet, betAmount)], up to the request it sends.
    What it prints with [console.log], and its report of a request the
    API refuses, are left out. *)
Definition fillOrder (order : bookOrder) (wallet : Wallet) (betAmount : Z)
  : io unit :=
  try_catch
    (signingPayload <~ createSigningPayload order betAmount ;;
     let fillAmount := fillAmount signingPayload in
     let fillSalt := fillSalt signingPayload in
     signature <~
       signTypedData wallet (domain signingPayload)
         [ ("Details", get_type "Details" (types signingPayload));
           ("FillObject", get_type "FillObject" (types signingPayload));
           ("Order", get_type "Order" (types signingPayload)) ]
         (message signingPayload) ;;
     let apiPayload := {|
       fill_orderHashes := [orderHash order];
       fill_takerAmounts := [fillAmount];
       taker := CONSTANTS.TAKER_ADDRESS;
       takerSig := signature;
       Node.fillSalt := fillSalt;
       action := "N/A";
       market := "N/A";
       betting := "N/A";
       stake := "N/A";
       odds := "N/A";
       returning := "N/A" |} in
     responseData <~
       fetch_post (CONSTANTS.API_BASE_URL ++ "/orders/fill")
                  (FillOrders apiPayload) ;;
     ret tt)%io
    (fun error => console_error "Error filling order:" error).

End WithPrimitives.
End Fill.

(** ** [cancel.js] *)

Module Cancel.
Import JS Ethers Node.

Module CONSTANTS.
Definition chainId : Z := 4162.
Definition apiUrl : string :=
  "https://api.sx.bet/orders/cancel/v2?chainVersion=SXR".
End CONSTANTS.

(** An EIP-712 typed-data structure. *)
Record typedData : Type := {
  types : typetable;
  primaryType : string;
  domain : Ethers.domain;
  message : value
}.

(** [getCancelOrderEIP712Payload(orderHashes, salt, timestamp, chainId)]. *)
Definition getCancelOrderEIP712Payload (orderHashes : list string)
  (salt : bytes) (timestamp : Float64.number) (chainId : Z) : typedData :=
  {| types :=
       [ ("EIP712Domain",
          [ ("name", T_string);
            ("version", T_string);
            ("chainId", T_uint 256);
            ("salt", T_bytesN 32) ]);
         ("Details",
          [ ("orderHashes", T_array T_string);
            ("timestamp", T_uint 256) ]) ];
     primaryType := "Details";
     domain := {|
       name := Some "CancelOrderV2SportX";
       version := Some "1.0";
       Ethers.chainId := Some chainId;
       verifyingContract := None;
       Ethers.salt := Some salt |};
     message :=
       V_object
         [ ("orderHashes", V_array (map V_string orderHashes));
           ("timestamp", V_number timestamp) ] |}.

(** What [createCancelOrderPayload] returns; [submitCancellation]
    posts it as it is. *)
Record cancelPayload : Type := {
  orderHashes : list string;
  signature : bytes;
  salt : bytes;
  maker : bytes;
  timestamp : Float64.number
}.

Definition get_type (name : string) (types : typetable) : list field :=
  match lookup name types with
  | Some fields => fields
  | None => []
  end.

(** [Math.floor(Date.now() / 1000)]. *)
Definition seconds (now : Z) : Float64.number :=
  Float64.Math_floor (Float64.div (Float64.of_Z now) (Float64.of_Z 1000)).

(** [input.split(',')]. *)
Fixpoint split_comma (s : string) : list string :=
  match s with
  | EmptyString => [""]
  | String c s' =>
      if Ascii.eqb c "," then "" :: split_comma s'
      else match split_comma s' with
           | head :: tail => String c head :: tail
           | [] => [String c ""]
           end
  end.

(** The characters [trim] removes are the white space and the line
    terminators of ECMAScript: U+0009 to U+000D and U+0020, one byte
    each in UTF-8; U+00A0, two bytes; U+1680, U+2000 to U+200A, U+2028,
    U+2029, U+202F, U+205F, U+3000 and U+FEFF, three bytes each. *)
Definition space1 (a : nat) : bool :=
  ((9 <=? a) && (a <=? 13) || (a =? 32))%nat.

Definition space2 (a b : nat) : bool :=
  ((a =? 194) && (b =? 160))%nat.

Definition space3 (a b c : nat) : bool :=
  ((a =? 225) && (b =? 154) && (c =? 128)
   || (a =? 226) && (b =? 128)
      && ((128 <=? c) && (c <=? 138) || (c =? 168) || (c =? 169) || (c =? 175))
   || (a =? 226) && (b =? 129) && (c =? 159)
   || (a =? 227) && (b =? 128) && (c =? 128)
   || (a =? 239) && (b =? 187) && (c =? 191))%nat.

(** The number of bytes of the white-space character a string starts
    with; 0 when it starts with none. *)
Definition white_space_at (s : string) : nat :=
  match s with
  | String a s1 =>
      if space1 (nat_of_ascii a) then 1%nat
      else
        match s1 with
        | String b s2 =>
            if space2 (nat_of_ascii a) (nat_of_ascii b) then 2%nat
            else
              match s2 with
              | String c _ =>
                  if space3 (nat_of_ascii a) (nat_of_ascii b) (nat_of_ascii c)
                  then 3%nat else 0%nat
              | EmptyString => 0%nat
              end
        | EmptyString => 0%nat
        end
  | EmptyString => 0%nat
  end.

(** [trimStart], with [pending] bytes of a white-space character still
    to drop. *)
Fixpoint trimStart_after (pending : nat) (s : string) : string :=
  match s with
  | EmptyString => ""
  | String _ s' =>
      match pending with
      | S k => trimStart_after k s'
      | O =>
          match white_space_at s with
          | S k => trimStart_after k s'
          | O => s
          end
      end
  end.

Definition trimStart (s : string) : string := trimStart_after 0 s.

(** [trimEnd]: the string is cut at the first place from which only
    white space follows. *)
Fixpoint trimEnd (s : string) : string :=
  match s with
  | EmptyString => ""
  | String c s' =>
      if String.eqb (trimStart s) "" then "" else String c (trimEnd s')
  end.

Definition trim (s : string) : string := trimEnd (trimStart s).

Section WithPrimitives.
Context {P : Primitives}.

(** [createCancelOrderPayload(orderHashes)]. *)
Definition createCancelOrderPayload (orderHashes : list string)
  : io cancelPayload :=
  try_catch
    (privateKey <~ env_PRIVATE_KEY ;;
     match privateKey with
     | None => throw (Error "PRIVATE_KEY not found in .env file")
     | Some key =>
         wallet <~ new_Wallet key ;;
         salt <~ randomBytes 32 ;;
         now <~ Date_now ;;
         let timestamp := seconds now in
         let payload :=
           getCancelOrderEIP712Payload orderHashes salt timestamp
             CONSTANTS.chainId in
         signature <~
           signTypedData wallet (domain payload)
             [ ("Details", get_type "Details" (types payload)) ]
             (message payload) ;;
         ret {| orderHashes := orderHashes;
                signature := signature;
                salt := salt;
                maker := Wallet_address wallet;
                timestamp := timestamp |}
     end)%io
    (fun error =>
       (console_error "Error creating cancel order payload:" error ;;;
        throw error)%io).

(** The request body [JSON.stringify(payload)] of a cancellation. *)
Definition request_of (p : cancelPayload) : body :=
  CancelOrders {|
    Node.orderHashes := orderHashes p;
    cancel_signature := signature p;
    cancel_salt := salt p;
    cancel_maker := maker p;
    Node.timestamp := timestamp p |}.

(** [submitCancellation(payload)]. *)
Definition submitCancellation (payload : cancelPayload) : io answer :=
  try_catch
    (data <~ fetch_post CONSTANTS.apiUrl (request_of payload) ;;
     if success data then ret data else throw ApiError)%io
    (fun error =>
       (console_error "Error submitting cancellation:" error ;;;
        throw error)%io).

(** [cancelOrders(orderHashes)]; its message of success reads
    [result.data.cancelledCount]. *)
Definition cancelOrders (orderHashes : list string) : io answer :=
  try_catch
    (payload <~ createCancelOrderPayload orderHashes ;;
     result <~ submitCancellation payload ;;
     (if has_data result then ret tt
      else throw (TypeError_reading "cancelledCount")) ;;;
     ret result)%io
    (fun error =>
       (console_error "Failed to cancel orders:" error ;;; throw error)%io).

(** [cancelOrdersFromInput()], given the line the user types. *)
Definition cancelOrdersFromInput (input : string) : io unit :=
  try_catch
    (let orderHashes := map trim (split_comma input) in
     (if (List.length orderHashes =? 0)%nat
         || String.eqb (hd "" orderHashes) ""
      then throw (Error "No order hashes provided")
      else ret tt) ;;;
     result <~ cancelOrders orderHashes ;;
     ret tt)%io
    (fun error => console_error "Cancellation process failed:" error).

End WithPrimitives.
End Cancel.

(** ** The stand-alone order-management module *)

Module OrderManagement.
Import JS Ethers Node.

Module CONSTANTS.
Definition chainId : Z := 4162.
Definition cancelOrderUrl : string :=
  "https://api.sx.bet/orders/cancel/v2?chainVersion=SXR".
End CONSTANTS.

(** [getCancelOrderEIP712Payload(orderHashes, salt, timestamp)]. *)
Definition getCancelOrderEIP712Payload (orderHashes : list string)
  (salt : bytes) (timestamp : Float64.number) : Cancel.typedData :=
  {| Cancel.types :=
       [ ("EIP712Domain",
          [ ("name", T_string);
            ("version", T_string);
            ("chainId", T_uint 256);
            ("salt", T_bytesN 32) ]);
         ("Details",
          [ ("orderHashes", T_array T_string);
            ("timestamp", T_uint 256) ]) ];
     Cancel.primaryType := "Details";
     Cancel.domain := {|
       name := Some "CancelOrderV2SportX";
       version := Some "1.0";
       chainId := Some CONSTANTS.chainId;
       verifyingContract := None;
       Ethers.salt := Some salt |};
     Cancel.message :=
       V_object
         [ ("orderHashes", V_array (map V_string orderHashes));
           ("timestamp", V_number timestamp) ] |}.

Section WithPrimitives.
Context {P : Primitives}.

(** [cancelOrders(orderHashes, wallet)]. *)
Definition cancelOrders (orderHashes : list string) (wallet : Wallet)
  : io answer :=
  try_catch
    (salt <~ randomBytes 32 ;;
     now <~ Date_now ;;
     let timestamp := Cancel.seconds now in
     let payload := getCancelOrderEIP712Payload orderHashes salt timestamp in
     signature <~
       signTypedData wallet (Cancel.domain payload)
         [ ("Details", Cancel.get_type "Details" (Cancel.types payload)) ]
         (Cancel.message payload) ;;
     let apiPayload := {|
       Cancel.orderHashes := orderHashes;
       Cancel.signature := signature;
       Cancel.salt := salt;
       Cancel.maker := Wallet_address wallet;
       Cancel.timestamp := timestamp |} in
     data <~ fetch_post CONSTANTS.cancelOrderUrl
                        (Cancel.request_of apiPayload) ;;
     if success data then ret data else throw ApiError)%io
    (fun error =>
       (console_error "Error cancelling orders:" error ;;; throw error)%io).

End WithPrimitives.
End OrderManagement.


(** ** Definitions used in the statements *)

Module FormatterStatements.
Import JS Float64.

(** The double [percentageOdds / 1e20], in units, for an argument in
    [[0, 10^20]]. *)
Definition ratio_units (p : Z) : Z :=
  round_mag (round_mag (p * unit) 1 * unit) (10 ^ 20 * unit).

(** The double [1 / (1 - q)], in units, for a double [q < 1] of [kq] units. *)
Definition inverse_units (kq : Z) : Z :=
  round_mag (unit * unit) (round_mag (unit - kq) 1).

(** A text that denotes a number that is not negative. *)
Definition nonneg_text (t : text) : Prop :=
  match t with
  | Str s => (exists n : Z, 0 <= n /\ s = fixed2 false n) \/ s = "Infinity"
  | NumberToString neg _ => neg = false
  end.

End FormatterStatements.

Module SigningStatements.
Import JS Ethers Node.

(** An order whose fields have the widths of their Solidity types. *)
Definition well_formed (o : order) : Prop :=
  List.length (marketHash o) = 32%nat /\
  List.length (baseToken o) = 20%nat /\
  List.length (maker o) = 20%nat /\
  List.length (executor o) = 20%nat /\
  0 <= totalBetSize o < 2 ^ 256 /\
  0 <= percentageOdds o < 2 ^ 256 /\
  0 <= expiry o < 2 ^ 256 /\
  0 <= salt o < 2 ^ 256.

(** The tight concatenation of the nine fields. *)
Definition packed (o : order) : bytes :=
  marketHash o ++ baseToken o ++
  be_bytes 32 (totalBetSize o) ++ be_bytes 32 (percentageOdds o) ++
  be_bytes 32 (expiry o) ++ be_bytes 32 (salt o) ++
  maker o ++ executor o ++
  [if isMakerBettingOutcomeOne o then x01 else x00].

Section WithPrimitives.
Context {P : Primitives}.

(** The words of the members of a struct, in the order of its type. *)
Fixpoint encodeMembers (types : typetable) (fields : list field)
  (props : list (string * value)) : result bytes :=
  match fields with
  | [] => Ok []
  | (fname, ft) :: fields' =>
      w <- match lookup fname props with
           | Some x => encodeValue types ft x
           | None => Throw (InvalidArgument "missing value")
           end ;;
      ws <- encodeMembers types fields' props ;;
      Ok (w ++ ws)
  end.

(** The words of the items of an array. *)
Fixpoint encodeItems (types : typetable) (elem : ftype) (items : list value)
  : result bytes :=
  match items with
  | [] => Ok []
  | x :: items' =>
      w <- encodeValue types elem x ;;
      ws <- encodeItems types elem items' ;;
      Ok (w ++ ws)
  end.

(** The EIP-712 digest of a cancellation, written out. *)
Definition cancel_domainSeparator (salt : bytes) : bytes :=
  keccak256
    (keccak256 (toUtf8Bytes
       "EIP712Domain(string name,string version,uint256 chainId,bytes32 salt)")
     ++ keccak256 (toUtf8Bytes "CancelOrderV2SportX")
     ++ keccak256 (toUtf8Bytes "1.0")
     ++ be_bytes 32 4162
     ++ salt).

Definition cancel_structHash (orderHashes : list string) (timestamp : Z)
  : bytes :=
  keccak256
    (keccak256 (toUtf8Bytes "Details(string[] orderHashes,uint256 timestamp)")
     ++ keccak256
          (List.concat (map (fun h => keccak256 (toUtf8Bytes h)) orderHashes))
     ++ be_bytes 32 timestamp).

Definition cancel_digest (orderHashes : list string) (salt : bytes)
  (timestamp : Z) : bytes :=
  keccak256 ([x19; x01] ++ cancel_domainSeparator salt
             ++ cancel_structHash orderHashes timestamp).









(** The message [createSigningPayload] builds, for a fill of
    [takerAmount] with salt [fillSalt]. *)
Definition fill_message (order : bookOrder) (takerAmount fillSalt : Z)
  : value :=
  let o := unsigned (listed order) in
  V_object
    [ ("action", V_string "N/A"); ("market", V_string "N/A");
      ("betting", V_string "N/A"); ("stake", V_string "N/A");
      ("odds", V_string "N/A"); ("returning", V_string "N/A");
      ("fills",
       V_object
         [ ("makerSigs", V_array [V_hex (signature (listed order))]);
           ("orders",
            V_array
              [ V_object
                  [ ("marketHash", V_hex (marketHash o));
                    ("baseToken", V_hex (baseToken o));
                    ("totalBetSize", V_num (totalBetSize o));
                    ("percentageOdds", V_num (percentageOdds o));
                    ("expiry", V_num (expiry o));
                    ("salt", V_num (salt o));
                    ("maker", V_hex (maker o));
                    ("executor", V_hex (executor o));
                    ("isMakerBettingOutcomeOne",
                     V_bool (isMakerBettingOutcomeOne o)) ] ]);
           ("takerAmounts", V_array [V_string (BigInt_toString takerAmount)]);
           ("fillSalt", V_string (BigInt_toString fillSalt));
           ("beneficiary", V_hex ZeroAddress);
           ("beneficiaryType", V_num 0);
           ("cashOutTarget", V_hex ZeroHash) ]) ].

End WithPrimitives.

(** The private keys [ethers.Wallet] takes: 32 bytes that spell a
    scalar of the curve. *)
Definition valid_key (key : bytes) : Prop :=
  List.length key = 32%nat /\ 0 < toBigInt key < secp256k1_n.

(** A stand-in for the primitives, to run the definitions on concrete
    inputs.  It has nothing of a hash but the length of its output,
    which is all that the statements below assume. *)
Definition sample_primitives : Primitives := {|
  keccak256 := fun m => be_bytes 32 (toBigInt m);
  keccak256_length := fun m => eq_refl;
  sign := fun key digest => key ++ digest;
  computeAddress := fun key => firstn 20 key
|}.

Definition sample_world : world := {|
  entropy := fun i => byte_of_Z (Z.of_nat i);
  consumed := 0;
  clock_ms := 1762041600123;
  PRIVATE_KEY := Some (repeat x01 32);
  signed := [];
  posted := [];
  accepts := fun _ _ => true;
  with_data := fun _ _ => true;
  reported := []
|}.

(** An order and a listing of it, with all-zero addresses and hashes. *)
Definition sample_order : order := {|
  marketHash := repeat x00 32;
  maker := repeat x00 20;
  totalBetSize := 1000000;
  percentageOdds := 5 * 10 ^ 19;
  baseToken := repeat x00 20;
  apiExpiry := 1762045200;
  expiry := 2209006800;
  executor := repeat x00 20;
  isMakerBettingOutcomeOne := true;
  salt := 12345
|}.

Definition sample_bookOrder : bookOrder := {|
  orderHash := repeat x07 32;
  listed := {| unsigned := sample_order; signature := repeat x09 65 |}
|}.

End SigningStatements.

(** ** More of the run time and of the libraries *)

(** *** [ethers.parseUnits] *)

Module Units.
Import JS.

Definition is_digit (c : ascii) : bool :=
  let n := nat_of_ascii c in ((48 <=? n) && (n <=? 57))%nat.

(** The longest prefix of digits, and what follows it. *)
Fixpoint span_digits (s : string) : string * string :=
  match s with
  | EmptyString => ("", "")
  | String c s' =>
      if is_digit c
      then let (digits, rest) := span_digits s' in (String c digits, rest)
      else ("", s)
  end.

(** The match of [value] against the pattern of [FixedNumber.fromString]
    (an optional minus sign, digits, an optional point, digits, and
    nothing else): the sign, the whole part and the fraction. *)
Definition FixedNumber_match (value : string)
  : option (bool * string * string) :=
  let (negative, s1) :=
    match value with
    | String "-" rest => (true, rest)
    | _ => (false, value)
    end in
  let (whole, s2) := span_digits s1 in
  let s3 := match s2 with String "." rest => rest | _ => s2 end in
  let (decimal, s4) := span_digits s3 in
  match s4 with
  | EmptyString => Some (negative, whole, decimal)
  | _ => None
  end.

(** [BigInt(digits)] for a string of digits; the empty string is 0. *)
Fixpoint digits_value_from (acc : Z) (s : string) : Z :=
  match s with
  | EmptyString => acc
  | String c s' =>
      digits_value_from (acc * 10 + Z.of_nat (nat_of_ascii c - 48)) s'
  end.

Definition digits_value (s : string) : Z := digits_value_from 0 s.

Fixpoint zeros (n : nat) : string :=
  match n with
  | O => ""
  | S n' => String "0" (zeros n')
  end.

Fixpoint all_zeros (s : string) : bool :=
  match s with
  | EmptyString => true
  | String c s' => Ascii.eqb c "0" && all_zeros s'
  end.

(** [parseUnits(value, decimals)], which is
    [FixedNumber.fromString(value, { decimals, width: 512 }).value]:
    the fraction is padded with zeros to [decimals] digits (the library
    pads four at a time and cuts the excess), digits beyond [decimals]
    must all be zero, and the result must fit 512 bits, signed.  The
    numeric faults are kept under [InvalidArgument] as well. *)
Definition parseUnits (value : string) (decimals : nat) : result Z :=
  match FixedNumber_match value with
  | None => Throw (InvalidArgument "invalid FixedNumber string value")
  | Some (negative, whole, decimal) =>
      if (String.length whole + String.length decimal =? 0)%nat
      then Throw (InvalidArgument "invalid FixedNumber string value")
      else
        let decimal :=
          (decimal ++ zeros (decimals - String.length decimal))%string in
        if negb (all_zeros
                   (substring decimals (String.length decimal - decimals)
                      decimal))
        then Throw (InvalidArgument "too many decimals for format")
        else
          let decimal := substring 0 decimals decimal in
          let magnitude := digits_value (whole ++ decimal) in
          let value := if negative : bool then - magnitude else magnitude in
          if (- 2 ^ 511 <=? value) && (value <? 2 ^ 511) then Ok value
          else Throw (InvalidArgument "overflow")
  end.

End Units.

(** *** [bignumber.js], with its default configuration *)

Module BigNumber.
Import JS.

(** A finite BigNumber is a decimal fraction [coefficient / 10^places].
    The sign of a zero is not kept: [toFixed] prints none under
    [ROUND_FLOOR], and a zero divisor made from a numeral is positive. *)
Inductive t : Type :=
| NaN
| Infinity (neg : bool)
| Finite (coefficient : Z) (places : nat).

(** [new BigNumber(z.toString())] for a BigInt [z]. *)
Definition of_BigInt (z : Z) : t := Finite z 0.

Definition DECIMAL_PLACES : nat := 20.

(** [ROUND_HALF_UP] (the default [ROUNDING_MODE]) of [n / d], [0 < d]:
    the nearest integer, away from zero when two are equally near. *)
Definition round_half_up (n d : Z) : Z :=
  Z.sgn n * ((2 * Z.abs n + d) / (2 * d)).

(** [x.dividedBy(y)]: the quotient rounded to [DECIMAL_PLACES]. *)
Definition dividedBy (x y : t) : t :=
  match x, y with
  | NaN, _ | _, NaN => NaN
  | Infinity _, Infinity _ => NaN
  | Infinity s, Finite b _ => Infinity (xorb s (b <? 0))
  | Finite _ _, Infinity _ => Finite 0 0
  | Finite a ea, Finite b eb =>
      if b =? 0 then
        if a =? 0 then NaN else Infinity (a <? 0)
      else
        Finite
          (round_half_up
             (Z.sgn b * a * 10 ^ Z.of_nat eb * 10 ^ Z.of_nat DECIMAL_PLACES)
             (Z.abs b * 10 ^ Z.of_nat ea))
          DECIMAL_PLACES
  end.

(** [x.toFixed(0, 3)]: no fraction digits, rounding mode [ROUND_FLOOR]. *)
Definition toFixed_0_ROUND_FLOOR (x : t) : string :=
  match x with
  | NaN => "NaN"
  | Infinity s => if s then "-Infinity" else "Infinity"
  | Finite c e => BigInt_toString (c / 10 ^ Z.of_nat e)
  end.

End BigNumber.

(** *** More operations on Numbers *)

Module Float64More.
Import JS Float64.

(** [x * y]. *)
Definition mul (x y : number) : number :=
  match x, y with
  | NaN, _ | _, NaN => NaN
  | Infinity s, Infinity s' => Infinity (xorb s s')
  | Infinity s, Finite s' k | Finite s' k, Infinity s =>
      if k =? 0 then NaN else Infinity (xorb s s')
  | Finite s k, Finite s' k' => round (xorb s s') (k * k') unit
  end.

(** The Number value of a decimal literal that denotes [a / 10^e],
    [0 <= a], with at most 20 significant digits: the nearest double.
    This is what [parseFloat] returns for such an input. *)
Definition of_decimal (a : Z) (e : nat) : number :=
  round false (a * unit) (10 ^ Z.of_nat e).

(** [Number::toString] of a Number.  An integer below [2^53] is
    printed digit by digit; the other finite values, which are printed
    with the fewest digits that give the Number back, are kept
    symbolic. *)
Definition toString (x : number) : text :=
  match x with
  | NaN => Str "NaN"
  | Infinity s => Str (if s then "-Infinity" else "Infinity")
  | Finite s k =>
      if (k mod unit =? 0) && (k / unit <? 2 ^ 53)
      then Str (BigInt_toString (signed s (k / unit)))
      else NumberToString (s && (0 <? k)) k
  end.

(** The integer an integer-valued Number is, which is how
    [JSON.stringify] prints it (a clock reading is finite). *)
Definition integer_of (x : number) : Z :=
  match x with
  | Finite s k => signed s (k / unit)
  | _ => 0
  end.

End Float64More.

(** ** [post.js]: the odds ladder and the order object *)

Module PostOrder.
Import JS Ethers Node Units.

Module CONSTANTS.
Definition marketHash : bytes :=
  be_bytes 32
    0x01f08881f4e3c8ab1503147cfd9967cb05b0cb63897dc395bbbb926165541f56.
Definition maker : bytes :=
  be_bytes 20 0xADb93842A9cEa59A11Fed9E3D9870D37eb2eC9Dd.
Definition baseToken : bytes :=
  be_bytes 20 0x6629Ce1Cf35Cc1329ebB4F63202F3f197b3F050B.
Definition executor : bytes :=
  be_bytes 20 0x52adf738AAD93c31f798a30b2C74D658e1E9a562.
Definition isMakerBettingOutcomeOne : bool := true.
Definition oddLadderStepSize : Z := 25.
End CONSTANTS.

(** [(CONSTANTS.oddLadderStepSize / 100).toString()]: the quotient is
    the double [0.25] exactly, which prints as this numeral. *)
Definition step_numeral : string := "0.25".

(** [a % b] on BigInt: the remainder has the sign of [a]. *)
Definition BigInt_rem (a b : Z) : result Z :=
  if b =? 0 then Throw RangeError_DivisionByZero else Ok (Z.rem a b).

(** [checkOddsLadderValid(odds)]. *)
Definition checkOddsLadderValid (odds : Z) : result bool :=
  step <- parseUnits step_numeral 16 ;;
  r <- BigInt_rem odds step ;;
  Ok (r =? 0).

(** [roundDownOddsToNearestStep(odds)]. *)
Definition roundDownOddsToNearestStep (odds : Z) : result Z :=
  step <- parseUnits step_numeral 16 ;;
  let bnStep := BigNumber.of_BigInt step in
  let bnOdds := BigNumber.of_BigInt odds in
  let firstPassDivision :=
    BigNumber.toFixed_0_ROUND_FLOOR (BigNumber.dividedBy bnOdds bnStep) in
  q <- getBigInt_string firstPassDivision ;;
  Ok (q * step).

(** [processOdds(percentageOdds)], given the numeral
    [percentageOdds.toString()] of its argument; the result is kept as
    the integer its numeral denotes. *)
Definition processOdds (printed : string) : result Z :=
  rawOdds <- parseUnits printed 18 ;;
  valid <- checkOddsLadderValid rawOdds ;;
  if valid : bool then Ok rawOdds
  else
    roundedOdds <- roundDownOddsToNearestStep rawOdds ;;
    Ok roundedOdds.

(** [createOrder(stakeSize, percentageOdds)]. *)
Definition createOrder (stakeSize : string) (percentageOdds : Z) : io order :=
  (now <~ Date_now ;;
   let apiExpiryTime :=
     Float64.add (Cancel.seconds now) (Float64.of_Z 3600) in
   salt <~ randomBytes 32 ;;
   totalBetSize <~ lift (parseUnits stakeSize 6) ;;
   ret {| marketHash := CONSTANTS.marketHash;
          maker := CONSTANTS.maker;
          totalBetSize := totalBetSize;
          Node.percentageOdds := percentageOdds;
          baseToken := CONSTANTS.baseToken;
          apiExpiry := Float64More.integer_of apiExpiryTime;
          expiry := 2209006800;
          executor := CONSTANTS.executor;
          isMakerBettingOutcomeOne := CONSTANTS.isMakerBettingOutcomeOne;
          Node.salt := toBigInt salt |})%io.

End PostOrder.

(** ** [fill.js]: what the user sees and types *)

Module FillPrompt.
Import JS Float64 Float64More.

(** [formatOdds(percentageOdds)]. *)
Definition formatOdds (percentageOdds : Z) : result string :=
  impliedOdds <- BigInt_div (percentageOdds * 100) BigInt_1e20 ;;
  Ok (BigInt_toString impliedOdds ++ "%")%string.

(** The [filter] of the bet-amount prompt, given [parseFloat(input)]:
    [Math.floor(amount * 1000000).toString()]. *)
Definition betAmount_filter (amount : number) : text :=
  toString (Math_floor (mul amount (of_Z 1000000))).

End FillPrompt.

(** ** The stand-alone utilities: [formatAddress] *)

Module Utils.




End Utils.

(** ** [display.js]: the order book *)

Module Display.
Import JS Float64 Formatter.

(** An order as the API lists it, with the fields that
    [displayOrderBook] reads. *)
Record listedOrder : Type := {
  quote : Formatter.order;
  isMakerBettingOutcomeOne : bool
}.

Record orderData : Type := {
  odds : text;
  liquidity : text
}.

(** The [orders.forEach] of [displayOrderBook], from the lists filled
    so far: the two lists as they are before they are sorted and
    printed. *)
Fixpoint displayOrderBook_forEach (orders : list listedOrder)
  (outcomeOneOrders outcomeTwoOrders : list orderData)
  : result (list orderData * list orderData) :=
  match orders with
  | [] => Ok (outcomeOneOrders, outcomeTwoOrders)
  | order :: rest =>
      let decimalOdds := calculateTakerOdds (percentageOdds (quote order)) in
      remainingLiquidity <- calculateRemainingTakerSpace (quote order) ;;
      let orderData :=
        {| odds := decimalOdds; liquidity := remainingLiquidity |} in
      if isMakerBettingOutcomeOne order
      then displayOrderBook_forEach rest outcomeOneOrders
             (outcomeTwoOrders ++ [orderData])
      else displayOrderBook_forEach rest (outcomeOneOrders ++ [orderData])
             outcomeTwoOrders
  end.

End Display.

(** ** More definitions used in the statements *)

Module MoreStatements.
Import JS Ethers Node.

(** A string of digits. *)
Fixpoint all_digits (s : string) : bool :=
  match s with
  | EmptyString => true
  | String c s' => Units.is_digit c && all_digits s'
  end.

(** The numeral with whole part [w] and fraction [f], with a point
    when there is a fraction, and a minus sign when [neg]. *)
Definition numeral (neg : bool) (w f : string) : string :=
  ((if neg then "-" else "") ++ w ++
   match f with EmptyString => "" | _ => "." ++ f end)%string.

(** The order [createOrder] returns for a stake of [totalBetSize]
    base units, when the clock shows [seconds] and the salt drawn is
    [salt]. *)
Definition created_order (totalBetSize percentageOdds seconds : Z)
  (salt : bytes) : order :=
  {| marketHash := PostOrder.CONSTANTS.marketHash;
     maker := PostOrder.CONSTANTS.maker;
     totalBetSize := totalBetSize;
     percentageOdds := percentageOdds;
     baseToken := PostOrder.CONSTANTS.baseToken;
     apiExpiry := seconds + 3600;
     expiry := 2209006800;
     executor := PostOrder.CONSTANTS.executor;
     isMakerBettingOutcomeOne := true;
     Node.salt := toBigInt salt |}.

Fixpoint count_commas (s : string) : nat :=
  match s with
  | EmptyString => 0
  | String c s' => (if Ascii.eqb c "," then 1 else 0) + count_commas s'
  end.

Definition starts_with_space (s : string) : bool :=
  negb (Cancel.white_space_at s =? 0)%nat.

(** Some end of the string is one white-space character. *)
Fixpoint ends_with_space (s : string) : bool :=
  match s with
  | EmptyString => false
  | String _ s' =>
      (Cancel.white_space_at s =? String.length s)%nat || ends_with_space s'
  end.

(** The request a cancellation of [orderHashes] sends, when the key is
    [key], the salt drawn is [salt] and the clock shows [seconds]. *)
Definition cancel_request {P : Primitives} (orderHashes : list string)
  (key salt : bytes) (seconds : Z) : body :=
  CancelOrders
    {| orderHashes := orderHashes;
       cancel_signature :=
         sign key (SigningStatements.cancel_digest orderHashes salt seconds);
       cancel_salt := salt;
       cancel_maker := computeAddress key;
       timestamp := Float64.Finite false (seconds * Float64.unit) |}.

(** The error of the encoder for an integer that is no [uint256]. *)
Definition uint256_fault (z : Z) : exn :=
  if z <? 0
  then InvalidArgument "unsigned value cannot be negative"
  else InvalidArgument "padding exceeds data length".

(** One step of the odds ladder, [parseUnits("0.25", 16)]: 0.0025 % in
    the format of the API, where [10^20] stands for 100 %. *)
Definition ladder_step : Z := 25 * 10 ^ 14.

(** The sample world without a private key in the environment. *)
Definition keyless_world : world :=
  {| entropy := entropy SigningStatements.sample_world;
     consumed := 0;
     clock_ms := clock_ms SigningStatements.sample_world;
     PRIVATE_KEY := None;
     signed := [];
     posted := [];
     accepts := fun _ _ => true;
  with_data := fun _ _ => true;
     reported := [] |}.

(** A listing of the sample order at odds [p]. *)
Definition listing_at (p : Z) : bookOrder :=
  let o := SigningStatements.sample_order in
  {| orderHash := repeat x07 32;
     listed :=
       {| unsigned :=
            {| marketHash := marketHash o; maker := maker o;
               totalBetSize := totalBetSize o; percentageOdds := p;
               baseToken := baseToken o; apiExpiry := apiExpiry o;
               expiry := expiry o; executor := executor o;
               isMakerBettingOutcomeOne := isMakerBettingOutcomeOne o;
               salt := salt o |};
          signature := repeat x09 65 |} |}.

(** The line of the order book for a listed order whose odds are not
    zero. *)
Definition book_line (o : Display.listedOrder) : Display.orderData :=
  let q := Display.quote o in
  let remainingStake := Formatter.totalBetSize q - Formatter.fillAmount q in
  {| Display.odds :=
       Formatter.calculateTakerOdds (Formatter.percentageOdds q);
     Display.liquidity :=
       Formatter.convertToNominalUnits
         (Float64.of_Z
            (Z.quot (remainingStake * 10 ^ 20) (Formatter.percentageOdds q)
             - remainingStake)) 6 |}.

End MoreStatements.

Ltac step_members :=
  cbn [SigningStatements.encodeMembers Ethers.lookup String.eqb Ascii.eqb
       Bool.eqb JS.bind fst snd].

(** * Theorems *)

(** ** The run time *)

Lemma BigInt_toString_inj (a b : Z) :
  JS.BigInt_toString a = JS.BigInt_toString b -> a = b.
Proof.
  unfold JS.BigInt_toString. intros H.
  apply DecimalZ.to_int_inj.
  assert (E : NilEmpty.int_of_string (NilEmpty.string_of_int (Z.to_int a)) =
              NilEmpty.int_of_string (NilEmpty.string_of_int (Z.to_int b)))
    by (now rewrite H).
  rewrite !NilEmpty.isi in E.
  congruence.
Qed.

(** ** Rounding to nearest, ties to even *)

Section Rounding.
Import JS Float64 Formatter FormatterStatements.

Lemma rne_bounds (a b : Z) :
  0 < b -> 2 * a - b <= 2 * b * rne a b <= 2 * a + b.
Proof.
  intros Hb. unfold rne.
  pose proof (Z.div_mod a b ltac:(lia)) as E.
  pose proof (Z.mod_pos_bound a b Hb) as R.
  destruct (Z.compare_spec (2 * (a mod b)) b); [destruct (Z.even (a / b))| |]; nia.
Qed.

Lemma rne_tie_even (a b : Z) :
  0 < b ->
  2 * b * rne a b = 2 * a - b \/ 2 * b * rne a b = 2 * a + b ->
  Z.even (rne a b) = true.
Proof.
  intros Hb. unfold rne.
  pose proof (Z.div_mod a b ltac:(lia)) as E.
  pose proof (Z.mod_pos_bound a b Hb) as R.
  destruct (Z.compare_spec (2 * (a mod b)) b) as [T|T|T].
  - intros _. destruct (Z.even (a / b)) eqn:Ev; [exact Ev|].
    rewrite Z.even_add, Ev. reflexivity.
  - intros [H|H]; nia.
  - intros [H|H]; nia.
Qed.

Lemma rne_mono (a1 b1 a2 b2 : Z) :
  0 < b1 -> 0 < b2 -> a1 * b2 <= a2 * b1 -> rne a1 b1 <= rne a2 b2.
Proof.
  intros H1 H2 Hle.
  pose proof (rne_bounds a1 b1 H1) as [L1 U1].
  pose proof (rne_bounds a2 b2 H2) as [L2 U2].
  pose proof (rne_tie_even a1 b1 H1) as T1.
  pose proof (rne_tie_even a2 b2 H2) as T2.
  set (n1 := rne a1 b1) in *. set (n2 := rne a2 b2) in *.
  destruct (Z_le_gt_dec n1 n2) as [|Hgt]; [assumption|exfalso].
  assert (A : 2 * (b1 * b2) * n1 <= 2 * (a2 * b1) + b1 * b2) by nia.
  assert (B : 2 * (a2 * b1) - b1 * b2 <= 2 * (b1 * b2) * n2) by nia.
  assert (P : 0 < b1 * b2) by nia.
  assert (D : n1 = n2 + 1) by nia.
  assert (E1 : 2 * b1 * n1 = 2 * a1 + b1) by nia.
  assert (E2 : 2 * b2 * n2 = 2 * a2 - b2) by nia.
  specialize (T1 (or_intror E1)). specialize (T2 (or_introl E2)).
  rewrite D, Z.even_add, T2 in T1. discriminate.
Qed.

Lemma rne_nonneg (a b : Z) : 0 <= a -> 0 < b -> 0 <= rne a b.
Proof.
  intros Ha Hb. pose proof (rne_bounds a b Hb). nia.
Qed.

Lemma rne_exact (n b : Z) : 0 < b -> rne (n * b) b = n.
Proof.
  intros Hb. unfold rne. rewrite Z.div_mul, Z.mod_mul by lia.
  destruct (Z.compare_spec (2 * 0) b); lia.
Qed.

Lemma div_le_cross (a1 b1 a2 b2 : Z) :
  0 < b1 -> 0 < b2 -> a1 * b2 <= a2 * b1 -> a1 / b1 <= a2 / b2.
Proof.
  intros H1 H2 Hle.
  apply Z.div_le_lower_bound; [assumption|].
  pose proof (Z.mul_div_le a1 b1 H1). nia.
Qed.

Lemma grid_nonneg (t : Z) : 0 <= grid t.
Proof. unfold grid. lia. Qed.

Lemma grid_mono (t1 t2 : Z) : t1 <= t2 -> grid t1 <= grid t2.
Proof.
  intros H. unfold grid. pose proof (Z.log2_le_mono t1 t2 H). lia.
Qed.

(** Below the next power of two. *)
Lemma grid_upper (t : Z) : 0 <= t -> t < 2 ^ (grid t + 53).
Proof.
  intros Ht. unfold grid.
  destruct (Z.eq_dec t 0) as [->|Hn].
  - apply Z.pow_pos_nonneg; lia.
  - pose proof (Z.log2_spec t ltac:(lia)) as [_ U].
    eapply Z.lt_le_trans; [exact U|].
    apply Z.pow_le_mono_r; lia.
Qed.

(** On a grid coarser than one unit the magnitude has 53 bits. *)
Lemma grid_lower (t : Z) : 0 < grid t -> 2 ^ (grid t + 52) <= t.
Proof.
  unfold grid. intros Hg.
  assert (Ht : 0 < t).
  { destruct (Z_lt_le_dec 0 t); [assumption|].
    rewrite (Z.log2_nonpos t) in Hg by lia. lia. }
  pose proof (Z.log2_spec t Ht) as [L _].
  replace (Z.max (Z.log2 t - 52) 0 + 52) with (Z.log2 t) by lia.
  exact L.
Qed.

Lemma round_mag_significand_le (a b : Z) :
  0 <= a -> 0 < b -> rne a (b * 2 ^ grid (a / b)) <= 2 ^ 53.
Proof.
  intros Ha Hb.
  set (g := grid (a / b)).
  assert (Hg : 0 <= g) by apply grid_nonneg.
  assert (P : 0 < 2 ^ g) by (apply Z.pow_pos_nonneg; lia).
  assert (B : 0 < b * 2 ^ g) by nia.
  pose proof (grid_upper (a / b) ltac:(apply Z.div_pos; lia)) as U.
  fold g in U. rewrite Z.pow_add_r in U by lia.
  assert (A : a < b * (2 ^ g * 2 ^ 53)).
  { pose proof (Z.div_mod a b ltac:(lia)). 
    pose proof (Z.mod_pos_bound a b Hb).
    assert (a / b + 1 <= 2 ^ g * 2 ^ 53) by lia. nia. }
  pose proof (rne_bounds a (b * 2 ^ g) B) as [_ Up].
  assert (P53 : 0 < 2 ^ 53) by (apply Z.pow_pos_nonneg; lia).
  nia.
Qed.

Lemma round_mag_significand_ge (a b : Z) :
  0 <= a -> 0 < b -> 0 < grid (a / b) ->
  2 ^ 52 <= rne a (b * 2 ^ grid (a / b)).
Proof.
  intros Ha Hb Hpos.
  set (g := grid (a / b)) in *.
  assert (P : 0 < 2 ^ g) by (apply Z.pow_pos_nonneg; lia).
  assert (B : 0 < b * 2 ^ g) by nia.
  pose proof (grid_lower (a / b) Hpos) as L. fold g in L.
  rewrite Z.pow_add_r in L by lia.
  assert (A : b * (2 ^ g * 2 ^ 52) <= a).
  { pose proof (Z.mul_div_le a b Hb). nia. }
  pose proof (rne_bounds a (b * 2 ^ g) B) as [Lo _].
  assert (P52 : 0 < 2 ^ 52) by (apply Z.pow_pos_nonneg; lia).
  nia.
Qed.

Lemma round_mag_nonneg (a b : Z) : 0 <= a -> 0 < b -> 0 <= round_mag a b.
Proof.
  intros Ha Hb. unfold round_mag.
  pose proof (grid_nonneg (a / b)).
  assert (0 < 2 ^ grid (a / b)) by (apply Z.pow_pos_nonneg; lia).
  apply Z.mul_nonneg_nonneg; [apply rne_nonneg; nia | lia].
Qed.

Theorem round_mag_mono (a1 b1 a2 b2 : Z) :
  0 <= a1 -> 0 < b1 -> 0 <= a2 -> 0 < b2 ->
  a1 * b2 <= a2 * b1 -> round_mag a1 b1 <= round_mag a2 b2.
Proof.
  intros Ha1 Hb1 Ha2 Hb2 Hle.
  pose proof (div_le_cross a1 b1 a2 b2 Hb1 Hb2 Hle) as Ht.
  pose proof (grid_mono _ _ Ht) as Hg.
  pose proof (grid_nonneg (a1 / b1)) as G1.
  unfold round_mag.
  destruct (Z.eq_dec (grid (a1 / b1)) (grid (a2 / b2))) as [E|N].
  - rewrite E.
    assert (P : 0 < 2 ^ grid (a2 / b2)) by (apply Z.pow_pos_nonneg; lia).
    apply Z.mul_le_mono_nonneg_r; [lia|].
    apply rne_mono; nia.
  - pose proof (round_mag_significand_le a1 b1 Ha1 Hb1) as U.
    pose proof (round_mag_significand_ge a2 b2 Ha2 Hb2 ltac:(lia)) as L.
    set (g1 := grid (a1 / b1)) in *. set (g2 := grid (a2 / b2)) in *.
    assert (P1 : 0 < 2 ^ g1) by (apply Z.pow_pos_nonneg; lia).
    assert (S : 2 ^ g2 = 2 ^ (g2 - g1 - 1) * 2 * 2 ^ g1).
    { transitivity (2 ^ ((g2 - g1 - 1) + 1 + g1)); [f_equal; lia|].
      rewrite !Z.pow_add_r by lia. rewrite Z.pow_1_r. reflexivity. }
    assert (Q : 0 < 2 ^ (g2 - g1 - 1)) by (apply Z.pow_pos_nonneg; lia).
    set (n1 := rne a1 _) in *. set (n2 := rne a2 _) in *.
    rewrite S.
    change (2 ^ 53) with (2 * 2 ^ 52) in U.
    assert (P52 : 0 < 2 ^ 52) by (apply Z.pow_pos_nonneg; lia).
    assert (n1 <= n2 * (2 ^ (g2 - g1 - 1) * 2)) by nia.
    rewrite Z.mul_assoc.
    apply Z.mul_le_mono_nonneg_r; lia.
Qed.

(** A value already on the grid is returned unchanged. *)
Lemma round_mag_exact (m g : Z) :
  0 <= g -> 2 ^ 52 <= m < 2 ^ 53 -> round_mag (m * 2 ^ g) 1 = m * 2 ^ g.
Proof.
  intros Hg Hm. unfold round_mag. rewrite Z.div_1_r.
  assert (G : grid (m * 2 ^ g) = g).
  { unfold grid.
    assert (Z.log2 (m * 2 ^ g) = 52 + g); [|lia].
    rewrite Z.log2_mul_pow2 by lia.
    assert (Z.log2 m = 52); [|lia].
    apply Z.log2_unique; [lia|]. change (2 ^ (52 + 1)) with (2 ^ 53). lia. }
  rewrite G, Z.mul_1_l, rne_exact; [reflexivity|].
  apply Z.pow_pos_nonneg; lia.
Qed.

Lemma round_mag_small (k : Z) : 0 <= k < 2 ^ 53 -> round_mag k 1 = k.
Proof.
  intros Hk. unfold round_mag. rewrite Z.div_1_r.
  assert (G : grid k = 0).
  { unfold grid. destruct (Z.eq_dec k 0) as [->|]; [reflexivity|].
    assert (Z.log2 k < 53); [|lia].
    apply Z.log2_lt_pow2; lia. }
  rewrite G. change (1 * 2 ^ 0) with 1. rewrite Z.mul_1_r.
  rewrite <- (Z.mul_1_r k) at 1. apply rne_exact. lia.
Qed.

Lemma unit_pos : 0 < unit.
Proof. reflexivity. Qed.

Lemma round_mag_divisible (a b e : Z) :
  0 <= a -> 0 < b -> 53 <= e -> 2 ^ e <= round_mag a b ->
  (2 ^ (e - 53) | round_mag a b).
Proof.
  intros Ha Hb He Hle.
  pose proof (round_mag_significand_le a b Ha Hb) as U.
  pose proof (grid_nonneg (a / b)) as G.
  unfold round_mag in *. set (g := grid (a / b)) in *.
  set (n := rne a _) in *.
  assert (P : 0 < 2 ^ g) by (apply Z.pow_pos_nonneg; lia).
  assert (Hge : e - 53 <= g).
  { assert (2 ^ e <= 2 ^ (53 + g)).
    { rewrite Z.pow_add_r by lia. nia. }
    apply Z.pow_le_mono_r_iff in H; lia. }
  exists (n * 2 ^ (g - (e - 53))).
  rewrite <- Z.mul_assoc, <- Z.pow_add_r by lia.
  do 2 f_equal. lia.
Qed.

Lemma round_mag_le (a b c d v : Z) :
  round_mag c d = v -> 0 <= a -> 0 < b -> 0 <= c -> 0 < d ->
  a * d <= c * b -> round_mag a b <= v.
Proof. intros <-. apply round_mag_mono. Qed.

Lemma round_mag_ge (a b c d v : Z) :
  round_mag c d = v -> 0 <= a -> 0 < b -> 0 <= c -> 0 < d ->
  c * b <= a * d -> v <= round_mag a b.
Proof. intros <- Ha Hb Hc Hd. apply round_mag_mono; assumption. Qed.

(** The constants of [calculateTakerOdds] and [convertToNominalUnits]. *)
Lemma lit_1e20_eq : lit_1e20 = Finite false (10 ^ 20 * unit).
Proof. vm_compute. reflexivity. Qed.

Lemma pow10_6_eq : pow10 6 = Finite false (10 ^ 6 * unit).
Proof. vm_compute. reflexivity. Qed.

Lemma round_mag_1e20 : round_mag (10 ^ 20 * unit) 1 = 10 ^ 20 * unit.
Proof. vm_compute. reflexivity. Qed.

Lemma round_mag_ratio_one : round_mag (10 ^ 20 * unit * unit) (10 ^ 20 * unit) = unit.
Proof. vm_compute. reflexivity. Qed.

Lemma round_mag_unit : round_mag unit 1 = unit.
Proof. vm_compute. reflexivity. Qed.

Lemma round_mag_ulp_one : round_mag (2 ^ 1020) 1 = 2 ^ 1020.
Proof. vm_compute. reflexivity. Qed.

Lemma round_mag_inverse_unit : round_mag (unit * unit) unit = unit.
Proof. vm_compute. reflexivity. Qed.

Lemma round_mag_inverse_ulp : round_mag (unit * unit) (2 ^ 1020) = 2 ^ 54 * unit.
Proof. vm_compute. reflexivity. Qed.

Lemma unit_split : unit = 2 ^ 54 * 2 ^ 1020.
Proof. vm_compute. reflexivity. Qed.

Lemma below_overflow : 10 ^ 21 * unit < overflow_threshold.
Proof. vm_compute. reflexivity. Qed.

Lemma hundredths_unit : hundredths unit = 100.
Proof. vm_compute. reflexivity. Qed.

Lemma hundredths_mono (k k' : Z) : k <= k' -> hundredths k <= hundredths k'.
Proof.
  intros H. unfold hundredths. pose proof unit_pos.
  apply Z.div_le_mono; lia.
Qed.

Lemma of_Z_units (p : Z) :
  0 <= p <= 10 ^ 20 ->
  of_Z p = Finite false (round_mag (p * unit) 1) /\
  0 <= round_mag (p * unit) 1 <= 10 ^ 20 * unit.
Proof.
  intros Hp. pose proof unit_pos as U.
  assert (B : 0 <= round_mag (p * unit) 1 <= 10 ^ 20 * unit).
  { split; [apply round_mag_nonneg; nia|].
    apply (round_mag_le _ _ _ _ _ round_mag_1e20); nia. }
  split; [|exact B].
  unfold of_Z, round.
  replace (p <? 0) with false by (symmetry; apply Z.ltb_ge; lia).
  rewrite Z.abs_eq by lia.
  pose proof below_overflow.
  destruct (Z.leb_spec overflow_threshold (round_mag (p * unit) 1)); [nia|reflexivity].
Qed.

Lemma ratio_units_bounds (p : Z) :
  0 <= p <= 10 ^ 20 -> 0 <= ratio_units p <= unit.
Proof.
  intros Hp. pose proof unit_pos as U.
  destruct (of_Z_units p Hp) as [_ B].
  unfold ratio_units. split; [apply round_mag_nonneg; nia|].
  apply (round_mag_le _ _ _ _ _ round_mag_ratio_one); nia.
Qed.

Lemma ratio_units_mono (p p' : Z) :
  0 <= p <= p' -> p' <= 10 ^ 20 -> ratio_units p <= ratio_units p'.
Proof.
  intros Hp Hp'. pose proof unit_pos as U.
  destruct (of_Z_units p ltac:(lia)) as [_ B].
  destruct (of_Z_units p' ltac:(lia)) as [_ B'].
  assert (round_mag (p * unit) 1 <= round_mag (p' * unit) 1)
    by (apply round_mag_mono; nia).
  unfold ratio_units. apply round_mag_mono; nia.
Qed.

(** A double below [1] is at least [2^-53] below it. *)
Lemma gap_below_one (p : Z) :
  0 <= p <= 10 ^ 20 -> ratio_units p < unit ->
  2 ^ 1020 <= unit - ratio_units p.
Proof.
  intros Hp Hlt. pose proof unit_pos as U.
  destruct (of_Z_units p Hp) as [_ B].
  destruct (Z_lt_le_dec (ratio_units p) (2 ^ 1073)) as [Small|Big].
  - rewrite unit_split. change (2 ^ 1073) with (2 ^ 53 * 2 ^ 1020) in Small.
    assert (X : 0 < 2 ^ 1020) by (apply Z.pow_pos_nonneg; lia).
    change (2 ^ 54) with 18014398509481984.
    change (2 ^ 53) with 9007199254740992 in Small.
    revert Small X. generalize (2 ^ 1020) (ratio_units p). clear. intros; lia.
  - assert (D : (2 ^ 1020 | ratio_units p)).
    { apply (round_mag_divisible _ _ 1073); [nia|nia|lia|exact Big]. }
    assert (D' : (2 ^ 1020 | unit - ratio_units p)).
    { apply Z.divide_sub_r; [|exact D].
      exists (2 ^ 54). apply unit_split. }
    apply Z.divide_pos_le; [lia|exact D'].
Qed.

Lemma inverse_units_bounds (kq : Z) :
  2 ^ 1020 <= unit - kq <= unit ->
  2 ^ 1020 <= round_mag (unit - kq) 1 /\
  unit <= inverse_units kq <= 2 ^ 54 * unit.
Proof.
  intros H. pose proof unit_pos as U.
  assert (P : 0 < 2 ^ 1020) by (apply Z.pow_pos_nonneg; lia).
  assert (L : 2 ^ 1020 <= round_mag (unit - kq) 1).
  { apply (round_mag_ge _ _ _ _ _ round_mag_ulp_one); lia. }
  assert (R : round_mag (unit - kq) 1 <= unit).
  { apply (round_mag_le _ _ _ _ _ round_mag_unit); lia. }
  split; [exact L|]. unfold inverse_units. split.
  - apply (round_mag_ge _ _ _ _ _ round_mag_inverse_unit); nia.
  - apply (round_mag_le _ _ _ _ _ round_mag_inverse_ulp); nia.
Qed.

Lemma inverse_units_mono (kq kq' : Z) :
  kq <= kq' -> 2 ^ 1020 <= unit - kq' -> unit - kq <= unit ->
  inverse_units kq <= inverse_units kq'.
Proof.
  intros Hle H' H. pose proof unit_pos as U.
  assert (P : 0 < 2 ^ 1020) by (apply Z.pow_pos_nonneg; lia).
  destruct (inverse_units_bounds kq ltac:(lia)) as [L _].
  destruct (inverse_units_bounds kq' ltac:(lia)) as [L' _].
  assert (round_mag (unit - kq') 1 <= round_mag (unit - kq) 1)
    by (apply round_mag_mono; lia).
  unfold inverse_units. apply round_mag_mono; nia.
Qed.

Lemma round_finite (s : bool) (a b : Z) :
  round_mag a b < overflow_threshold ->
  round s a b = Finite s (round_mag a b).
Proof.
  intros H. unfold round.
  destruct (Z.leb_spec overflow_threshold (round_mag a b)); [lia|reflexivity].
Qed.

Lemma div_finite_pos (k k' : Z) :
  0 < k' -> round_mag (k * unit) k' < overflow_threshold ->
  div (Finite false k) (Finite false k') =
  Finite false (round_mag (k * unit) k').
Proof.
  intros Hk Hr. unfold div.
  replace (k' =? 0) with false by (symmetry; apply Z.eqb_neq; lia).
  apply round_finite. exact Hr.
Qed.

(** [1 - q] for a double [q] in [[0, 1]]. *)
Lemma one_minus (kq : Z) :
  0 <= kq <= unit ->
  sub one (Finite false kq) =
  if kq <? unit then Finite false (round_mag (unit - kq) 1) else zero.
Proof.
  intros H. pose proof unit_pos as U. pose proof below_overflow as O.
  unfold sub, one, opp, add, signed, negb.
  destruct (Z.ltb_spec kq unit) as [Lt|Ge].
  - replace (unit + - kq =? 0) with false by (symmetry; apply Z.eqb_neq; lia).
    replace (unit + - kq <? 0) with false by (symmetry; apply Z.ltb_ge; lia).
    rewrite Z.abs_eq by lia.
    replace (unit + - kq) with (unit - kq) by lia.
    apply round_finite.
    assert (round_mag (unit - kq) 1 <= unit)
      by (apply (round_mag_le _ _ _ _ _ round_mag_unit); lia).
    nia.
  - replace (unit + - kq =? 0) with true by (symmetry; apply Z.eqb_eq; lia).
    reflexivity.
Qed.

Lemma gtb_zero (k : Z) : gtb (Finite false k) zero = (0 <? k).
Proof. reflexivity. Qed.

Lemma ratio_is_ratio_units (p : Z) :
  0 <= p <= 10 ^ 20 -> div (of_Z p) lit_1e20 = Finite false (ratio_units p).
Proof.
  intros Hp. pose proof unit_pos as U.
  destruct (of_Z_units p Hp) as [E B].
  pose proof (ratio_units_bounds p Hp) as Q.
  pose proof below_overflow as O.
  rewrite E, lit_1e20_eq. unfold ratio_units in *.
  apply div_finite_pos; [lia|].
  apply Z.le_lt_trans with unit; [apply Q|].
  apply Z.lt_trans with (10 ^ 21 * unit); [|exact O].
  rewrite <- (Z.mul_1_l unit) at 1.
  apply Z.mul_lt_mono_pos_r; [exact U|reflexivity].
Qed.

Lemma inverse_is_inverse_units (kq : Z) :
  2 ^ 1020 <= unit - kq <= unit ->
  toFixed2 (div one (Finite false (round_mag (unit - kq) 1))) =
  Str (fixed2 false (hundredths (inverse_units kq))).
Proof.
  intros H. pose proof unit_pos as U. pose proof below_overflow as O.
  destruct (inverse_units_bounds kq H) as [L [I1 I2]].
  assert (P : 0 < 2 ^ 1020) by (apply Z.pow_pos_nonneg; lia).
  assert (C : 2 ^ 54 * unit < 10 ^ 21 * unit)
    by (apply Z.mul_lt_mono_pos_r; [exact U|reflexivity]).
  assert (Below : inverse_units kq < 10 ^ 21 * unit)
    by (eapply Z.le_lt_trans; [exact I2|exact C]).
  unfold inverse_units in *.
  unfold one. rewrite div_finite_pos.
  - unfold toFixed2.
    destruct (Z.leb_spec (10 ^ 21 * unit)
                (round_mag (unit * unit) (round_mag (unit - kq) 1)))
      as [Ge|_]; [|reflexivity].
    exfalso. apply (Z.lt_irrefl (10 ^ 21 * unit)).
    eapply Z.le_lt_trans; [exact Ge|exact Below].
  - eapply Z.lt_le_trans; [exact P|exact L].
  - eapply Z.lt_trans; [exact Below|exact O].
Qed.

(** [calculateTakerOdds] on [[0, 10^20]], step by step. *)
Lemma calculateTakerOdds_units (p : Z) :
  0 <= p <= 10 ^ 20 ->
  calculateTakerOdds p =
    if ratio_units p <? unit
    then Str (fixed2 false (hundredths (inverse_units (ratio_units p))))
    else Str "N/A".
Proof.
  intros Hp. pose proof unit_pos as U.
  pose proof (ratio_units_bounds p Hp) as Q.
  unfold calculateTakerOdds. cbv zeta.
  rewrite (ratio_is_ratio_units p Hp), one_minus by exact Q.
  destruct (Z.ltb_spec (ratio_units p) unit) as [Lt|Ge]; [|reflexivity].
  pose proof (gap_below_one p Hp Lt) as Gap.
  assert (G : 2 ^ 1020 <= unit - ratio_units p <= unit).
  { split; [exact Gap|]. apply Z.le_sub_nonneg. apply Q. }
  destruct (inverse_units_bounds (ratio_units p) G) as [L _].
  assert (P : 0 < 2 ^ 1020) by (apply Z.pow_pos_nonneg; lia).
  rewrite gtb_zero.
  replace (0 <? round_mag (unit - ratio_units p) 1) with true
    by (symmetry; apply Z.ltb_lt; eapply Z.lt_le_trans; [exact P|exact L]).
  apply inverse_is_inverse_units. exact G.
Qed.

(** *** Agreement with the machine's arithmetic on samples *)

#[local] Set Warnings "-inexact-float".

Example division_agrees_with_the_machine :
  forallb (fun ab : PrimFloat.float * PrimFloat.float =>
             same (of_float (fst ab / snd ab))
                  (div (of_float (fst ab)) (of_float (snd ab))))
    [ (1, 1e20); (1, 3); (2, 3); (1e308, 1e-10); (1e-308, 1e10);
      (1e-320, 3); (5e-324, 2); (1.5e-323, 2); (-1, 3); (0, -1); (1, 0);
      (-1, 0); (0, 0); (123456789.123, 1e6); (1, 1.1102230246251565e-16);
      (1e300, 1e-300); (1.7976931348623157e308, 0.9999999999999999);
      (4.4e-308, 3.3); (2.2250738585072014e-308, 1.0000000000000002);
      (1000000, 1e6); (1005000, 1e6); (15000, 1e6);
      (1762041600123, 1000) ]%float
  = true.
Proof. vm_compute. reflexivity. Qed.

Example subtraction_agrees_with_the_machine :
  forallb (fun ab : PrimFloat.float * PrimFloat.float =>
             same (of_float (fst ab - snd ab))
                  (sub (of_float (fst ab)) (of_float (snd ab))))
    [ (1, 1e-20); (1, 3); (1, 0.3); (1, 0.9999999999999999);
      (1e308, -1e308); (1e-308, 1e10); (1e-320, 3); (5e-324, 2); (1, 1);
      (-0, 0); (0, 0); (0, -0); (-0, -0); (-1, -1); (0.1, 0.3); (1e16, 1);
      (9007199254740992, -1); (9007199254740994, -1); (1, 0.525);
      (1, 0.5) ]%float
  = true.
Proof. vm_compute. reflexivity. Qed.

Example conversion_agrees_with_the_machine :
  forallb (fun z : Z =>
             same (of_float (SF2Prim (binary_normalize prec emax z 0 false)))
                  (of_Z z))
    [ 0; 1; 10 ^ 20; 10 ^ 20 - 1; 10 ^ 20 - 8192; 10 ^ 20 - 8193;
      2 ^ 53 + 1; 2 ^ 53 + 3; 2 ^ 54 + 2; 2 ^ 54 + 6; 10 ^ 308; 2 ^ 1024;
      2 ^ 1024 - 2 ^ 970; 2 ^ 1024 - 2 ^ 970 - 1; -7; - 10 ^ 400;
      123456789012345678901234567890; 52500000000000000000 ]
  = true.
Proof. vm_compute. reflexivity. Qed.

End Rounding.

(** ** [formatter.js] and the formulas of [fill.js] *)

Section Arithmetic.
Import JS Float64 Formatter FormatterStatements.

(** *** Above [10^20] *)

Lemma round_sign (s : bool) (a b : Z) :
  0 <= a -> 0 < b ->
  round s a b = Infinity s \/
  exists k, round_mag a b = k /\ 0 <= k /\ round s a b = Finite s k.
Proof.
  intros Ha Hb. unfold round.
  destruct (Z.leb_spec overflow_threshold (round_mag a b)); [left; reflexivity|].
  right. exists (round_mag a b).
  split; [reflexivity|]. split; [apply round_mag_nonneg; assumption|reflexivity].
Qed.

Lemma not_positive_minus (kq : Z) :
  unit <= kq -> gtb (sub one (Finite false kq)) zero = false.
Proof.
  intros H. pose proof unit_pos as U.
  unfold sub, one, opp, add, signed, negb.
  destruct (Z.eqb_spec (unit + - kq) 0) as [E|N]; [reflexivity|].
  replace (unit + - kq <? 0) with true by (symmetry; apply Z.ltb_lt; lia).
  destruct (round_sign true (Z.abs (unit + - kq)) 1 ltac:(lia) ltac:(lia))
    as [-> | (k & _ & Hk & ->)]; [reflexivity|].
  unfold gtb, zero, signed. apply Z.ltb_ge. lia.
Qed.

Lemma calculateTakerOdds_sentinel (p : Z) :
  10 ^ 20 <= p -> calculateTakerOdds p = Str "N/A".
Proof.
  intros Hp. pose proof unit_pos as U.
  unfold calculateTakerOdds. cbv zeta.
  assert (G : gtb (sub one (div (of_Z p) lit_1e20)) zero = false);
    [|rewrite G; reflexivity].
  unfold of_Z. replace (p <? 0) with false by (symmetry; apply Z.ltb_ge; lia).
  rewrite Z.abs_eq by lia. rewrite lit_1e20_eq.
  destruct (round_sign false (p * unit) 1 ltac:(nia) ltac:(lia))
    as [-> | (k & Ek & Hk & ->)]; [reflexivity|].
  assert (Lk : 10 ^ 20 * unit <= k).
  { rewrite <- Ek. apply (round_mag_ge _ _ _ _ _ round_mag_1e20); nia. }
  unfold div.
  replace (10 ^ 20 * unit =? 0) with false by (symmetry; apply Z.eqb_neq; lia).
  change (xorb false false) with false.
  destruct (round_sign false (k * unit) (10 ^ 20 * unit) ltac:(nia) ltac:(lia))
    as [-> | (kq & Eq & Hq & ->)]; [reflexivity|].
  apply not_positive_minus.
  rewrite <- Eq. apply (round_mag_ge _ _ _ _ _ round_mag_ratio_one); nia.
Qed.

(** *** Numerals with two decimals *)

Lemma length_append (a b : string) :
  String.length (a ++ b) = (String.length a + String.length b)%nat.
Proof. induction a as [|c a IH]; simpl; [reflexivity|now rewrite IH]. Qed.

Lemma append_inj (a b s s' : string) :
  String.length s = String.length s' ->
  (a ++ s = b ++ s')%string -> a = b /\ s = s'.
Proof.
  revert b. induction a as [|c a IH]; intros [|d b] L E; simpl in E.
  - split; [reflexivity|exact E].
  - exfalso. rewrite E in L. simpl in L. rewrite length_append in L. lia.
  - exfalso. rewrite <- E in L. simpl in L. rewrite length_append in L. lia.
  - injection E as -> E. destruct (IH b L E) as [-> ->]. split; reflexivity.
Qed.

Lemma digit_inj (x y : Z) :
  0 <= x < 10 -> 0 <= y < 10 -> digit x = digit y -> x = y.
Proof.
  intros Hx Hy E. unfold digit in E.
  apply (f_equal nat_of_ascii) in E.
  rewrite !nat_ascii_embedding in E by lia. lia.
Qed.

Lemma fixed2_inj (n m : Z) :
  0 <= n -> 0 <= m -> fixed2 false n = fixed2 false m -> n = m.
Proof.
  intros Hn Hm E. unfold fixed2 in E.
  change ("" ++ ?x)%string with x in E.
  apply append_inj in E; [|reflexivity].
  destruct E as [E1 E2]. apply BigInt_toString_inj in E1.
  injection E2 as E2 E3.
  apply digit_inj in E2, E3; Z.div_mod_to_equations; lia.
Qed.

Lemma fixed2_not_sentinel (neg : bool) (n : Z) : fixed2 neg n <> "N/A".
Proof.
  unfold fixed2. intros E.
  assert (L : String.length
                ((if neg then "-" else "") ++ BigInt_toString (n / 100) ++
                 String "." (String (digit (n mod 100 / 10))
                                    (String (digit (n mod 10)) ""))) = 3%nat)
    by (rewrite E; reflexivity).
  rewrite !length_append in L. simpl String.length in L.
  assert (S : String.length (if neg then "-" else "") = 0%nat /\
              String.length (BigInt_toString (n / 100)) = 0%nat) by lia.
  destruct S as [S1 S2].
  destruct (BigInt_toString (n / 100)); [|discriminate].
  destruct neg; [discriminate|]. simpl in E. discriminate.
Qed.

Lemma hundredths_nonneg (k : Z) : 0 <= k -> 0 <= hundredths k.
Proof.
  intros H. unfold hundredths. pose proof unit_pos.
  apply Z.div_pos; lia.
Qed.

Lemma toFixed2_nonneg (k : Z) : 0 <= k -> nonneg_text (toFixed2 (Finite false k)).
Proof.
  intros H. unfold toFixed2. change (false && (0 <? k))%bool with false.
  destruct (10 ^ 21 * unit <=? k); simpl; [reflexivity|].
  left. exists (hundredths k). split; [apply hundredths_nonneg; exact H|reflexivity].
Qed.

Lemma convertToNominalUnits_nonneg (z : Z) :
  0 <= z -> nonneg_text (convertToNominalUnits (of_Z z) 6).
Proof.
  intros Hz. pose proof unit_pos as U.
  unfold convertToNominalUnits. rewrite pow10_6_eq.
  unfold of_Z. replace (z <? 0) with false by (symmetry; apply Z.ltb_ge; lia).
  rewrite Z.abs_eq by lia.
  destruct (round_sign false (z * unit) 1 ltac:(nia) ltac:(lia))
    as [-> | (k & _ & Hk & ->)]; [simpl; right; reflexivity|].
  unfold div.
  replace (10 ^ 6 * unit =? 0) with false by (symmetry; apply Z.eqb_neq; lia).
  change (xorb false false) with false.
  destruct (round_sign false (k * unit) (10 ^ 6 * unit) ltac:(nia) ltac:(lia))
    as [-> | (k' & _ & Hk' & ->)]; [simpl; right; reflexivity|].
  apply toFixed2_nonneg. exact Hk'.
Qed.


(** C4.  For every [takerBetAmount] and every [percentageOdds] with
    [0 < percentageOdds < 10^20] both formulas return, and the
    potential payout less the stake is the fill amount.  For a stake
    that is not negative the two results are the floors of
    [takerBetAmount * percentageOdds / (10^20 - percentageOdds)] and
    [takerBetAmount * 10^20 / (10^20 - percentageOdds)]. *)
Theorem payout_minus_stake_is_fill (takerBetAmount percentageOdds : Z) :
  0 < percentageOdds < 10 ^ 20 ->
  exists fill payout : Z,
    Fill.calculateFillAmount takerBetAmount percentageOdds
      = Ok (BigInt_toString fill) /\
    Fill.calculatePotentialPayout takerBetAmount percentageOdds
      = Ok (BigInt_toString payout) /\
    payout - takerBetAmount = fill /\
    (0 <= takerBetAmount ->
     fill = takerBetAmount * percentageOdds / (10 ^ 20 - percentageOdds) /\
     payout = takerBetAmount * 10 ^ 20 / (10 ^ 20 - percentageOdds)).
Proof.
  intros Ho.
  exists (Z.quot (takerBetAmount * percentageOdds) (10 ^ 20 - percentageOdds)).
  exists (Z.quot (takerBetAmount * 10 ^ 20) (10 ^ 20 - percentageOdds)).
  unfold Fill.calculateFillAmount, Fill.calculatePotentialPayout,
    BigInt_div, BigInt_1e20, bind.
  replace (10 ^ 20 - percentageOdds =? 0) with false
    by (symmetry; apply Z.eqb_neq; lia).
  split; [reflexivity|]. split; [reflexivity|]. split; [|intros Ha; split].
  - replace (takerBetAmount * 10 ^ 20)
      with (takerBetAmount * percentageOdds
            + takerBetAmount * (10 ^ 20 - percentageOdds)) by ring.
    rewrite Z.quot_add; [lia|lia|].
    replace (takerBetAmount * percentageOdds
             + takerBetAmount * (10 ^ 20 - percentageOdds))
      with (takerBetAmount * 10 ^ 20) by ring.
    nia.
  - apply Z.quot_div_nonneg; nia.
  - apply Z.quot_div_nonneg; nia.
Qed.

(** C4 at a stake of 1,000,000 and even odds. *)
Lemma payout_minus_stake_is_fill_witness :
  0 < 5 * 10 ^ 19 < 10 ^ 20 /\
  exists fill payout : Z,
    Fill.calculateFillAmount 1000000 (5 * 10 ^ 19) = Ok (BigInt_toString fill) /\
    Fill.calculatePotentialPayout 1000000 (5 * 10 ^ 19)
      = Ok (BigInt_toString payout) /\
    payout - 1000000 = fill /\
    (0 <= 1000000 ->
     fill = 1000000 * (5 * 10 ^ 19) / (10 ^ 20 - 5 * 10 ^ 19) /\
     payout = 1000000 * 10 ^ 20 / (10 ^ 20 - 5 * 10 ^ 19)).
Proof.
  split; [lia|].
  apply (payout_minus_stake_is_fill 1000000 (5 * 10 ^ 19)). lia.
Defined.

(** C5 fails at [percentageOdds = 0]: both formulas return. *)
Lemma zero_odds_do_not_raise :
  Fill.calculateFillAmount 1000000 0 = Ok "0" /\
  Fill.calculatePotentialPayout 1000000 0 = Ok "1000000".
Proof. split; reflexivity. Qed.

(** C5, amended.  [calculateFillAmount] and [calculatePotentialPayout]
    raise, with [RangeError: Division by zero], exactly when
    [percentageOdds = 10^20]; for every other [percentageOdds] they
    return the quotient, truncated toward zero, as a decimal numeral.
    At [percentageOdds = 0] the fill amount is ["0"] and the payout is
    the bet amount. *)
Theorem fill_formulas_raise_only_at_full_odds (amount percentageOdds : Z) :
  Fill.calculateFillAmount amount percentageOdds =
    (if percentageOdds =? 10 ^ 20 then Throw RangeError_DivisionByZero
     else Ok (BigInt_toString
                (Z.quot (amount * percentageOdds) (10 ^ 20 - percentageOdds)))) /\
  Fill.calculatePotentialPayout amount percentageOdds =
    (if percentageOdds =? 10 ^ 20 then Throw RangeError_DivisionByZero
     else Ok (BigInt_toString
                (Z.quot (amount * 10 ^ 20) (10 ^ 20 - percentageOdds)))) /\
  Fill.calculateFillAmount amount 0 = Ok "0" /\
  Fill.calculatePotentialPayout amount 0 = Ok (BigInt_toString amount).
Proof.
  unfold Fill.calculateFillAmount, Fill.calculatePotentialPayout,
    BigInt_div, BigInt_1e20, bind.
  split; [|split; [|split]].
  - destruct (Z.eqb_spec percentageOdds (10 ^ 20)) as [->|N]; [reflexivity|].
    replace (10 ^ 20 - percentageOdds =? 0) with false
      by (symmetry; apply Z.eqb_neq; lia).
    reflexivity.
  - destruct (Z.eqb_spec percentageOdds (10 ^ 20)) as [->|N]; [reflexivity|].
    replace (10 ^ 20 - percentageOdds =? 0) with false
      by (symmetry; apply Z.eqb_neq; lia).
    reflexivity.
  - rewrite Z.mul_0_r. reflexivity.
  - change (10 ^ 20 - 0 =? 0) with false. cbv iota.
    rewrite Z.sub_0_r, Z.quot_mul by lia. reflexivity.
Qed.

(** C10.  With [totalBetSize = 1,000,000], [fillAmount = 0] and
    [percentageOdds = 5 * 10^19] the decimal odds are ["2.00"] and the
    remaining liquidity is ["1.00"]; a taker bet of 1,000,000 at these
    odds has fill amount ["1000000"] and potential payout ["2000000"]. *)
Theorem even_odds_scenario :
  calculateTakerOdds (5 * 10 ^ 19) = Str "2.00" /\
  calculateRemainingTakerSpace
    {| totalBetSize := 1000000; fillAmount := 0;
       percentageOdds := 5 * 10 ^ 19 |} = Ok (Str "1.00") /\
  Fill.calculateFillAmount 1000000 (5 * 10 ^ 19) = Ok "1000000" /\
  Fill.calculatePotentialPayout 1000000 (5 * 10 ^ 19) = Ok "2000000".
Proof.
  split; [|split; [|split]]; vm_compute; reflexivity.
Qed.

(** C7 fails: the odds at [percentageOdds = 1] and [2] both render as
    ["1.00"], which is neither above 1.00 nor increasing; and just
    below [10^20] the result is already the sentinel. *)
Lemma calculateTakerOdds_not_strict :
  calculateTakerOdds 1 = Str "1.00" /\
  calculateTakerOdds 2 = Str "1.00" /\
  calculateTakerOdds (10 ^ 20 - 1) = Str "N/A" /\
  ~ (forall p q : Z, 0 < p < q -> q < 10 ^ 20 ->
       exists n m : Z, 100 < n < m /\
         calculateTakerOdds p = Str (fixed2 false n) /\
         calculateTakerOdds q = Str (fixed2 false m)).
Proof.
  assert (E1 : calculateTakerOdds 1 = Str (fixed2 false 100))
    by (vm_compute; reflexivity).
  split; [vm_compute; reflexivity|].
  split; [vm_compute; reflexivity|].
  split; [vm_compute; reflexivity|].
  intros H. destruct (H 1 2 ltac:(lia) ltac:(lia)) as (n & m & Hnm & En & _).
  rewrite E1 in En. injection En as En.
  apply fixed2_inj in En; lia.
Qed.

(** The quotient by [1e20] is the double [1] from [10^20 - 8192] on,
    the first integer that is read as the double [1e20], and is below
    it before. *)
Lemma ratio_units_last : ratio_units (10 ^ 20 - 8193) < unit.
Proof. vm_compute. reflexivity. Qed.

Lemma ratio_units_first : ratio_units (10 ^ 20 - 8192) = unit.
Proof. vm_compute. reflexivity. Qed.

(** C7, amended.  Among the [percentageOdds] that are not negative,
    the result is the sentinel ["N/A"] exactly for those from
    [10^20 - 8192] on: these are the integers whose quotient by [1e20]
    is the double [1] or more, [10^20] and all above it among them.
    For [0 <= p <= p' < 10^20 - 8192] the results at
    [p] and [p'] are numerals with two decimals, [n / 100] and
    [n' / 100], with [1.00 <= n / 100 <= n' / 100]: the decimal odds
    are at least 1.00 and do not decrease. *)
Theorem calculateTakerOdds_monotone (p p' r : Z) :
  0 <= p -> p <= p' -> p' < 10 ^ 20 - 8192 -> 10 ^ 20 - 8192 <= r ->
  calculateTakerOdds r = Str "N/A" /\
  exists n n' : Z, 100 <= n <= n' /\
    calculateTakerOdds p = Str (fixed2 false n) /\
    calculateTakerOdds p' = Str (fixed2 false n').
Proof.
  intros Hp Hle Hp' Hr. pose proof unit_pos as U.
  pose proof ratio_units_last as Last. pose proof ratio_units_first as First.
  split.
  - destruct (Z_lt_le_dec r (10 ^ 20)) as [Lt|Ge];
      [|apply calculateTakerOdds_sentinel; exact Ge].
    rewrite (calculateTakerOdds_units r) by lia.
    pose proof (ratio_units_mono (10 ^ 20 - 8192) r ltac:(lia) ltac:(lia)) as M.
    destruct (Z.ltb_spec (ratio_units r) unit) as [L|G]; [lia|reflexivity].
  - rewrite (calculateTakerOdds_units p) by lia.
    rewrite (calculateTakerOdds_units p') by lia.
    pose proof (ratio_units_mono p p' ltac:(lia) ltac:(lia)) as M.
    pose proof (ratio_units_mono p' (10 ^ 20 - 8193) ltac:(lia) ltac:(lia)) as M'.
    pose proof (ratio_units_bounds p ltac:(lia)) as B.
    pose proof (ratio_units_bounds p' ltac:(lia)) as B'.
    replace (ratio_units p' <? unit) with true by (symmetry; apply Z.ltb_lt; lia).
    replace (ratio_units p <? unit) with true by (symmetry; apply Z.ltb_lt; lia).
    pose proof (gap_below_one p ltac:(lia) ltac:(lia)) as G.
    pose proof (gap_below_one p' ltac:(lia) ltac:(lia)) as G'.
    destruct (inverse_units_bounds (ratio_units p) ltac:(lia)) as [_ [I _]].
    pose proof (inverse_units_mono (ratio_units p) (ratio_units p') M G' ltac:(lia)) as IM.
    exists (hundredths (inverse_units (ratio_units p))),
           (hundredths (inverse_units (ratio_units p'))).
    split; [split|split; reflexivity].
    + rewrite <- hundredths_unit. apply hundredths_mono. exact I.
    + apply hundredths_mono. exact IM.
Qed.

(** C7, amended, at [percentageOdds] 25 %, at the last one below the
    sentinel and at the first one that gives it. *)
Lemma calculateTakerOdds_monotone_witness :
  calculateTakerOdds (10 ^ 20 - 8192) = Str "N/A" /\
  exists n n' : Z, 100 <= n <= n' /\
    calculateTakerOdds (25 * 10 ^ 18) = Str (fixed2 false n) /\
    calculateTakerOdds (10 ^ 20 - 8193) = Str (fixed2 false n').
Proof.
  apply (calculateTakerOdds_monotone (25 * 10 ^ 18) (10 ^ 20 - 8193)
           (10 ^ 20 - 8192)); lia.
Defined.

(** C6 fails for [fillAmount > totalBetSize]: no error is raised; at
    this order a negative amount is returned. *)
Lemma overfilled_order_is_not_rejected :
  calculateRemainingTakerSpace
    {| totalBetSize := 0; fillAmount := 1000000;
       percentageOdds := 5 * 10 ^ 19 |} = Ok (Str "-1.00").
Proof. vm_compute. reflexivity. Qed.

(** C8 fails: the rendering at [percentageOdds = 0] is ["1.00"], and it
    is not the greatest one, since 50% renders as ["2.00"]. *)
Lemma zero_odds_render_the_least :
  calculateTakerOdds 0 = Str "1.00" /\
  calculateTakerOdds (5 * 10 ^ 19) = Str "2.00" /\
  ~ (exists top : Z,
       calculateTakerOdds 0 = Str (fixed2 false top) /\
       forall p n : Z, 0 <= n ->
         calculateTakerOdds p = Str (fixed2 false n) -> n <= top).
Proof.
  assert (E0 : calculateTakerOdds 0 = Str (fixed2 false 100))
    by (vm_compute; reflexivity).
  assert (E1 : calculateTakerOdds (5 * 10 ^ 19) = Str (fixed2 false 200))
    by (vm_compute; reflexivity).
  split; [vm_compute; reflexivity|].
  split; [vm_compute; reflexivity|].
  intros (top & Et & Hmax).
  pose proof (Hmax _ 200 ltac:(lia) E1) as H200.
  pose proof (Hmax _ 100 ltac:(lia) E0) as H100.
  rewrite E0 in Et. injection Et as Et.
  apply fixed2_inj in Et; lia.
Qed.

(** C8, amended.  [calculateTakerOdds(0)] does not raise and returns
    ["1.00"], the value [10^20 / (10^20 - 0)] with two decimals; it is
    the least rendering: every [percentageOdds >= 0] gives the sentinel
    or a numeral of at least 1.00.  [toFixed(2)] renders a double of
    magnitude [x < 10^21] as the number [n] of hundredths nearest to
    [x], the larger one on a tie, that is half away from zero, and this
    is applied to the double that the last division gave. *)
Theorem calculateTakerOdds_zero (p k : Z) (s : bool) :
  0 <= p -> 0 <= k < 10 ^ 21 * unit ->
  calculateTakerOdds 0 = Str "1.00" /\
  (calculateTakerOdds p = Str "N/A" \/
   exists n : Z, 100 <= n /\ calculateTakerOdds p = Str (fixed2 false n)) /\
  (exists n : Z,
     toFixed2 (Finite s k) = Str (fixed2 (s && (0 <? k)) n) /\
     2 * unit * n - unit <= 200 * k < 2 * unit * n + unit).
Proof.
  intros Hp Hk. pose proof unit_pos as U.
  split; [vm_compute; reflexivity|]. split.
  - destruct (Z_lt_le_dec p (10 ^ 20)) as [Lt|Ge].
    + rewrite (calculateTakerOdds_units p) by lia.
      pose proof (ratio_units_bounds p ltac:(lia)) as B.
      destruct (Z.ltb_spec (ratio_units p) unit) as [L|G]; [right|left; reflexivity].
      pose proof (gap_below_one p ltac:(lia) L) as G.
      destruct (inverse_units_bounds (ratio_units p) ltac:(lia)) as [_ [I _]].
      exists (hundredths (inverse_units (ratio_units p))). split; [|reflexivity].
      rewrite <- hundredths_unit. apply hundredths_mono. exact I.
    + left. apply calculateTakerOdds_sentinel. exact Ge.
  - exists (hundredths k). split.
    + unfold toFixed2.
      destruct (Z.leb_spec (10 ^ 21 * unit) k); [lia|reflexivity].
    + unfold hundredths.
      pose proof (Z.div_mod (200 * k + unit) (2 * unit) ltac:(lia)).
      pose proof (Z.mod_pos_bound (200 * k + unit) (2 * unit) ltac:(lia)).
      nia.
Qed.

(** C8, amended, at [percentageOdds] 50% and the double [1.0]. *)
Lemma calculateTakerOdds_zero_witness :
  calculateTakerOdds 0 = Str "1.00" /\
  (calculateTakerOdds (5 * 10 ^ 19) = Str "N/A" \/
   exists n : Z, 100 <= n /\
     calculateTakerOdds (5 * 10 ^ 19) = Str (fixed2 false n)) /\
  (exists n : Z,
     toFixed2 (Finite false unit) = Str (fixed2 (false && (0 <? unit)) n) /\
     2 * unit * n - unit <= 200 * unit < 2 * unit * n + unit).
Proof.
  apply (calculateTakerOdds_zero (5 * 10 ^ 19) unit false).
  - lia.
  - split; vm_compute; [discriminate|reflexivity].
Defined.

End Arithmetic.

(** ** The timestamp of a cancellation *)

Section Seconds.
Import JS Float64.

(** Every integer below [2^53], scaled by a power of two, is a double. *)
Lemma round_mag_representable (n e : Z) :
  0 <= n < 2 ^ 53 -> 0 <= e -> round_mag (n * 2 ^ e) 1 = n * 2 ^ e.
Proof.
  intros Hn He. unfold round_mag. rewrite Z.div_1_r, Z.mul_1_l.
  set (g := grid (n * 2 ^ e)).
  assert (G : 0 <= g <= e).
  { unfold g, grid. destruct (Z.eq_dec n 0) as [->|N]; [rewrite Z.mul_0_l; cbn; lia|].
    rewrite Z.log2_mul_pow2 by lia.
    assert (Z.log2 n < 53) by (apply Z.log2_lt_pow2; lia). lia. }
  assert (S : n * 2 ^ e = n * 2 ^ (e - g) * 2 ^ g).
  { rewrite <- Z.mul_assoc, <- Z.pow_add_r by lia. do 2 f_equal. lia. }
  rewrite S at 1. rewrite rne_exact by (apply Z.pow_pos_nonneg; lia).
  symmetry. exact S.
Qed.

Lemma overflow_threshold_eq : overflow_threshold = 2 ^ 1024 * unit.
Proof. vm_compute. reflexivity. Qed.

Lemma of_Z_exact (z : Z) :
  0 <= z < 2 ^ 53 -> of_Z z = Finite false (z * unit).
Proof.
  intros Hz. pose proof unit_pos as U.
  assert (E : round_mag (z * unit) 1 = z * unit)
    by (unfold unit; apply round_mag_representable; lia).
  unfold of_Z. replace (z <? 0) with false by (symmetry; apply Z.ltb_ge; lia).
  rewrite Z.abs_eq by lia. rewrite round_finite; rewrite E; [reflexivity|].
  rewrite overflow_threshold_eq. apply Z.mul_lt_mono_pos_r; [exact U|].
  eapply Z.lt_trans; [apply Hz|reflexivity].
Qed.

Lemma unit_1024 : unit = 1024 * 2 ^ 1064.
Proof. vm_compute. reflexivity. Qed.

(** [Math.floor(ms / 1000)] is the exact number of whole seconds for
    every time value a [Date] can hold. *)
Lemma seconds_exact (ms : Z) :
  0 <= ms <= 8640000000000000 ->
  Cancel.seconds ms = Finite false (ms / 1000 * unit).
Proof.
  intros Hms. pose proof unit_pos as U.
  set (k := ms / 1000).
  assert (K : 1000 * k <= ms < 1000 * k + 1000).
  { unfold k. pose proof (Z.div_mod ms 1000 ltac:(lia)).
    pose proof (Z.mod_pos_bound ms 1000 ltac:(lia)). lia. }
  assert (Kb : 0 <= k <= 8640000000000) by lia.
  set (X := 2 ^ 1064).
  assert (HX : 0 < X) by (apply Z.pow_pos_nonneg; lia).
  assert (UX : unit = 1024 * X) by apply unit_1024.
  set (kq := round_mag (ms * unit * unit) (1000 * unit)).
  assert (Lo : k * unit <= kq).
  { apply (round_mag_ge _ _ (k * unit) 1); try nia.
    unfold unit. apply round_mag_representable; lia. }
  assert (Hi : kq <= ((k + 1) * 1024 - 1) * X).
  { apply (round_mag_le _ _ (((k + 1) * 1024 - 1) * X) 1); try nia.
    apply round_mag_representable; lia. }
  assert (Q : kq / unit = k).
  { symmetry. apply (Z.div_unique kq unit k (kq - k * unit)); [|ring].
    left. rewrite UX in *. nia. }
  unfold Cancel.seconds.
  rewrite (of_Z_exact ms) by lia. rewrite (of_Z_exact 1000) by lia.
  rewrite div_finite_pos; fold kq.
  - unfold Math_floor. rewrite Q. reflexivity.
  - lia.
  - rewrite overflow_threshold_eq.
    apply Z.le_lt_trans with (((k + 1) * 1024 - 1) * X); [exact Hi|].
    rewrite UX. 
    assert ((k + 1) * 1024 - 1 < 2 ^ 1024 * 1024); [|nia].
    apply Z.lt_trans with (2 ^ 53); [lia|reflexivity].
Qed.

End Seconds.

(** ** Encodings: [solidityPacked] and EIP-712 *)

Section Signing.
Import JS Ethers Node SigningStatements.
Context {P : Primitives}.

Lemma be_bytes_length (n : nat) (z : Z) : List.length (be_bytes n z) = n.
Proof.
  revert z. induction n as [|n IH]; intros z; simpl; [reflexivity|].
  rewrite length_app, IH. simpl. lia.
Qed.

Lemma in_range (z b : Z) : 0 <= z < b -> (0 <=? z) && (z <? b) = true.
Proof.
  intros [L U]. apply andb_true_intro. split; [apply Z.leb_le|apply Z.ltb_lt]; assumption.
Qed.

Lemma pack_uint256 (z : Z) :
  0 <= z < 2 ^ 256 -> pack uint256 (V_num z) = Ok (be_bytes 32 z).
Proof.
  intros [L U]. unfold pack, getBigInt, JS.bind.
  destruct (Z.ltb_spec z 0); [lia|].
  destruct (Z.ltb_spec z (2 ^ 256)); [reflexivity|lia].
Qed.

Lemma new_Wallet_valid (key : bytes) (w : world) :
  valid_key key -> new_Wallet key w = (Ok {| privateKey := key |}, w).
Proof.
  intros [Len [L U]]. unfold new_Wallet. rewrite Len. cbn [Nat.eqb].
  destruct (Z.ltb_spec 0 (toBigInt key)); [|lia].
  destruct (Z.ltb_spec (toBigInt key) secp256k1_n); [reflexivity|lia].
Qed.

Lemma pack_bytes32 (b : bytes) :
  List.length b = 32%nat -> pack bytes32 (V_hex b) = Ok b.
Proof. intros H. unfold pack. rewrite H. reflexivity. Qed.

Lemma pack_address (b : bytes) :
  List.length b = 20%nat -> pack address (V_hex b) = Ok b.
Proof. intros H. unfold pack. rewrite H. reflexivity. Qed.

Lemma order_preimage (o : order) :
  well_formed o ->
  solidityPacked
    [bytes32; address; uint256; uint256; uint256; uint256; address; address; bool_]
    [V_hex (marketHash o); V_hex (baseToken o); V_num (totalBetSize o);
     V_num (percentageOdds o); V_num (expiry o); V_num (salt o);
     V_hex (maker o); V_hex (executor o); V_bool (isMakerBettingOutcomeOne o)]
  = Ok (packed o).
Proof.
  intros (H1 & H2 & H3 & H4 & H5 & H6 & H7 & H8).
  cbn [solidityPacked].
  rewrite (pack_bytes32 _ H1), !pack_address, !pack_uint256 by assumption.
  unfold packed. cbn [JS.bind pack]. rewrite app_nil_r. reflexivity.
Qed.

Lemma packed_length (o : order) :
  well_formed o -> List.length (packed o) = 221%nat.
Proof.
  intros (H1 & H2 & H3 & H4 & _). unfold packed.
  rewrite !length_app, !be_bytes_length, H1, H2, H3, H4. reflexivity.
Qed.

Lemma createOrderHash_packed (o : order) :
  well_formed o -> Post.createOrderHash o = Ok (keccak256 (packed o)).
Proof.
  intros H. unfold Post.createOrderHash, solidityPackedKeccak256.
  rewrite (order_preimage o H). reflexivity.
Qed.

(** C1.  For every well-formed order the preimage of the order hash
    is the tight concatenation of [marketHash] (32 bytes), [baseToken]
    (20), [totalBetSize], [percentageOdds], [expiry], [salt] (32 bytes
    each, big-endian), [maker] (20), [executor] (20) and
    [isMakerBettingOutcomeOne] (1 byte, 0 or 1), 221 bytes in all; the
    order hash is its Keccak-256, and, with a private key set that
    [ethers.Wallet] takes (32 bytes that spell a scalar of secp256k1),
    [signOrder] returns the order with a signature made over
    Keccak-256 of ["\x19Ethereum Signed Message:\n32"] followed by
    that 32-byte hash, the personal-message scheme; this is the one
    digest it signs. *)
Theorem order_is_hashed_packed_and_signed_as_message
  (o : order) (w : world) (key : bytes) :
  well_formed o -> PRIVATE_KEY w = Some key -> valid_key key ->
  let digest := keccak256 (packed o) in
  let signedDigest :=
    keccak256 (toUtf8Bytes (String "025" "Ethereum Signed Message:" ++
                            String "010" "32")%string ++ digest) in
  List.length (packed o) = 221%nat /\
  List.length digest = 32%nat /\
  Post.createOrderHash o = Ok digest /\
  Post.signOrder o w =
    (Ok {| unsigned := o; signature := sign key signedDigest |},
     record_signed signedDigest w).
Proof.
  intros WF Key Len digest signedDigest.
  split; [apply packed_length; exact WF|].
  split; [apply keccak256_length|].
  split; [apply createOrderHash_packed; exact WF|].
  unfold Post.signOrder, try_catch, Node.bind, env_PRIVATE_KEY.
  rewrite Key. rewrite (new_Wallet_valid key _ Len). cbv beta iota.
  unfold lift. rewrite (createOrderHash_packed o WF).
  unfold signMessage, sign_digest, hashMessage. cbn [privateKey].
  rewrite keccak256_length.
  reflexivity.
Qed.


Lemma encodeValue_array (types : typetable) (elem : ftype) (items : list value) :
  encodeValue types (T_array elem) (V_array items) =
  (words <- encodeItems types elem items ;; Ok (keccak256 words)).
Proof.
  cbn [encodeValue].
  match goal with
  | |- JS.bind ?a _ = JS.bind ?b _ => assert (E : a = b); [|rewrite E; reflexivity]
  end.
  induction items as [|x items IH]; [reflexivity|].
  cbn [encodeItems]. rewrite <- IH. reflexivity.
Qed.

Lemma encodeValue_struct (types : typetable) (name : string)
  (props : list (string * value)) (fields : list field) :
  lookup name types = Some fields ->
  encodeValue types (T_struct name) (V_object props) =
  (body <- encodeMembers types fields props ;;
   Ok (keccak256 (typeHash types name ++ body))).
Proof.
  intros H. cbn [encodeValue]. rewrite H.
  match goal with
  | |- JS.bind ?a _ = JS.bind ?b _ => assert (E : a = b); [|rewrite E; reflexivity]
  end.
  clear H. induction fields as [|[fname ft] fields IH]; [reflexivity|].
  cbn [encodeMembers]. rewrite <- IH.
  match goal with
  | |- JS.bind ?a _ = JS.bind ?b _ => assert (E : a = b); [|rewrite E; reflexivity]
  end.
  clear IH. induction props as [|[k x] props IH]; [reflexivity|].
  cbn [lookup]. destruct (String.eqb k fname); [reflexivity|exact IH].
Qed.


Lemma encodeItems_strings (types : typetable) (l : list string) :
  encodeItems types T_string (map V_string l) =
  Ok (List.concat (map (fun h => keccak256 (toUtf8Bytes h)) l)).
Proof.
  induction l as [|h l IH]; [reflexivity|].
  cbn [map encodeItems encodeValue JS.bind List.concat]. rewrite IH. reflexivity.
Qed.

Lemma getBigInt_seconds (k : Z) :
  0 <= k < 2 ^ 53 ->
  getBigInt (V_number (Float64.Finite false (k * Float64.unit))) = Ok k.
Proof.
  intros Hk. pose proof unit_pos as U.
  unfold getBigInt, getBigInt_number.
  rewrite Z.mod_mul, Z.div_mul by lia.
  replace (k <? 2 ^ 53) with true by (symmetry; apply Z.ltb_lt; lia).
  reflexivity.
Qed.

Lemma encodeValue_seconds (types : typetable) (k : Z) :
  0 <= k < 2 ^ 53 ->
  encodeValue types (T_uint 256) (V_number (Float64.Finite false (k * Float64.unit)))
  = Ok (be_bytes 32 k).
Proof.
  intros Hk. cbn [encodeValue]. rewrite (getBigInt_seconds k Hk).
  cbn [JS.bind]. rewrite in_range; [reflexivity|].
  split; [lia|]. eapply Z.lt_trans; [apply Hk|reflexivity].
Qed.

Lemma next_bytes_length (n : nat) (w : world) :
  List.length (next_bytes n w) = n.
Proof. unfold next_bytes. rewrite length_map, length_seq. reflexivity. Qed.

Lemma encodeValue_string (types : typetable) (s : string) :
  encodeValue types T_string (V_string s) = Ok (keccak256 (toUtf8Bytes s)).
Proof. reflexivity. Qed.

Lemma encodeValue_uint (types : typetable) (bits : nat) (z : Z) :
  0 <= z < 2 ^ Z.of_nat bits ->
  encodeValue types (T_uint bits) (V_num z) = Ok (be_bytes 32 z).
Proof.
  intros H. cbn [encodeValue getBigInt JS.bind]. rewrite in_range by exact H.
  reflexivity.
Qed.

Lemma encodeValue_bytes32 (types : typetable) (b : bytes) :
  List.length b = 32%nat ->
  encodeValue types (T_bytesN 32) (V_hex b) = Ok b.
Proof.
  intros H. cbn [encodeValue]. unfold zeroPadBytes. rewrite H.
  cbn [Nat.eqb Nat.leb andb Nat.sub repeat]. rewrite app_nil_r. reflexivity.
Qed.


Lemma encodeType_cancel_domain :
  encodeType
    [("EIP712Domain",
      [("name", T_string); ("version", T_string); ("chainId", T_uint 256);
       ("salt", T_bytesN 32)])] "EIP712Domain"
  = "EIP712Domain(string name,string version,uint256 chainId,bytes32 salt)".
Proof. vm_compute. reflexivity. Qed.

Lemma encodeType_cancel_details :
  encodeType
    [("Details",
      [("orderHashes", T_array T_string); ("timestamp", T_uint 256)])]
    "Details"
  = "Details(string[] orderHashes,uint256 timestamp)".
Proof. vm_compute. reflexivity. Qed.

Lemma cancel_hash (orderHashes : list string) (salt : bytes) (k chain : Z) :
  List.length salt = 32%nat -> 0 <= k < 2 ^ 53 -> chain = 4162 ->
  let payload :=
    Cancel.getCancelOrderEIP712Payload orderHashes salt
      (Float64.Finite false (k * Float64.unit)) chain in
  TypedDataEncoder_hash (Cancel.domain payload)
    [("Details", Cancel.get_type "Details" (Cancel.types payload))]
    (Cancel.message payload)
  = Ok (cancel_digest orderHashes salt k).
Proof.
  intros Hs Hk -> payload. subst payload.
  unfold TypedDataEncoder_hash.
  cbn [Cancel.getCancelOrderEIP712Payload Cancel.domain Cancel.types Cancel.message].
  change (Cancel.get_type "Details" _)
    with [("orderHashes", T_array T_string); ("timestamp", T_uint 256)].
  change (inferPrimaryType _) with (Ok "Details").
  cbn [JS.bind].
  unfold hashDomain, domainFields, present.
  cbn [name version chainId verifyingContract Ethers.salt app map fst snd].
  unfold hashStruct.
  erewrite encodeValue_struct by reflexivity.
  step_members.
  rewrite (encodeValue_uint _ 256 4162) by (split; [lia|reflexivity]).
  rewrite (encodeValue_bytes32 _ salt Hs), !encodeValue_string.
  cbn [JS.bind].
  erewrite encodeValue_struct by reflexivity.
  step_members.
  rewrite encodeValue_array, encodeItems_strings, (encodeValue_seconds _ k Hk).
  cbn [JS.bind].
  unfold typeHash.
  match goal with
  | |- context [encodeType ?t "EIP712Domain"] =>
      change (encodeType t "EIP712Domain")
        with "EIP712Domain(string name,string version,uint256 chainId,bytes32 salt)"
  end.
  match goal with
  | |- context [encodeType ?t "Details"] =>
      change (encodeType t "Details")
        with "Details(string[] orderHashes,uint256 timestamp)"
  end.
  unfold cancel_digest, cancel_domainSeparator, cancel_structHash.
  rewrite !app_nil_r. reflexivity.
Qed.


Lemma createCancelOrderPayload_run (orderHashes : list string) (w : world)
  (key : bytes) :
  PRIVATE_KEY w = Some key -> valid_key key ->
  0 <= clock_ms w <= 8640000000000000 ->
  let digest :=
    cancel_digest orderHashes (next_bytes 32 w) (clock_ms w / 1000) in
  Cancel.createCancelOrderPayload orderHashes w =
    (Ok {| Cancel.orderHashes := orderHashes;
           Cancel.signature := sign key digest;
           Cancel.salt := next_bytes 32 w;
           Cancel.maker := computeAddress key;
           Cancel.timestamp :=
             Float64.Finite false (clock_ms w / 1000 * Float64.unit) |},
     record_signed digest (draw 32 w)).
Proof.
  intros Key Len Clock digest.
  assert (K : 0 <= clock_ms w / 1000 < 2 ^ 53).
  { split; [apply Z.div_pos; lia|].
    apply Z.div_lt_upper_bound; [lia|].
    eapply Z.le_lt_trans; [apply Clock|reflexivity]. }
  unfold Cancel.createCancelOrderPayload, try_catch, Node.bind at 1,
    env_PRIVATE_KEY.
  rewrite Key. unfold Node.bind at 1.
  rewrite (new_Wallet_valid key _ Len). cbv beta iota.
  unfold Node.bind, ret, randomBytes, Date_now.
  cbn [clock_ms draw].
  rewrite (seconds_exact (clock_ms w) Clock).
  unfold signTypedData, Node.bind, lift.
  rewrite (cancel_hash orderHashes (next_bytes 32 w) (clock_ms w / 1000)
             Cancel.CONSTANTS.chainId (next_bytes_length 32 w) K eq_refl).
  reflexivity.
Qed.

(** C3.  The typed data of a cancellation has the domain
    [{name: "CancelOrderV2SportX", version: "1.0", chainId, salt}],
    without a verifying contract, and a ["Details"] message holding
    the list of order-hash strings and the timestamp, with no nested
    struct; the stand-alone module builds the same one.  With a
    private key set that [ethers.Wallet] takes, one request draws one
    32-byte salt from the random source, whatever the number of order
    hashes, and signs the EIP-712 digest of these data, with the whole
    seconds of the clock as timestamp. *)
Theorem cancellation_digest (orderHashes : list string) (w : world)
  (key : bytes) (timestamp : Float64.number) (chain : Z) :
  PRIVATE_KEY w = Some key -> valid_key key ->
  0 <= clock_ms w <= 8640000000000000 ->
  let salt := next_bytes 32 w in
  let seconds := clock_ms w / 1000 in
  let digest := cancel_digest orderHashes salt seconds in
  let payload :=
    Cancel.getCancelOrderEIP712Payload orderHashes salt timestamp chain in
  Cancel.domain payload =
    {| name := Some "CancelOrderV2SportX"; version := Some "1.0";
       chainId := Some chain; verifyingContract := None;
       Ethers.salt := Some salt |} /\
  Cancel.message payload =
    V_object [("orderHashes", V_array (map V_string orderHashes));
              ("timestamp", V_number timestamp)] /\
  OrderManagement.getCancelOrderEIP712Payload orderHashes salt timestamp =
    Cancel.getCancelOrderEIP712Payload orderHashes salt timestamp 4162 /\
  List.length salt = 32%nat /\
  Cancel.createCancelOrderPayload orderHashes w =
    (Ok {| Cancel.orderHashes := orderHashes;
           Cancel.signature := sign key digest;
           Cancel.salt := salt;
           Cancel.maker := computeAddress key;
           Cancel.timestamp :=
             Float64.Finite false (seconds * Float64.unit) |},
     record_signed digest (draw 32 w)) /\
  consumed (record_signed digest (draw 32 w)) = (consumed w + 32)%nat.
Proof.
  intros Key Len Clock salt seconds digest payload.
  split; [reflexivity|]. split; [reflexivity|]. split; [reflexivity|].
  split; [apply next_bytes_length|].
  split; [apply createCancelOrderPayload_run; assumption|reflexivity].
Qed.

(** C9, amended.  [createCancelOrderPayload] has no check for an empty
    list: for every list of order hashes, empty or not, with a private
    key set that [ethers.Wallet] takes, it signs once and returns
    [{orderHashes, signature, salt, maker, timestamp}].  The empty
    input is rejected by [cancelOrdersFromInput], before anything is
    signed or sent: when the first comma-separated entry of the line,
    trimmed as [String.prototype.trim] does, is empty, it raises
    [Error('No order hashes provided')], which it catches and reports
    itself; nothing else is reported. *)
Theorem cancellation_is_guarded_at_the_prompt (orderHashes : list string)
  (input : string) (w : world) (key : bytes) :
  PRIVATE_KEY w = Some key -> valid_key key ->
  0 <= clock_ms w <= 8640000000000000 ->
  hd "" (map Cancel.trim (Cancel.split_comma input)) = "" ->
  (exists (payload : Cancel.cancelPayload) (digest : bytes),
     Cancel.createCancelOrderPayload orderHashes w =
       (Ok payload, record_signed digest (draw 32 w)) /\
     Cancel.orderHashes payload = orderHashes /\
     Cancel.signature payload = sign key digest /\
     Cancel.salt payload = next_bytes 32 w /\
     Cancel.maker payload = computeAddress key /\
     Cancel.timestamp payload =
       Float64.Finite false (clock_ms w / 1000 * Float64.unit)) /\
  Cancel.cancelOrdersFromInput input w =
    (Ok tt,
     record_reported "Cancellation process failed:"
       (Error "No order hashes provided") w).
Proof.
  intros Key Len Clock Empty. split.
  - eexists. eexists. split.
    + exact (createCancelOrderPayload_run orderHashes w key Key Len Clock).
    + cbn [Cancel.orderHashes Cancel.signature Cancel.salt Cancel.maker
             Cancel.timestamp].
      repeat (split; [reflexivity|]). reflexivity.
  - unfold Cancel.cancelOrdersFromInput, try_catch, Node.bind.
    rewrite Empty. rewrite orb_true_r.
    reflexivity.
Qed.


Lemma getBigInt_toString (z : Z) :
  getBigInt_string (BigInt_toString z) = Ok z.
Proof.
  unfold getBigInt_string, BigInt_toString. rewrite NilEmpty.isi.
  pose proof (DecimalZ.of_to z) as E.
  destruct z as [|p|p]; cbn [Z.to_int] in *.
  - reflexivity.
  - pose proof (Unsigned.to_uint_nonnil p) as N.
    destruct (Pos.to_uint p); [congruence| rewrite E; reflexivity ..].
  - pose proof (Unsigned.to_uint_nonnil p) as N.
    destruct (Pos.to_uint p); [congruence| rewrite E; reflexivity ..].
Qed.




Lemma toBigInt_range (b : bytes) :
  0 <= toBigInt b < 256 ^ Z.of_nat (List.length b).
Proof.
  unfold toBigInt.
  assert (G : forall acc, 0 <= acc ->
            0 <= fold_left (fun a x => a * 256 + Z.of_N (Byte.to_N x)) b acc
              < (acc + 1) * 256 ^ Z.of_nat (List.length b)).
  { induction b as [|x b IH]; intros acc Hacc; cbn [fold_left List.length].
    - change (256 ^ Z.of_nat 0) with 1. lia.
    - assert (Hx : 0 <= Z.of_N (Byte.to_N x) < 256).
      { pose proof (Byte.to_N_bounded x). lia. }
      specialize (IH (acc * 256 + Z.of_N (Byte.to_N x)) ltac:(lia)).
      rewrite Nat2Z.inj_succ, Z.pow_succ_r by lia.
      assert (0 < 256 ^ Z.of_nat (List.length b)) by (apply Z.pow_pos_nonneg; lia).
      nia. }
  specialize (G 0 ltac:(lia)). lia.
Qed.





Lemma calculateFillAmount_value (a o : Z) :
  0 <= a -> 0 < o < 10 ^ 20 ->
  Fill.calculateFillAmount a o = Ok (BigInt_toString (a * o / (10 ^ 20 - o))).
Proof.
  intros Ha Ho. unfold Fill.calculateFillAmount, BigInt_div, BigInt_1e20, JS.bind.
  replace (10 ^ 20 - o =? 0) with false by (symmetry; apply Z.eqb_neq; lia).
  rewrite Z.quot_div_nonneg by nia. reflexivity.
Qed.

Lemma createSigningPayload_run (order : bookOrder) (a : Z) (w : world) :
  0 <= a -> 0 < percentageOdds (unsigned (listed order)) < 10 ^ 20 ->
  let o := unsigned (listed order) in
  let fillSalt := toBigInt (next_bytes 32 w) in
  let takerAmount := a * percentageOdds o / (10 ^ 20 - percentageOdds o) in
  Fill.createSigningPayload order a w =
    (Ok {| Fill.types :=
             [ ("EIP712Domain", Fill.types_EIP712Domain);
               ("Details", Fill.types_Details);
               ("FillObject", Fill.types_FillObject);
               ("Order", Fill.types_Order) ];
           Fill.primaryType := "Details";
           Fill.domain :=
             {| name := Some "SX Bet"; version := Some "6.0";
                chainId := Some 4162;
                verifyingContract := Some Fill.CONSTANTS.EIP712_FILL_HASHER;
                Ethers.salt := None |};
           Fill.message := fill_message order takerAmount fillSalt;
           Fill.fillAmount := BigInt_toString takerAmount;
           Fill.fillSalt := BigInt_toString fillSalt |},
     draw 32 w).
Proof.
  intros Ha Ho o fillSalt takerAmount.
  unfold Fill.createSigningPayload, Fill.generateFillSalt, Node.bind,
    randomBytes, ret, lift.
  rewrite (calculateFillAmount_value a _ Ha Ho). reflexivity.
Qed.


End Signing.

(** ** The statements above at concrete inputs *)

Section Closed.
Import JS Ethers Node SigningStatements.

Lemma sample_order_well_formed : well_formed sample_order.
Proof.
  unfold well_formed.
  split; [reflexivity|]. split; [reflexivity|].
  split; [reflexivity|]. split; [reflexivity|].
  split; [split; vm_compute; [discriminate|reflexivity]|].
  split; [split; vm_compute; [discriminate|reflexivity]|].
  split; [split; vm_compute; [discriminate|reflexivity]|].
  split; vm_compute; [discriminate|reflexivity].
Qed.

Lemma sample_key_valid : valid_key (repeat x01 32).
Proof. split; [reflexivity|]. split; vm_compute; reflexivity. Qed.


(** C1 at the sample order. *)
Lemma order_is_hashed_packed_and_signed_as_message_witness :
  let o := sample_order in
  let w := sample_world in
  let key := repeat x01 32 in
  let digest := @keccak256 sample_primitives (packed o) in
  let signedDigest :=
    @keccak256 sample_primitives
      (toUtf8Bytes (String "025" "Ethereum Signed Message:" ++
                    String "010" "32")%string ++ digest) in
  List.length (packed o) = 221%nat /\
  List.length digest = 32%nat /\
  @Post.createOrderHash sample_primitives o = Ok digest /\
  @Post.signOrder sample_primitives o w =
    (Ok {| unsigned := o;
           signature := @sign sample_primitives key signedDigest |},
     record_signed signedDigest w).
Proof.
  intros o w key.
  apply (@order_is_hashed_packed_and_signed_as_message sample_primitives o w key).
  - exact sample_order_well_formed.
  - reflexivity.
  - exact sample_key_valid.
Defined.


(** C3 at a request for two orders. *)
Lemma cancellation_digest_witness :
  let w := sample_world in
  let orderHashes := ["0xaa"; "0xbb"] in
  let salt := next_bytes 32 w in
  let seconds := clock_ms w / 1000 in
  let digest := @cancel_digest sample_primitives orderHashes salt seconds in
  let payload :=
    Cancel.getCancelOrderEIP712Payload orderHashes salt Float64.zero 4162 in
  Cancel.domain payload =
    {| name := Some "CancelOrderV2SportX"; version := Some "1.0";
       chainId := Some 4162; verifyingContract := None;
       Ethers.salt := Some salt |} /\
  Cancel.message payload =
    V_object [("orderHashes", V_array (map V_string orderHashes));
              ("timestamp", V_number Float64.zero)] /\
  OrderManagement.getCancelOrderEIP712Payload orderHashes salt Float64.zero =
    Cancel.getCancelOrderEIP712Payload orderHashes salt Float64.zero 4162 /\
  List.length salt = 32%nat /\
  @Cancel.createCancelOrderPayload sample_primitives orderHashes w =
    (Ok {| Cancel.orderHashes := orderHashes;
           Cancel.signature := @sign sample_primitives (repeat x01 32) digest;
           Cancel.salt := salt;
           Cancel.maker := @computeAddress sample_primitives (repeat x01 32);
           Cancel.timestamp :=
             Float64.Finite false (seconds * Float64.unit) |},
     record_signed digest (draw 32 w)) /\
  consumed (record_signed digest (draw 32 w)) = (consumed w + 32)%nat.
Proof.
  intros w orderHashes.
  apply (@cancellation_digest sample_primitives orderHashes w (repeat x01 32)
           Float64.zero 4162).
  - reflexivity.
  - exact sample_key_valid.
  - split; vm_compute; discriminate.
Defined.

(** C9 fails at the empty list: it is signed and returned. *)
Lemma empty_cancellation_is_signed :
  exists (payload : Cancel.cancelPayload) (w' : world),
    @Cancel.createCancelOrderPayload sample_primitives [] sample_world
      = (Ok payload, w') /\
    Cancel.orderHashes payload = [] /\
    List.length (signed w') = S (List.length (signed sample_world)).
Proof.
  eexists. eexists. split.
  - apply (@createCancelOrderPayload_run sample_primitives [] sample_world
             (repeat x01 32)).
    + reflexivity.
    + exact sample_key_valid.
    + split; vm_compute; discriminate.
  - split; reflexivity.
Qed.

(** C9, amended, at one order hash and at a line whose first entry
    is a no-break space, U+00A0. *)
Lemma cancellation_is_guarded_at_the_prompt_witness :
  let w := sample_world in
  (exists (payload : Cancel.cancelPayload) (digest : bytes),
     @Cancel.createCancelOrderPayload sample_primitives ["0xaa"] w =
       (Ok payload, record_signed digest (draw 32 w)) /\
     Cancel.orderHashes payload = ["0xaa"] /\
     Cancel.signature payload = @sign sample_primitives (repeat x01 32) digest /\
     Cancel.salt payload = next_bytes 32 w /\
     Cancel.maker payload = @computeAddress sample_primitives (repeat x01 32) /\
     Cancel.timestamp payload =
       Float64.Finite false (clock_ms w / 1000 * Float64.unit)) /\
  @Cancel.cancelOrdersFromInput sample_primitives
    (String "194" (String "160" ",0xaa")) w =
    (Ok tt,
     record_reported "Cancellation process failed:"
       (Error "No order hashes provided") w).
Proof.
  intros w.
  apply (@cancellation_is_guarded_at_the_prompt sample_primitives
           ["0xaa"] (String "194" (String "160" ",0xaa")) w (repeat x01 32)).
  - reflexivity.
  - exact sample_key_valid.
  - split; vm_compute; discriminate.
  - reflexivity.
Defined.

End Closed.

(** ** [post.js]: the odds ladder *)

Section Ladder.
Import JS Ethers Units PostOrder MoreStatements.

Lemma step_value : parseUnits step_numeral 16 = Ok ladder_step.
Proof. vm_compute. reflexivity. Qed.

Lemma ladder_step_pos : 0 < ladder_step.
Proof. reflexivity. Qed.

Lemma ladder_step_divides : 10 ^ 20 = 40000 * ladder_step.
Proof. reflexivity. Qed.

(** The quotient [25 / 100] of [step_numeral] is the double [0.25]. *)
Example step_quotient :
  Float64.div (Float64.of_Z CONSTANTS.oddLadderStepSize) (Float64.of_Z 100)
  = Float64.Finite false (Float64.unit / 4).
Proof. vm_compute. reflexivity. Qed.

Lemma checkOddsLadderValid_value (odds : Z) :
  checkOddsLadderValid odds = Ok (Z.rem odds ladder_step =? 0).
Proof.
  unfold checkOddsLadderValid. rewrite step_value. reflexivity.
Qed.

Lemma rem_zero_iff_mod_zero (a b : Z) :
  0 < b -> (Z.rem a b =? 0) = (a mod b =? 0).
Proof.
  intros Hb.
  destruct (Z.eqb_spec (a mod b) 0) as [E|N].
  - apply Z.eqb_eq. apply Z.rem_divide; [lia|].
    apply Z.mod_divide; [lia|exact E].
  - apply Z.eqb_neq. intros E. apply N.
    apply Z.mod_divide; [lia|]. apply Z.rem_divide; [lia|exact E].
Qed.

(** The detour through BigNumber loses nothing: the quotient by the
    step has at most 16 decimals. *)
Lemma roundDownOddsToNearestStep_value (odds : Z) :
  roundDownOddsToNearestStep odds = Ok (odds / ladder_step * ladder_step).
Proof.
  unfold roundDownOddsToNearestStep. rewrite step_value. cbn [JS.bind].
  unfold BigNumber.of_BigInt, BigNumber.dividedBy.
  change (ladder_step =? 0) with false. cbv iota.
  change (Z.sgn ladder_step) with 1. change (Z.abs ladder_step) with ladder_step.
  change (Z.of_nat 0) with 0. change (10 ^ 0) with 1.
  change (Z.of_nat BigNumber.DECIMAL_PLACES) with 20.
  rewrite ladder_step_divides.
  assert (R : BigNumber.round_half_up (1 * odds * 1 * (40000 * ladder_step))
                (ladder_step * 1) = odds * 40000).
  { unfold BigNumber.round_half_up. pose proof ladder_step_pos as S.
    replace (Z.abs (1 * odds * 1 * (40000 * ladder_step)))
      with (Z.abs odds * 40000 * ladder_step)
      by (rewrite !Z.mul_1_l, Z.mul_1_r, Z.abs_mul, (Z.abs_eq (40000 * _)); lia).
    replace (Z.sgn (1 * odds * 1 * (40000 * ladder_step))) with (Z.sgn odds)
      by (rewrite !Z.mul_1_l, Z.mul_1_r, Z.sgn_mul;
          change (Z.sgn (40000 * ladder_step)) with 1; lia).
    replace ((2 * (Z.abs odds * 40000 * ladder_step) + ladder_step * 1)
             / (2 * (ladder_step * 1))) with (Z.abs odds * 40000).
    - pose proof (Z.abs_sgn odds). nia.
    - apply (Z.div_unique _ _ _ ladder_step); [lia|ring]. }
  rewrite R. unfold BigNumber.toFixed_0_ROUND_FLOOR.
  rewrite getBigInt_toString. cbn [JS.bind].
  change (10 ^ Z.of_nat BigNumber.DECIMAL_PLACES) with (ladder_step * 40000).
  rewrite Z.div_mul_cancel_r by (pose proof ladder_step_pos; lia).
  reflexivity.
Qed.

(** X1.  [roundDownOddsToNearestStep] returns for every integer
    [odds], negative ones included; the result is on the ladder (it
    passes [checkOddsLadderValid]), it is at most [odds] and less than
    one step of [25 * 10^14] below it, it is [odds] itself when [odds]
    is on the ladder, and rounding it again changes nothing.  The
    division by the step through BigNumber, which keeps 20 decimals,
    is exact. *)
Theorem odds_are_rounded_down_onto_the_ladder (odds : Z) :
  exists r : Z,
    roundDownOddsToNearestStep odds = Ok r /\
    checkOddsLadderValid r = Ok true /\
    r <= odds < r + 25 * 10 ^ 14 /\
    (checkOddsLadderValid odds = Ok true -> r = odds) /\
    roundDownOddsToNearestStep r = Ok r.
Proof.
  pose proof ladder_step_pos as S.
  pose proof (Z.div_mod odds ladder_step ltac:(lia)) as E.
  pose proof (Z.mod_pos_bound odds ladder_step S) as B.
  exists (odds / ladder_step * ladder_step).
  split; [apply roundDownOddsToNearestStep_value|].
  split.
  { rewrite checkOddsLadderValid_value, rem_zero_iff_mod_zero by exact S.
    rewrite Z.mod_mul by lia. reflexivity. }
  split; [fold ladder_step; lia|].
  split.
  { rewrite checkOddsLadderValid_value, rem_zero_iff_mod_zero by exact S.
    intros V. assert (odds mod ladder_step = 0)
      by (apply Z.eqb_eq; congruence). lia. }
  rewrite roundDownOddsToNearestStep_value, Z.div_mul by lia. reflexivity.
Qed.

(** X2.  Whenever the numeral of the odds parses at 18 decimals,
    [processOdds] returns; its result is on the ladder, at most the
    parsed odds and less than one step below them, and equal to them
    when they are on the ladder already. *)
Theorem processOdds_returns_ladder_odds (printed : string) (raw : Z) :
  parseUnits printed 18 = Ok raw ->
  exists r : Z,
    processOdds printed = Ok r /\
    checkOddsLadderValid r = Ok true /\
    r <= raw < r + 25 * 10 ^ 14 /\
    (checkOddsLadderValid raw = Ok true -> r = raw).
Proof.
  intros Raw.
  pose proof ladder_step_pos as S.
  pose proof (Z.div_mod raw ladder_step ltac:(lia)) as E.
  pose proof (Z.mod_pos_bound raw ladder_step S) as B.
  unfold processOdds. rewrite Raw. cbn [JS.bind].
  rewrite !checkOddsLadderValid_value.
  destruct (Z.rem raw ladder_step =? 0) eqn:V.
  - exists raw. cbn [JS.bind].
    split; [reflexivity|]. rewrite checkOddsLadderValid_value, V.
    split; [reflexivity|]. split; [lia|]. reflexivity.
  - rewrite roundDownOddsToNearestStep_value. cbn [JS.bind].
    eexists. split; [reflexivity|].
    rewrite checkOddsLadderValid_value, rem_zero_iff_mod_zero by exact S.
    rewrite Z.mod_mul by lia.
    split; [reflexivity|]. split; [fold ladder_step; lia|].
    intros X. discriminate X.
Qed.

End Ladder.

(** ** Decimal numerals: [parseUnits] *)

Section Numerals.
Import JS Units MoreStatements.

Lemma digits_value_from_app (acc : Z) (s1 s2 : string) :
  digits_value_from acc (s1 ++ s2) =
  digits_value_from (digits_value_from acc s1) s2.
Proof.
  revert acc. induction s1 as [|c s1 IH]; intros acc; cbn; [reflexivity|].
  apply IH.
Qed.

Lemma digits_value_from_shift (acc : Z) (s : string) :
  digits_value_from acc s =
  acc * 10 ^ Z.of_nat (String.length s) + digits_value s.
Proof.
  unfold digits_value. revert acc.
  induction s as [|c s IH]; intros acc.
  - cbn. lia.
  - cbn [digits_value_from String.length].
    rewrite IH, (IH (0 * 10 + _)), Nat2Z.inj_succ, Z.pow_succ_r by lia. ring.
Qed.

Lemma digits_value_app (s1 s2 : string) :
  digits_value (s1 ++ s2) =
  digits_value s1 * 10 ^ Z.of_nat (String.length s2) + digits_value s2.
Proof.
  unfold digits_value at 1. rewrite digits_value_from_app.
  rewrite digits_value_from_shift. reflexivity.
Qed.

Lemma digits_value_zeros (n : nat) : digits_value (zeros n) = 0.
Proof.
  unfold digits_value. induction n as [|n IH]; [reflexivity|exact IH].
Qed.

Lemma digits_value_nonneg (s : string) : 0 <= digits_value s.
Proof.
  unfold digits_value.
  assert (G : forall acc, 0 <= acc -> 0 <= digits_value_from acc s).
  { induction s as [|c s IH]; intros acc H; cbn; [exact H|]. apply IH. lia. }
  apply G. lia.
Qed.

Lemma length_zeros (n : nat) : String.length (zeros n) = n.
Proof. induction n as [|n IH]; cbn; [reflexivity|now rewrite IH]. Qed.

Lemma all_zeros_zeros (n : nat) : all_zeros (zeros n) = true.
Proof. induction n as [|n IH]; [reflexivity|exact IH]. Qed.

Lemma substring_all (s : string) : substring 0 (String.length s) s = s.
Proof. induction s as [|c s IH]; cbn; [reflexivity|now rewrite IH]. Qed.


Lemma substring_suffix (s t : string) :
  substring (String.length s) (String.length t) (s ++ t) = t.
Proof. induction s as [|c s IH]; cbn; [apply substring_all|exact IH]. Qed.

Lemma substring_empty (n : nat) (s : string) : substring n 0 s = "".
Proof.
  revert n. induction s as [|c s IH]; intros [|n]; cbn; try reflexivity.
  apply IH.
Qed.

Lemma not_a_digit_minus (c : ascii) (A : Type) (f : string -> A) (g : A)
  (s : string) :
  is_digit c = true ->
  match String c s with String "-" rest => f rest | _ => g end = g.
Proof.
  destruct c as [[] [] [] [] [] [] [] []]; intros H; try reflexivity;
    discriminate H.
Qed.

Lemma span_digits_all (w : string) :
  all_digits w = true -> span_digits w = (w, "").
Proof.
  induction w as [|c w IH]; cbn; [reflexivity|].
  intros H. apply andb_prop in H as [Hc Hw]. rewrite Hc, (IH Hw). reflexivity.
Qed.

Lemma span_digits_point (w rest : string) :
  all_digits w = true ->
  span_digits (w ++ String "." rest) = (w, String "." rest).
Proof.
  induction w as [|c w IH]; cbn; [reflexivity|].
  intros H. apply andb_prop in H as [Hc Hw]. rewrite Hc, (IH Hw). reflexivity.
Qed.

Lemma FixedNumber_match_numeral (neg : bool) (w f : string) :
  all_digits w = true -> all_digits f = true ->
  FixedNumber_match (numeral neg w f) = Some (neg, w, f).
Proof.
  intros Hw Hf. unfold FixedNumber_match, numeral.
  assert (S1 :
    (let (negative, s1) :=
       match ((if neg then "-" else "") ++ w ++
              match f with EmptyString => "" | _ => "." ++ f end)%string with
       | String "-" rest => (true, rest)
       | _ => (false, ((if neg then "-" else "") ++ w ++
              match f with EmptyString => "" | _ => "." ++ f end)%string)
       end in (negative, s1)) =
    (neg, (w ++ match f with EmptyString => "" | _ => "." ++ f end)%string)).
  { destruct neg; [reflexivity|]. cbn [append].
    destruct w as [|c w].
    - destruct f; reflexivity.
    - cbn [append]. cbn in Hw. apply andb_prop in Hw as [Hc _].
      rewrite (not_a_digit_minus c _ (fun rest => (true, rest))) by exact Hc.
      reflexivity. }
  destruct (match ((if neg then "-" else "") ++ w ++
              match f with EmptyString => "" | _ => "." ++ f end)%string with
       | String "-" rest => (true, rest)
       | _ => (false, _)
       end) as [negative s1].
  injection S1 as -> ->.
  destruct f as [|c f].
  - replace (w ++ "")%string with w by (clear; induction w; cbn; congruence).
    rewrite (span_digits_all w Hw). reflexivity.
  - cbn [append]. rewrite (span_digits_point w _ Hw).
    rewrite (span_digits_all _ Hf). reflexivity.
Qed.

(** A numeral with at most [d] fraction digits is read as the integer
    number of [10^-d]. *)
Lemma parseUnits_numeral (neg : bool) (w f : string) (d : nat) :
  all_digits w = true -> all_digits f = true ->
  (0 < String.length w + String.length f)%nat ->
  (String.length f <= d)%nat ->
  let magnitude :=
    digits_value w * 10 ^ Z.of_nat d +
    digits_value f * 10 ^ Z.of_nat (d - String.length f) in
  magnitude < 2 ^ 511 ->
  parseUnits (numeral neg w f) d =
  Ok (if neg then - magnitude else magnitude).
Proof.
  intros Hw Hf Hlen Hd magnitude Hm.
  unfold parseUnits. rewrite (FixedNumber_match_numeral neg w f Hw Hf).
  replace (String.length w + String.length f =? 0)%nat with false
    by (symmetry; apply Nat.eqb_neq; lia).
  cbv zeta.
  set (padded := (f ++ zeros (d - String.length f))%string).
  assert (L : String.length padded = d).
  { unfold padded. rewrite length_append, length_zeros. lia. }
  rewrite L, Nat.sub_diag, substring_empty. cbn [all_zeros negb].
  assert (Sb : substring 0 d padded = padded)
    by (rewrite <- L; apply substring_all).
  rewrite Sb.
  assert (V : digits_value (w ++ padded) = magnitude).
  { rewrite digits_value_app, L. unfold padded.
    rewrite digits_value_app, digits_value_zeros, length_zeros.
    unfold magnitude. ring. }
  rewrite V.
  assert (0 <= magnitude).
  { rewrite <- V. apply digits_value_nonneg. }
  destruct neg.
  - replace ((- 2 ^ 511 <=? - magnitude) && (- magnitude <? 2 ^ 511))
      with true; [reflexivity|].
    symmetry. apply andb_true_intro. split; [apply Z.leb_le|apply Z.ltb_lt]; lia.
  - replace ((- 2 ^ 511 <=? magnitude) && (magnitude <? 2 ^ 511))
      with true; [reflexivity|].
    symmetry. apply andb_true_intro. split; [apply Z.leb_le|apply Z.ltb_lt]; lia.
Qed.

(** A non-zero digit beyond the [d]-th is refused. *)
Lemma parseUnits_excess (neg : bool) (w f1 f2 : string) (d : nat) :
  all_digits w = true -> all_digits f1 = true -> all_digits f2 = true ->
  String.length f1 = d -> all_zeros f2 = false ->
  parseUnits (numeral neg w (f1 ++ f2)) d =
  Throw (InvalidArgument "too many decimals for format").
Proof.
  intros Hw H1 H2 Hd Hz.
  assert (Hf : all_digits (f1 ++ f2) = true).
  { clear Hd. induction f1 as [|c f1 IH]; cbn; [exact H2|].
    cbn in H1. apply andb_prop in H1 as [Hc H1]. rewrite Hc. apply IH, H1. }
  assert (N : (0 < String.length f2)%nat).
  { destruct f2; [discriminate Hz|cbn; lia]. }
  unfold parseUnits. rewrite (FixedNumber_match_numeral neg w _ Hw Hf).
  rewrite length_append.
  replace (String.length w + (String.length f1 + String.length f2) =? 0)%nat
    with false by (symmetry; apply Nat.eqb_neq; lia).
  cbv zeta.
  replace (d - (String.length f1 + String.length f2))%nat with 0%nat by lia.
  replace ((f1 ++ f2) ++ zeros 0)%string with (f1 ++ f2)%string
    by (cbn; generalize (f1 ++ f2)%string; clear; intros s;
        induction s; cbn; congruence).
  rewrite length_append.
  replace (String.length f1 + String.length f2 - d)%nat
    with (String.length f2) by lia.
  rewrite <- Hd, substring_suffix, Hz. reflexivity.
Qed.

End Numerals.

(** ** [post.js]: from the prompt to the signature *)

Section NewOrder.
Import JS Ethers Node Units PostOrder MoreStatements SigningStatements.
Context {P : Primitives}.

(** [Math.floor(Date.now() / 1000) + 3600] is exact. *)
Lemma apiExpiry_exact (ms : Z) :
  0 <= ms <= 8640000000000000 ->
  Float64More.integer_of
    (Float64.add (Cancel.seconds ms) (Float64.of_Z 3600)) = ms / 1000 + 3600.
Proof.
  intros Hms. pose proof unit_pos as U.
  assert (K : 0 <= ms / 1000 <= 8640000000000).
  { split; [apply Z.div_pos; lia|]. apply Z.div_le_upper_bound; lia. }
  rewrite (seconds_exact ms Hms), (of_Z_exact 3600) by lia.
  unfold Float64.add, Float64.signed.
  replace (ms / 1000 * Float64.unit + 3600 * Float64.unit)
    with ((ms / 1000 + 3600) * Float64.unit) by ring.
  set (n := ms / 1000 + 3600) in *.
  replace (n * Float64.unit =? 0) with false by (symmetry; apply Z.eqb_neq; nia).
  replace (n * Float64.unit <? 0) with false by (symmetry; apply Z.ltb_ge; nia).
  rewrite Z.abs_eq by nia.
  assert (E : Float64.round_mag (n * Float64.unit) 1 = n * Float64.unit).
  { unfold Float64.unit. apply round_mag_representable; lia. }
  rewrite round_finite; rewrite E.
  - unfold Float64More.integer_of, Float64.signed.
    apply Z.div_mul. lia.
  - rewrite overflow_threshold_eq. apply Z.mul_lt_mono_pos_r; [exact U|].
    apply Z.lt_trans with (2 ^ 53); [lia|reflexivity].
Qed.

Lemma createOrder_run (stakeSize : string) (odds t : Z) (w : world) :
  parseUnits stakeSize 6 = Ok t ->
  0 <= clock_ms w <= 8640000000000000 ->
  createOrder stakeSize odds w =
    (Ok (created_order t odds (clock_ms w / 1000) (next_bytes 32 w)),
     draw 32 w).
Proof.
  intros Parse Clock.
  unfold createOrder, Node.bind, Date_now, randomBytes, lift, ret.
  rewrite Parse. cbv zeta.
  rewrite (apiExpiry_exact (clock_ms w) Clock). reflexivity.
Qed.

Lemma created_order_well_formed (t odds seconds : Z) (salt : bytes) :
  0 <= t < 2 ^ 256 -> 0 <= odds < 2 ^ 256 -> List.length salt = 32%nat ->
  well_formed (created_order t odds seconds salt).
Proof.
  intros Ht Ho Hs. unfold well_formed, created_order.
  cbn [marketHash baseToken maker executor totalBetSize percentageOdds
       expiry Node.salt].
  split; [apply be_bytes_length|]. split; [apply be_bytes_length|].
  split; [apply be_bytes_length|]. split; [apply be_bytes_length|].
  split; [exact Ht|]. split; [exact Ho|].
  split; [split; [discriminate|reflexivity]|].
  pose proof (toBigInt_range salt) as R. rewrite Hs in R. exact R.
Qed.

Lemma signOrder_run (o : order) (w : world) (key : bytes) :
  well_formed o -> PRIVATE_KEY w = Some key -> valid_key key ->
  Post.signOrder o w =
    (Ok {| unsigned := o;
           signature := sign key (hashMessage (keccak256 (packed o))) |},
     record_signed (hashMessage (keccak256 (packed o))) w).
Proof.
  intros WF Key Len.
  unfold Post.signOrder, try_catch, Node.bind, env_PRIVATE_KEY.
  rewrite Key. rewrite (new_Wallet_valid key _ Len). cbv beta iota.
  unfold lift. rewrite (createOrderHash_packed o WF).
  reflexivity.
Qed.

(** An order whose stake does not fit a [uint256] has no hash. *)
Lemma createOrderHash_out_of_range (t odds seconds : Z) (salt : bytes) :
  t < 0 \/ 2 ^ 256 <= t ->
  Post.createOrderHash (created_order t odds seconds salt) =
  Throw (uint256_fault t).
Proof.
  intros Ht. unfold Post.createOrderHash, solidityPackedKeccak256.
  unfold created_order.
  cbn [marketHash baseToken maker executor totalBetSize percentageOdds
       expiry Node.salt isMakerBettingOutcomeOne solidityPacked].
  rewrite pack_bytes32, pack_address by apply be_bytes_length.
  cbn [JS.bind].
  unfold pack at 1, uint256_fault. cbn [getBigInt JS.bind].
  destruct (Z.ltb_spec t 0); [reflexivity|].
  destruct (Z.ltb_spec t (2 ^ 256)); [lia|reflexivity].
Qed.

(** X3.  For a stake typed as a numeral with at most six fraction
    digits, [createOrder] returns an order whose [totalBetSize] is the
    stake in millionths, with the odds it was given, [apiExpiry] 3600
    seconds after the whole seconds of the clock, [expiry] 2209006800
    and, as salt, the 32 bytes it draws read as a big-endian integer.
    It draws these 32 bytes and nothing else, and the order is
    well-formed when stake and odds fit a [uint256]. *)
Theorem createOrder_reads_the_stake_in_millionths
  (whole fraction : string) (odds : Z) (w : world) :
  all_digits whole = true -> all_digits fraction = true ->
  (0 < String.length whole + String.length fraction)%nat ->
  (String.length fraction <= 6)%nat ->
  0 <= clock_ms w <= 8640000000000000 ->
  let stake :=
    digits_value whole * 10 ^ 6 +
    digits_value fraction * 10 ^ Z.of_nat (6 - String.length fraction) in
  stake < 2 ^ 256 -> 0 <= odds < 2 ^ 256 ->
  exists o : order,
    createOrder (numeral false whole fraction) odds w = (Ok o, draw 32 w) /\
    totalBetSize o = stake /\
    percentageOdds o = odds /\
    apiExpiry o = clock_ms w / 1000 + 3600 /\
    expiry o = 2209006800 /\
    Node.salt o = toBigInt (next_bytes 32 w) /\
    well_formed o.
Proof.
  intros Hw Hf Hlen Hd Clock stake Hs Ho.
  assert (Parse : parseUnits (numeral false whole fraction) 6 = Ok stake).
  { apply (parseUnits_numeral false whole fraction 6 Hw Hf Hlen Hd).
    eapply Z.lt_trans; [exact Hs|reflexivity]. }
  assert (N : 0 <= stake).
  { unfold stake. pose proof (digits_value_nonneg whole).
    pose proof (digits_value_nonneg fraction).
    assert (0 < 10 ^ Z.of_nat (6 - String.length fraction))
      by (apply Z.pow_pos_nonneg; lia).
    nia. }
  eexists. split; [apply (createOrder_run _ odds stake w Parse Clock)|].
  split; [reflexivity|]. split; [reflexivity|]. split; [reflexivity|].
  split; [reflexivity|]. split; [reflexivity|].
  apply created_order_well_formed; [lia|exact Ho|apply next_bytes_length].
Qed.

(** X4.  A stake with a non-zero digit after the sixth decimal is not
    truncated: [createOrder] throws, after it has drawn the salt. *)
Theorem createOrder_refuses_a_seventh_decimal
  (neg : bool) (whole six more : string) (odds : Z) (w : world) :
  all_digits whole = true -> all_digits six = true -> all_digits more = true ->
  String.length six = 6%nat -> all_zeros more = false ->
  createOrder (numeral neg whole (six ++ more)) odds w =
    (Throw (InvalidArgument "too many decimals for format"), draw 32 w).
Proof.
  intros Hw H6 Hm Hl Hz.
  unfold createOrder, Node.bind, Date_now, randomBytes, lift.
  rewrite (parseUnits_excess neg whole six more 6 Hw H6 Hm Hl Hz).
  reflexivity.
Qed.

(** X5.  [createOrder] followed by [signOrder]: when the stake parses
    to an amount that fits a [uint256], as the odds do, and a private
    key is set that [ethers.Wallet] takes, the order is returned
    signed; the digest signed is the personal-message digest of the
    Keccak-256 of the 221-byte preimage of that very order, one digest
    is signed and 32 random bytes are used. *)
Theorem created_order_is_signed (stakeSize : string) (odds t : Z)
  (w : world) (key : bytes) :
  parseUnits stakeSize 6 = Ok t -> 0 <= t < 2 ^ 256 -> 0 <= odds < 2 ^ 256 ->
  0 <= clock_ms w <= 8640000000000000 ->
  PRIVATE_KEY w = Some key -> valid_key key ->
  let o := created_order t odds (clock_ms w / 1000) (next_bytes 32 w) in
  let digest := hashMessage (keccak256 (packed o)) in
  (order <~ createOrder stakeSize odds ;; Post.signOrder order)%io w =
    (Ok {| unsigned := o; signature := sign key digest |},
     record_signed digest (draw 32 w)) /\
  List.length (packed o) = 221%nat.
Proof.
  intros Parse Ht Ho Clock Key Len o digest.
  assert (WF : well_formed o)
    by (apply created_order_well_formed;
        [exact Ht|exact Ho|apply next_bytes_length]).
  split; [|apply packed_length; exact WF].
  unfold Node.bind. rewrite (createOrder_run _ odds t w Parse Clock).
  fold o. apply (signOrder_run o (draw 32 w) key WF); assumption.
Qed.

(** X6.  [createOrder] does not check the range of the stake: a stake
    that parses to a negative amount, or to one of [2^256] or more,
    gives an order all the same.  The failure appears in [signOrder]:
    with a valid private key set, it signs nothing, reports the error
    of the encoder and throws it again.  That error is ethers'
    'unsigned value cannot be negative' for a negative stake and its
    'padding exceeds data length' for a stake of [2^256] or more. *)
Theorem stake_out_of_range_fails_at_signing (stakeSize : string)
  (odds t : Z) (w : world) (key : bytes) :
  parseUnits stakeSize 6 = Ok t -> t < 0 \/ 2 ^ 256 <= t ->
  0 <= clock_ms w <= 8640000000000000 ->
  PRIVATE_KEY w = Some key -> valid_key key ->
  let o := created_order t odds (clock_ms w / 1000) (next_bytes 32 w) in
  let e :=
    if t <? 0
    then InvalidArgument "unsigned value cannot be negative"
    else InvalidArgument "padding exceeds data length" in
  createOrder stakeSize odds w = (Ok o, draw 32 w) /\
  Post.signOrder o (draw 32 w) =
    (Throw e, record_reported "Error signing order:" e (draw 32 w)) /\
  signed (record_reported "Error signing order:" e (draw 32 w)) = signed w.
Proof.
  intros Parse Ht Clock Key Len o e.
  split; [apply createOrder_run; assumption|].
  split; [|reflexivity].
  unfold Post.signOrder, try_catch, Node.bind, env_PRIVATE_KEY.
  cbn [PRIVATE_KEY draw]. rewrite Key.
  rewrite (new_Wallet_valid key _ Len). cbv beta iota.
  unfold lift, o.
  rewrite (createOrderHash_out_of_range t odds _ _ Ht).
  reflexivity.
Qed.

(** X7.  In every case [signOrder] either returns the order with a
    signature made with the key of the environment over the
    personal-message digest of the order hash, having signed exactly
    that digest, or throws: then it has signed nothing and has reported
    the error it throws; without a private key that error is
    [Error('PRIVATE_KEY not found in .env file')]. *)
Theorem signOrder_signs_or_reports (o : order) (w : world) :
  match Post.signOrder o w with
  | (Ok so, w') =>
      exists (key h : bytes),
        PRIVATE_KEY w = Some key /\ Post.createOrderHash o = Ok h /\
        so = {| unsigned := o; signature := sign key (hashMessage h) |} /\
        w' = record_signed (hashMessage h) w
  | (Throw e, w') =>
      w' = record_reported "Error signing order:" e w /\
      signed w' = signed w /\
      (PRIVATE_KEY w = None -> e = Error "PRIVATE_KEY not found in .env file")
  end.
Proof.
  unfold Post.signOrder, try_catch, Node.bind, env_PRIVATE_KEY.
  destruct (PRIVATE_KEY w) as [key|] eqn:Key.
  - unfold new_Wallet.
    destruct (List.length key =? 32)%nat;
      [destruct ((0 <? toBigInt key) && (toBigInt key <? secp256k1_n))|].
    + cbn [ret]. unfold lift.
      destruct (Post.createOrderHash o) as [h|e] eqn:H.
      * cbn. exists key, h.
        split; [reflexivity|]. split; [reflexivity|]. split; reflexivity.
      * cbn. split; [reflexivity|]. split; [reflexivity|]. discriminate.
    + cbn. split; [reflexivity|]. split; [reflexivity|]. discriminate.
    + cbn. split; [reflexivity|]. split; [reflexivity|]. discriminate.
  - cbn. split; [reflexivity|]. split; reflexivity.
Qed.

End NewOrder.

(** ** [cancel.js]: the line typed at the prompt *)

Section CancelInput.
Import JS Ethers Cancel MoreStatements.
Local Open Scope string_scope.

Lemma split_comma_length (s : string) :
  List.length (split_comma s) = S (count_commas s).
Proof.
  induction s as [|c s IH]; [reflexivity|].
  cbn [split_comma count_commas].
  destruct (Ascii.eqb c ","); cbn [List.length].
  - rewrite IH. reflexivity.
  - destruct (split_comma s); cbn [List.length] in *; [discriminate IH|].
    exact IH.
Qed.

Lemma split_comma_join (s : string) : join "," (split_comma s) = s.
Proof.
  induction s as [|c s IH]; [reflexivity|].
  cbn [split_comma].
  destruct (Ascii.eqb_spec c ",") as [->|N].
  - pose proof (split_comma_length s) as L.
    destruct (split_comma s) as [|x l]; [discriminate L|].
    cbn [join append] in *. rewrite IH. reflexivity.
  - pose proof (split_comma_length s) as L.
    destruct (split_comma s) as [|x l]; [discriminate L|].
    destruct l as [|y l]; cbn [join append] in *; rewrite IH; reflexivity.
Qed.

Lemma split_comma_no_comma (s : string) :
  Forall (fun h => count_commas h = 0%nat) (split_comma s).
Proof.
  induction s as [|c s IH]; [repeat constructor|].
  cbn [split_comma].
  destruct (Ascii.eqb c ",") eqn:E.
  - constructor; [reflexivity|exact IH].
  - destruct (split_comma s) as [|x l]; [repeat constructor; cbn; now rewrite E|].
    inversion IH as [|? ? Hx Hl]; subst.
    constructor; [cbn; rewrite E; exact Hx|exact Hl].
Qed.

Lemma count_commas_app (p t : string) :
  count_commas (p ++ t) = (count_commas p + count_commas t)%nat.
Proof.
  induction p as [|c p IH]; [reflexivity|].
  cbn [append count_commas]. rewrite IH. lia.
Qed.

(** What [trimStart] returns is an end of its argument. *)
Lemma trimStart_after_end (s : string) :
  forall n, exists p, s = p ++ trimStart_after n s.
Proof.
  induction s as [|c s IH]; intros n; [exists ""; reflexivity|].
  cbn [trimStart_after].
  destruct n as [|n].
  - destruct (white_space_at (String c s)) as [|k].
    + exists "". reflexivity.
    + destruct (IH k) as [p E]. exists (String c p). cbn [append].
      rewrite <- E. reflexivity.
  - destruct (IH n) as [p E]. exists (String c p). cbn [append].
    rewrite <- E. reflexivity.
Qed.

Lemma trimStart_after_starts (s : string) :
  forall n, white_space_at (trimStart_after n s) = 0%nat.
Proof.
  induction s as [|c s IH]; intros n; [reflexivity|].
  cbn [trimStart_after].
  destruct n as [|n]; [|apply IH].
  destruct (white_space_at (String c s)) as [|k] eqn:E; [exact E|apply IH].
Qed.

Lemma white_space_at_length (s : string) :
  (white_space_at s <= String.length s)%nat.
Proof.
  destruct s as [|a [|b [|c s]]]; cbn [white_space_at String.length];
    repeat match goal with |- context [if ?c then _ else _] => destruct c end;
    lia.
Qed.

(** A white-space character at the head of a string stays one when
    the string is continued. *)
Lemma white_space_at_app (p t : string) (k : nat) :
  white_space_at p = S k -> white_space_at (p ++ t) = S k.
Proof.
  destruct p as [|a [|b [|c p]]]; cbn [white_space_at append];
    repeat match goal with |- context [if ?c then _ else _] => destruct c end;
    try discriminate; trivial.
Qed.

Lemma trimStart_after_app (p t : string) :
  trimStart_after (String.length p) (p ++ t) = trimStart_after 0 t.
Proof.
  induction p as [|c p IH]; [reflexivity|].
  cbn [String.length append trimStart_after]. exact IH.
Qed.

(** What [trimEnd] removes is white space only. *)
Lemma trimEnd_split (s : string) :
  exists t, s = trimEnd s ++ t /\ trimStart t = "".
Proof.
  induction s as [|c s IH]; [exists ""; split; reflexivity|].
  cbn [trimEnd].
  destruct (String.eqb_spec (trimStart (String c s)) "") as [E|N].
  - exists (String c s). split; [reflexivity|exact E].
  - destruct IH as (t & E & T). exists t. split; [|exact T].
    cbn [append]. rewrite <- E. reflexivity.
Qed.

Lemma trimStart_no_comma (s : string) :
  count_commas s = 0%nat -> count_commas (trimStart s) = 0%nat.
Proof.
  intros H. destruct (trimStart_after_end s 0) as [p E].
  rewrite E, count_commas_app in H. unfold trimStart. lia.
Qed.

Lemma trimEnd_no_comma (s : string) :
  count_commas s = 0%nat -> count_commas (trimEnd s) = 0%nat.
Proof.
  intros H. destruct (trimEnd_split s) as (t & E & _).
  rewrite E, count_commas_app in H. lia.
Qed.

Lemma trimStart_starts (s : string) : starts_with_space (trimStart s) = false.
Proof.
  unfold starts_with_space, trimStart. rewrite trimStart_after_starts.
  reflexivity.
Qed.

Lemma trimEnd_starts (s : string) :
  starts_with_space s = false -> starts_with_space (trimEnd s) = false.
Proof.
  unfold starts_with_space. intros H.
  destruct (white_space_at (trimEnd s)) as [|k] eqn:E; [reflexivity|].
  destruct (trimEnd_split s) as (t & S & _).
  rewrite S, (white_space_at_app _ t k E) in H. discriminate H.
Qed.

Lemma trimEnd_ends (s : string) : ends_with_space (trimEnd s) = false.
Proof.
  induction s as [|c s IH]; [reflexivity|].
  cbn [trimEnd].
  destruct (String.eqb_spec (trimStart (String c s)) "") as [E|N];
    [reflexivity|].
  cbn [ends_with_space]. rewrite IH, orb_false_r.
  apply Nat.eqb_neq. intros W. apply N.
  destruct (trimEnd_split s) as (t & S & T).
  rewrite S. unfold trimStart.
  change (String c (trimEnd s ++ t)) with (String c (trimEnd s) ++ t).
  cbn [String.length] in W.
  cbn [append trimStart_after].
  change (String c (trimEnd s ++ t)) with (String c (trimEnd s) ++ t).
  rewrite (white_space_at_app _ t _ W).
  rewrite trimStart_after_app. exact T.
Qed.

Lemma trimStart_fixed (s : string) :
  starts_with_space s = false -> trimStart s = s.
Proof.
  unfold starts_with_space, trimStart. intros H.
  destruct s as [|c s]; [reflexivity|]. cbn [trimStart_after].
  destruct (white_space_at (String c s)); [reflexivity|discriminate H].
Qed.

(** A string of white space only, if not empty, ends with a
    white-space character. *)
Lemma all_space_ends (s : string) :
  forall n, trimStart_after n s = "" -> (n < String.length s)%nat ->
  ends_with_space s = true.
Proof.
  induction s as [|c s IH]; intros n E L; [cbn in L; lia|].
  cbn [trimStart_after] in E. cbn [ends_with_space String.length] in *.
  destruct n as [|n].
  - pose proof (white_space_at_length (String c s)) as B.
    cbn [String.length] in B.
    destruct (white_space_at (String c s)) as [|k]; [discriminate E|].
    destruct (Nat.eqb_spec (S k) (S (String.length s))) as [|D];
      [reflexivity|].
    rewrite (IH k E) by lia. apply orb_true_r.
  - rewrite (IH n E) by lia. apply orb_true_r.
Qed.

Lemma trimEnd_fixed (s : string) :
  ends_with_space s = false -> trimEnd s = s.
Proof.
  induction s as [|c s IH]; [reflexivity|].
  intros H. cbn [trimEnd].
  destruct (String.eqb_spec (trimStart (String c s)) "") as [E|N].
  - rewrite (all_space_ends (String c s) 0 E) in H; [discriminate H|].
    cbn [String.length]. lia.
  - cbn [ends_with_space] in H. apply orb_false_iff in H.
    rewrite (IH (proj2 H)). reflexivity.
Qed.

(** X8.  The line typed at the cancellation prompt is cut at its
    commas and nothing else: there is one entry more than there are
    commas (so the list is never empty), joining the untrimmed entries
    with commas gives the line back, and every entry handed on holds no
    comma, starts and ends with no white-space character of ECMAScript
    (the no-break space U+00A0, the line separator U+2028 and the byte
    order mark U+FEFF among them) and is left as it is by a second
    [trim].  So the line [" 0xaa<U+00A0>,<U+FEFF>0xbb<U+2028>"] gives
    the entries ["0xaa"] and ["0xbb"]. *)
Theorem cancel_input_is_split_and_trimmed (input : string) :
  let orderHashes := map trim (split_comma input) in
  List.length orderHashes = S (count_commas input) /\
  join "," (split_comma input) = input /\
  Forall (fun h => count_commas h = 0%nat /\
                   starts_with_space h = false /\
                   ends_with_space h = false /\
                   trim h = h) orderHashes /\
  map trim
    (split_comma
       (" 0xaa" ++ String "194" (String "160" ",")
        ++ String "239" (String "187" (String "191" "0xbb"))
        ++ String "226" (String "128" (String "168" "")))) =
  ["0xaa"; "0xbb"]%list.
Proof.
  cbv zeta. split; [rewrite length_map; apply split_comma_length|].
  split; [apply split_comma_join|].
  split; [|reflexivity].
  apply Forall_map.
  eapply Forall_impl; [|apply split_comma_no_comma].
  intros h Hh. cbv beta.
  assert (S1 : starts_with_space (trim h) = false)
    by (apply trimEnd_starts, trimStart_starts).
  assert (S2 : ends_with_space (trim h) = false) by apply trimEnd_ends.
  split; [apply trimEnd_no_comma, trimStart_no_comma, Hh|].
  split; [exact S1|]. split; [exact S2|].
  unfold trim at 1. rewrite (trimStart_fixed _ S1). apply trimEnd_fixed, S2.
Qed.

End CancelInput.

(** ** [cancel.js]: from the prompt to the request *)

Section CancelFlow.
Import JS Ethers Node Cancel MoreStatements SigningStatements.
Context {P : Primitives}.

Lemma cancelOrders_run (orderHashes : list string) (w : world) (key : bytes) :
  PRIVATE_KEY w = Some key -> valid_key key ->
  0 <= clock_ms w <= 8640000000000000 ->
  let digest :=
    cancel_digest orderHashes (next_bytes 32 w) (clock_ms w / 1000) in
  let request :=
    cancel_request orderHashes key (next_bytes 32 w) (clock_ms w / 1000) in
  let sent :=
    record_posted CONSTANTS.apiUrl request (record_signed digest (draw 32 w)) in
  let no_data := TypeError_reading "cancelledCount" in
  cancelOrders orderHashes w =
    if accepts w CONSTANTS.apiUrl request then
      if with_data w CONSTANTS.apiUrl request
      then (Ok {| success := true; has_data := true |}, sent)
      else (Throw no_data,
            record_reported "Failed to cancel orders:" no_data sent)
    else (Throw ApiError,
          record_reported "Failed to cancel orders:" ApiError
            (record_reported "Error submitting cancellation:" ApiError sent)).
Proof.
  intros Key Len Clock digest request sent no_data.
  unfold cancelOrders, try_catch, Node.bind at 1.
  rewrite (createCancelOrderPayload_run orderHashes w key Key Len Clock).
  fold digest.
  unfold submitCancellation, try_catch, Node.bind, fetch_post, request_of.
  cbn [Cancel.orderHashes Cancel.signature Cancel.salt Cancel.maker
       Cancel.timestamp accepts with_data record_signed draw success].
  fold digest. change (CancelOrders _) with request.
  destruct (accepts w CONSTANTS.apiUrl request); [|reflexivity].
  cbn [ret has_data].
  destruct (with_data w CONSTANTS.apiUrl request); reflexivity.
Qed.

(** X9.  When the first entry of the line is not blank, with a valid
    private key set, [cancelOrdersFromInput] signs the cancellation of
    all the trimmed entries (blank later entries included) and posts
    it, with the signature, the salt drawn, the address of the key and
    the whole seconds of the clock; it returns normally.  When the API
    answers with success and its answer has a [data] object, nothing
    is reported.  When the answer of success has no [data], reading
    [result.data.cancelledCount] raises a TypeError, which
    [cancelOrders] and [cancelOrdersFromInput] report, in this order.
    When the API refuses, the error is reported three times, by
    [submitCancellation], [cancelOrders] and [cancelOrdersFromInput]
    in this order. *)
Theorem cancellation_is_signed_sent_and_reported (input : string)
  (w : world) (key : bytes) :
  PRIVATE_KEY w = Some key -> valid_key key ->
  0 <= clock_ms w <= 8640000000000000 ->
  hd "" (map trim (split_comma input)) <> "" ->
  let orderHashes := map trim (split_comma input) in
  let digest :=
    cancel_digest orderHashes (next_bytes 32 w) (clock_ms w / 1000) in
  let request :=
    cancel_request orderHashes key (next_bytes 32 w) (clock_ms w / 1000) in
  let sent :=
    record_posted CONSTANTS.apiUrl request (record_signed digest (draw 32 w)) in
  let no_data := TypeError_reading "cancelledCount" in
  cancelOrdersFromInput input w =
    (Ok tt,
     if accepts w CONSTANTS.apiUrl request then
       if with_data w CONSTANTS.apiUrl request then sent
       else record_reported "Cancellation process failed:" no_data
              (record_reported "Failed to cancel orders:" no_data sent)
     else record_reported "Cancellation process failed:" ApiError
            (record_reported "Failed to cancel orders:" ApiError
               (record_reported "Error submitting cancellation:" ApiError
                  sent))).
Proof.
  intros Key Len Clock First orderHashes digest request sent no_data.
  unfold cancelOrdersFromInput, try_catch, Node.bind at 1.
  fold orderHashes.
  replace ((List.length orderHashes =? 0)%nat
           || String.eqb (hd "" orderHashes) "") with false.
  2:{ symmetry. apply orb_false_iff. split.
      - unfold orderHashes. rewrite length_map, split_comma_length. reflexivity.
      - apply String.eqb_neq. exact First. }
  unfold Node.bind at 1. cbn [ret].
  unfold Node.bind.
  rewrite (cancelOrders_run orderHashes w key Key Len Clock).
  fold digest request sent.
  destruct (accepts w CONSTANTS.apiUrl request); [|reflexivity].
  destruct (with_data w CONSTANTS.apiUrl request); reflexivity.
Qed.

(** X10.  Without a private key, a line whose first entry is not
    blank makes [cancelOrdersFromInput] return normally after three
    reports of [Error('PRIVATE_KEY not found in .env file')], by
    [createCancelOrderPayload], [cancelOrders] and itself; no random
    byte is drawn, nothing is signed and nothing is sent. *)
Theorem cancellation_without_a_key (input : string) (w : world) :
  PRIVATE_KEY w = None ->
  hd "" (map trim (split_comma input)) <> "" ->
  let e := Error "PRIVATE_KEY not found in .env file" in
  cancelOrdersFromInput input w =
    (Ok tt,
     record_reported "Cancellation process failed:" e
       (record_reported "Failed to cancel orders:" e
          (record_reported "Error creating cancel order payload:" e w))).
Proof.
  intros Key First e.
  unfold cancelOrdersFromInput, try_catch, Node.bind at 1.
  replace ((List.length (map trim (split_comma input)) =? 0)%nat
           || String.eqb (hd "" (map trim (split_comma input))) "") with false.
  2:{ symmetry. apply orb_false_iff. split.
      - rewrite length_map, split_comma_length. reflexivity.
      - apply String.eqb_neq. exact First. }
  unfold Node.bind at 1. cbn [ret].
  unfold Node.bind, cancelOrders, try_catch, Node.bind,
    createCancelOrderPayload, try_catch, Node.bind, env_PRIVATE_KEY.
  rewrite Key. reflexivity.
Qed.

Lemma createCancelOrderPayload_cases (orderHashes : list string) (w : world) :
  match createCancelOrderPayload orderHashes w with
  | (Ok p, w') =>
      exists key digest : bytes,
        PRIVATE_KEY w = Some key /\
        p = {| orderHashes := orderHashes;
               signature := sign key digest;
               salt := next_bytes 32 w;
               maker := computeAddress key;
               timestamp := seconds (clock_ms w) |} /\
        w' = record_signed digest (draw 32 w)
  | (Throw e, w') => signed w' = signed w /\ posted w' = posted w
  end.
Proof.
  unfold createCancelOrderPayload, try_catch, Node.bind, env_PRIVATE_KEY.
  destruct (PRIVATE_KEY w) as [key|] eqn:Key; [|split; reflexivity].
  unfold new_Wallet.
  destruct (List.length key =? 32)%nat; [|split; reflexivity].
  destruct ((0 <? toBigInt key) && (toBigInt key <? secp256k1_n));
    [|split; reflexivity].
  cbn [ret randomBytes Date_now].
  unfold signTypedData, Node.bind, lift.
  destruct (TypedDataEncoder_hash _ _ _) as [digest|e]; [|split; reflexivity].
  cbn [sign_digest privateKey ret].
  exists key, digest. split; [reflexivity|]. split; reflexivity.
Qed.

Lemma cancelOrders_cases (orderHashes : list string) (w : world) :
  match cancelOrders orderHashes w with
  | (r, w') =>
      (signed w' = signed w /\ posted w' = posted w) \/
      (exists (key digest : bytes) (request : cancelRequest),
         PRIVATE_KEY w = Some key /\
         signed w' = digest :: signed w /\
         posted w' = (CONSTANTS.apiUrl, CancelOrders request) :: posted w /\
         cancel_signature request = sign key digest /\
         Node.orderHashes request = orderHashes /\
         cancel_salt request = next_bytes 32 w /\
         consumed w' = (consumed w + 32)%nat)
  end.
Proof.
  pose proof (createCancelOrderPayload_cases orderHashes w) as C.
  unfold cancelOrders, try_catch, Node.bind at 1.
  destruct (createCancelOrderPayload orderHashes w) as [[p|e] w1].
  - destruct C as (key & digest & Key & -> & ->).
    set (ts := seconds (clock_ms w)). clearbody ts.
    unfold Node.bind, submitCancellation, try_catch, Node.bind, fetch_post,
      request_of.
    cbn [Cancel.orderHashes Cancel.signature Cancel.salt Cancel.maker
         Cancel.timestamp].
    cbn [success].
    match goal with
    | |- context [accepts ?a ?b ?c] => destruct (accepts a b c)
    end.
    + cbn [ret has_data].
      match goal with
      | |- context [with_data ?a ?b ?c] => destruct (with_data a b c)
      end;
      cbn; right; exists key, digest; eexists; (split; [exact Key|]);
      (split; [reflexivity|]); (split; [reflexivity|]); cbn;
      (split; [reflexivity|]); (split; [reflexivity|]); split; reflexivity.
    + cbn. right. exists key, digest. eexists. split; [exact Key|].
      split; [reflexivity|]. split; [reflexivity|]. cbn.
      split; [reflexivity|]. split; [reflexivity|]. split; reflexivity.
  - left. destruct C as [C1 C2]. cbn. split; assumption.
Qed.

(** X11.  For every line and every state of the process,
    [cancelOrdersFromInput] returns normally, and either it has signed
    and sent nothing, or it has signed one digest and sent one request
    to the cancellation endpoint: that request carries the signature
    of this digest under the key of the environment, the trimmed
    entries of the line and the 32 bytes drawn as salt. *)
Theorem cancellation_never_sends_what_it_did_not_sign (input : string)
  (w : world) :
  exists w' : world,
    cancelOrdersFromInput input w = (Ok tt, w') /\
    ((signed w' = signed w /\ posted w' = posted w) \/
     (exists (key digest : bytes) (request : cancelRequest),
        PRIVATE_KEY w = Some key /\
        signed w' = digest :: signed w /\
        posted w' = (CONSTANTS.apiUrl, CancelOrders request) :: posted w /\
        cancel_signature request = sign key digest /\
        Node.orderHashes request = map trim (split_comma input) /\
        cancel_salt request = next_bytes 32 w /\
        consumed w' = (consumed w + 32)%nat)).
Proof.
  unfold cancelOrdersFromInput, try_catch, Node.bind at 1.
  destruct ((List.length (map trim (split_comma input)) =? 0)%nat
            || String.eqb (hd "" (map trim (split_comma input))) "").
  { eexists. split; [reflexivity|]. left. split; reflexivity. }
  unfold Node.bind at 1. cbn [ret].
  pose proof (cancelOrders_cases (map trim (split_comma input)) w) as C.
  destruct (cancelOrders (map trim (split_comma input)) w) as [[r|e] w1].
  - eexists. split; [reflexivity|]. exact C.
  - eexists. split; [reflexivity|]. cbn [console_error snd].
    destruct C as [[C1 C2]|C]; [left; split; assumption|right; exact C].
Qed.

(** The two cancellation routines, step by step, for any outcome of
    the typed-data hash. *)
Lemma tutorial_cancelOrders_steps (orderHashes : list string) (w : world)
  (key : bytes) :
  PRIVATE_KEY w = Some key -> valid_key key ->
  let payload :=
    getCancelOrderEIP712Payload orderHashes (next_bytes 32 w)
      (seconds (clock_ms w)) CONSTANTS.chainId in
  let no_data := TypeError_reading "cancelledCount" in
  cancelOrders orderHashes w =
    match TypedDataEncoder_hash (domain payload)
            [("Details", get_type "Details" (types payload))]
            (message payload) with
    | Throw e =>
        (Throw e,
         record_reported "Failed to cancel orders:" e
           (record_reported "Error creating cancel order payload:" e
              (draw 32 w)))
    | Ok digest =>
        let request :=
          CancelOrders
            {| Node.orderHashes := orderHashes;
               cancel_signature := sign key digest;
               cancel_salt := next_bytes 32 w;
               cancel_maker := computeAddress key;
               Node.timestamp := seconds (clock_ms w) |} in
        let sent :=
          record_posted CONSTANTS.apiUrl request
            (record_signed digest (draw 32 w)) in
        if accepts w CONSTANTS.apiUrl request then
          if with_data w CONSTANTS.apiUrl request
          then (Ok {| success := true; has_data := true |}, sent)
          else (Throw no_data,
                record_reported "Failed to cancel orders:" no_data sent)
        else (Throw ApiError,
              record_reported "Failed to cancel orders:" ApiError
                (record_reported "Error submitting cancellation:" ApiError
                   sent))
    end.
Proof.
  intros Key Len payload no_data.
  unfold cancelOrders, try_catch, Node.bind at 1.
  unfold createCancelOrderPayload, try_catch, Node.bind at 1,
    env_PRIVATE_KEY.
  rewrite Key. unfold Node.bind at 1.
  rewrite (new_Wallet_valid key _ Len). cbv beta iota.
  unfold Node.bind, ret, randomBytes, Date_now.
  unfold signTypedData, Node.bind, lift. cbn [clock_ms draw]. fold payload.
  destruct (TypedDataEncoder_hash _ _ _) as [digest|e]; [|reflexivity].
  cbn [sign_digest privateKey].
  unfold submitCancellation, try_catch, Node.bind, fetch_post, request_of.
  cbn [Cancel.orderHashes Cancel.signature Cancel.salt Cancel.maker
       Cancel.timestamp accepts with_data record_signed draw success].
  cbv zeta. unfold Wallet_address. cbn [privateKey].
  match goal with
  | |- _ = (if accepts w ?u ?r then _ else _) =>
      destruct (accepts w u r); [|reflexivity];
      cbn [has_data]; destruct (with_data w u r); reflexivity
  end.
Qed.

Lemma standalone_cancelOrders_steps (orderHashes : list string) (w : world)
  (key : bytes) :
  let payload :=
    getCancelOrderEIP712Payload orderHashes (next_bytes 32 w)
      (seconds (clock_ms w)) CONSTANTS.chainId in
  OrderManagement.cancelOrders orderHashes {| privateKey := key |} w =
    match TypedDataEncoder_hash (domain payload)
            [("Details", get_type "Details" (types payload))]
            (message payload) with
    | Throw e =>
        (Throw e, record_reported "Error cancelling orders:" e (draw 32 w))
    | Ok digest =>
        let request :=
          CancelOrders
            {| Node.orderHashes := orderHashes;
               cancel_signature := sign key digest;
               cancel_salt := next_bytes 32 w;
               cancel_maker := computeAddress key;
               Node.timestamp := seconds (clock_ms w) |} in
        let sent :=
          record_posted CONSTANTS.apiUrl request
            (record_signed digest (draw 32 w)) in
        if accepts w CONSTANTS.apiUrl request then
          (Ok {| success := true;
                 has_data := with_data w CONSTANTS.apiUrl request |}, sent)
        else (Throw ApiError,
              record_reported "Error cancelling orders:" ApiError sent)
    end.
Proof.
  intros payload.
  unfold OrderManagement.cancelOrders, try_catch, Node.bind.
  cbn [ret randomBytes Date_now].
  unfold signTypedData, Node.bind, lift. cbn [clock_ms draw].
  change (OrderManagement.getCancelOrderEIP712Payload orderHashes
            (next_bytes 32 w) (seconds (clock_ms w))) with payload.
  destruct (TypedDataEncoder_hash _ _ _) as [digest|e]; [|reflexivity].
  cbn [sign_digest privateKey].
  unfold fetch_post, request_of.
  cbn [Cancel.orderHashes Cancel.signature Cancel.salt Cancel.maker
       Cancel.timestamp accepts with_data record_signed draw success].
  cbv zeta.
  change OrderManagement.CONSTANTS.cancelOrderUrl with CONSTANTS.apiUrl.
  unfold Wallet_address. cbn [privateKey].
  match goal with
  | |- _ = (if accepts w ?u ?r then _ else _) =>
      destruct (accepts w u r); reflexivity
  end.
Qed.

(** X12.  The [cancelOrders] of the stand-alone module, given the
    wallet of a valid key of the environment, signs the same digest as
    the one of [cancel.js], sends the same request and uses as many
    random bytes.  It returns the same answer or throws the same
    error, except for an answer of success without a [data] object:
    the stand-alone routine returns that answer, and the one of
    [cancel.js], which goes on to read [result.data.cancelledCount],
    throws a TypeError.  (They differ also in what they report.) *)
Theorem standalone_cancellation_sends_the_same_request
  (orderHashes : list string) (w : world) (key : bytes) :
  PRIVATE_KEY w = Some key -> valid_key key ->
  let tutorial := cancelOrders orderHashes w in
  let standalone :=
    OrderManagement.cancelOrders orderHashes {| privateKey := key |} w in
  signed (snd standalone) = signed (snd tutorial) /\
  posted (snd standalone) = posted (snd tutorial) /\
  consumed (snd standalone) = consumed (snd tutorial) /\
  match fst standalone with
  | Ok data =>
      success data = true /\
      fst tutorial =
        if has_data data then Ok data
        else Throw (TypeError_reading "cancelledCount")
  | Throw e => fst tutorial = Throw e
  end.
Proof.
  intros Key Len. cbv zeta.
  rewrite (tutorial_cancelOrders_steps orderHashes w key Key Len).
  rewrite (standalone_cancelOrders_steps orderHashes w key).
  cbv zeta.
  destruct (TypedDataEncoder_hash _ _ _) as [digest|e].
  - destruct (accepts w CONSTANTS.apiUrl _).
    + destruct (with_data w CONSTANTS.apiUrl _);
        (split; [reflexivity|]; split; [reflexivity|];
         split; [reflexivity|]; split; reflexivity).
    + split; [reflexivity|]. split; [reflexivity|]. split; reflexivity.
  - split; [reflexivity|]. split; [reflexivity|]. split; reflexivity.
Qed.

End CancelFlow.

(** ** [fill.js]: the formulas and the request *)

Section FillFormulas.
Import JS Fill FillPrompt.

Lemma fill_formulas_values (a o : Z) :
  0 <= a -> 0 <= o < 10 ^ 20 ->
  calculateFillAmount a o = Ok (BigInt_toString (a * o / (10 ^ 20 - o))) /\
  calculatePotentialPayout a o =
    Ok (BigInt_toString (a * 10 ^ 20 / (10 ^ 20 - o))).
Proof.
  intros Ha Ho.
  unfold calculateFillAmount, calculatePotentialPayout, BigInt_div,
    BigInt_1e20, JS.bind.
  replace (10 ^ 20 - o =? 0) with false by (symmetry; apply Z.eqb_neq; lia).
  rewrite !Z.quot_div_nonneg by nia. split; reflexivity.
Qed.

(** X13.  For stakes that are not negative and odds in [[0, 10^20)],
    [calculateFillAmount] and [calculatePotentialPayout] return
    numerals that do not decrease when the stake or the odds grow; the
    payout is at least the stake, and the fill amount [f] is the exact
    ratio rounded down: [f * (10^20 - odds) <= stake * odds <
    (f + 1) * (10^20 - odds)]. *)
Theorem fill_formulas_are_monotone (a a' o o' : Z) :
  0 <= a <= a' -> 0 <= o <= o' -> o' < 10 ^ 20 ->
  exists f f' p p' : Z,
    calculateFillAmount a o = Ok (BigInt_toString f) /\
    calculateFillAmount a' o' = Ok (BigInt_toString f') /\
    calculatePotentialPayout a o = Ok (BigInt_toString p) /\
    calculatePotentialPayout a' o' = Ok (BigInt_toString p') /\
    0 <= f <= f' /\ a <= p <= p' /\
    f * (10 ^ 20 - o) <= a * o < (f + 1) * (10 ^ 20 - o).
Proof.
  intros Ha Ho Ho'.
  destruct (fill_formulas_values a o ltac:(lia) ltac:(lia)) as [F Pa].
  destruct (fill_formulas_values a' o' ltac:(lia) ltac:(lia)) as [F' Pa'].
  exists (a * o / (10 ^ 20 - o)), (a' * o' / (10 ^ 20 - o')),
    (a * 10 ^ 20 / (10 ^ 20 - o)), (a' * 10 ^ 20 / (10 ^ 20 - o')).
  split; [exact F|]. split; [exact F'|]. split; [exact Pa|]. split; [exact Pa'|].
  set (B := 10 ^ 20) in *.
  assert (HB : 0 < B) by reflexivity.
  split; [|split].
  - split; [apply Z.div_pos; nia|].
    apply div_le_cross; [lia|lia|].
    assert (a * o <= a' * o') by nia. nia.
  - split.
    + apply Z.div_le_lower_bound; [lia|]. nia.
    + apply div_le_cross; [lia|lia|].
      assert (a * B <= a' * B) by nia. nia.
  - pose proof (Z.div_mod (a * o) (B - o) ltac:(lia)) as E.
    pose proof (Z.mod_pos_bound (a * o) (B - o) ltac:(lia)) as R.
    nia.
Qed.

(** X14.  [formatOdds] shows odds that are not negative as their whole
    percent, rounded down: the numeral of [n] followed by a percent
    sign, with [n * 10^18 <= percentageOdds < (n + 1) * 10^18]. *)
Theorem formatOdds_shows_the_whole_percent (percentageOdds : Z) :
  0 <= percentageOdds ->
  exists n : Z,
    formatOdds percentageOdds = Ok (BigInt_toString n ++ "%")%string /\
    n * 10 ^ 18 <= percentageOdds < (n + 1) * 10 ^ 18.
Proof.
  intros Hp. exists (percentageOdds / 10 ^ 18).
  unfold formatOdds, BigInt_div, BigInt_1e20, JS.bind.
  change (10 ^ 20 =? 0) with false. cbv iota.
  rewrite Z.quot_div_nonneg by lia.
  change (10 ^ 20) with (10 ^ 18 * 100).
  rewrite Z.div_mul_cancel_r by lia.
  split; [reflexivity|].
  pose proof (Z.div_mod percentageOdds (10 ^ 18) ltac:(lia)) as E.
  pose proof (Z.mod_pos_bound percentageOdds (10 ^ 18) ltac:(lia)) as R.
  lia.
Qed.

End FillFormulas.

Section Salts.
Import JS Ethers Node Fill MoreStatements.

Lemma toBigInt_snoc (b : bytes) (x : byte) :
  toBigInt (b ++ [x]) = toBigInt b * 256 + Z.of_N (Byte.to_N x).
Proof. unfold toBigInt. rewrite fold_left_app. reflexivity. Qed.

Lemma byte_of_Z_to_N (q : Z) (x : byte) :
  byte_of_Z (q * 256 + Z.of_N (Byte.to_N x)) = x.
Proof.
  unfold byte_of_Z.
  pose proof (Byte.to_N_bounded x) as Bx.
  assert (M : (q * 256 + Z.of_N (Byte.to_N x)) mod 256 = Z.of_N (Byte.to_N x)).
  { rewrite Z.add_comm, Z.mod_add by lia. apply Z.mod_small. lia. }
  rewrite M, N2Z.id, Byte.of_to_N. reflexivity.
Qed.

(** Reading bytes as a big-endian integer and writing the integer back
    on as many bytes restores them. *)
Lemma be_bytes_toBigInt (b : bytes) : be_bytes (List.length b) (toBigInt b) = b.
Proof.
  induction b as [|x b IH] using rev_ind; [reflexivity|].
  rewrite length_app, Nat.add_comm. cbn [List.length Nat.add be_bytes].
  rewrite toBigInt_snoc, byte_of_Z_to_N.
  pose proof (Byte.to_N_bounded x) as Bx.
  replace ((toBigInt b * 256 + Z.of_N (Byte.to_N x)) / 256) with (toBigInt b).
  - rewrite IH. reflexivity.
  - symmetry. rewrite Z.add_comm, Z.div_add by lia.
    rewrite Z.div_small by lia. reflexivity.
Qed.

(** X15.  [generateFillSalt] draws 32 bytes and returns a decimal
    numeral of an integer in [[0, 2^256)]; encoded as a [uint256],
    this numeral gives the 32 bytes drawn back, so that different
    draws give different salts. *)
Theorem fill_salt_is_the_bytes_drawn (w : world) :
  exists (fillSalt : string) (z : Z),
    generateFillSalt w = (Ok fillSalt, draw 32 w) /\
    getBigInt_string fillSalt = Ok z /\
    0 <= z < 2 ^ 256 /\
    pack uint256 (V_string fillSalt) = Ok (next_bytes 32 w).
Proof.
  exists (BigInt_toString (toBigInt (next_bytes 32 w))),
    (toBigInt (next_bytes 32 w)).
  pose proof (toBigInt_range (next_bytes 32 w)) as R.
  rewrite next_bytes_length in R.
  split; [reflexivity|]. split; [apply getBigInt_toString|].
  split; [exact R|].
  unfold pack. cbn [getBigInt]. rewrite getBigInt_toString. cbn [JS.bind].
  assert (R' : 0 <= toBigInt (next_bytes 32 w) < 2 ^ 256) by exact R.
  destruct (Z.ltb_spec (toBigInt (next_bytes 32 w)) 0); [lia|].
  destruct (Z.ltb_spec (toBigInt (next_bytes 32 w)) (2 ^ 256)); [|lia].
  pose proof (be_bytes_toBigInt (next_bytes 32 w)) as E.
  rewrite next_bytes_length in E. rewrite E. reflexivity.
Qed.

End Salts.

Section FillFlow.
Import JS Ethers Node Fill MoreStatements SigningStatements.
Context {P : Primitives}.

Lemma createSigningPayload_cases (order : bookOrder) (a : Z) (w : world) :
  match createSigningPayload order a w with
  | (Ok sp, w') =>
      w' = draw 32 w /\
      fillSalt sp = BigInt_toString (toBigInt (next_bytes 32 w)) /\
      calculateFillAmount a (percentageOdds (unsigned (listed order)))
        = Ok (fillAmount sp)
  | (Throw e, w') =>
      w' = draw 32 w /\
      calculateFillAmount a (percentageOdds (unsigned (listed order)))
        = Throw e
  end.
Proof.
  unfold createSigningPayload, generateFillSalt, Node.bind, randomBytes, ret,
    lift.
  destruct (calculateFillAmount a _) as [f|e].
  - cbn [fillSalt fillAmount]. split; [reflexivity|]. split; reflexivity.
  - split; reflexivity.
Qed.

(** X16.  For every listing, wallet, amount and state of the process,
    [fillOrder] returns normally and has drawn the 32 bytes of the fill
    salt.  Either it has reported an error and signed and sent
    nothing, or it has signed one digest and sent one request to
    [/orders/fill], which carries the signature of that digest under
    the key of the wallet, the hash of the listing, the amount
    [calculateFillAmount] returns and the salt drawn. *)
Theorem fillOrder_reports_or_signs_and_sends (order : bookOrder)
  (wallet : Wallet) (betAmount : Z) (w : world) :
  exists w' : world,
    fillOrder order wallet betAmount w = (Ok tt, w') /\
    consumed w' = (consumed w + 32)%nat /\
    ((exists e : exn,
        signed w' = signed w /\ posted w' = posted w /\
        In ("Error filling order:", e) (reported w')) \/
     (exists (digest : bytes) (request : fillRequest),
        signed w' = digest :: signed w /\
        posted w' =
          ("https://api.sx.bet/orders/fill", FillOrders request) :: posted w /\
        takerSig request = sign (privateKey wallet) digest /\
        fill_orderHashes request = [orderHash order] /\
        calculateFillAmount betAmount
          (percentageOdds (unsigned (listed order)))
          = Ok (hd "" (fill_takerAmounts request)) /\
        Node.fillSalt request =
          BigInt_toString (toBigInt (next_bytes 32 w)))).
Proof.
  pose proof (createSigningPayload_cases order betAmount w) as C.
  unfold fillOrder, try_catch, Node.bind at 1.
  destruct (createSigningPayload order betAmount w) as [[sp|e] w1].
  - destruct C as (-> & Salt & Amount).
    unfold signTypedData, Node.bind, lift.
    destruct (TypedDataEncoder_hash _ _ _) as [digest|e].
    + cbn [sign_digest fetch_post ret].
      eexists. split; [reflexivity|]. split; [reflexivity|].
      right. exists digest. eexists.
      split; [reflexivity|]. split; [reflexivity|].
      cbn [takerSig fill_orderHashes fill_takerAmounts Node.fillSalt hd].
      split; [reflexivity|]. split; [reflexivity|].
      split; [exact Amount|exact Salt].
    + cbn [console_error].
      eexists. split; [reflexivity|]. split; [reflexivity|].
      left. exists e. split; [reflexivity|]. split; [reflexivity|].
      left. reflexivity.
  - destruct C as (-> & _). cbn [console_error].
    eexists. split; [reflexivity|]. split; [reflexivity|].
    left. exists e. split; [reflexivity|]. split; [reflexivity|].
    left. reflexivity.
Qed.

(** X17.  A listing whose odds are [10^20] cannot be filled: for every
    amount [fillOrder] draws the salt, reports
    [RangeError: Division by zero] and returns, with nothing signed or
    sent. *)
Theorem order_at_full_odds_cannot_be_filled (order : bookOrder)
  (wallet : Wallet) (betAmount : Z) (w : world) :
  percentageOdds (unsigned (listed order)) = 10 ^ 20 ->
  fillOrder order wallet betAmount w =
    (Ok tt,
     record_reported "Error filling order:" RangeError_DivisionByZero
       (draw 32 w)).
Proof.
  intros Full.
  unfold fillOrder, try_catch, Node.bind at 1.
  unfold createSigningPayload, generateFillSalt, Node.bind, randomBytes, ret,
    lift, calculateFillAmount, BigInt_div, BigInt_1e20.
  rewrite Full. reflexivity.
Qed.

End FillFlow.

(** ** The error of one rounding *)

Section RoundingError.
Import JS Float64 Float64More Formatter FillPrompt.

(** In the normal range a rounding moves a value by at most one part
    in [2^53]. *)
Lemma round_mag_near (a b : Z) :
  0 < b -> 2 ^ 52 * b <= a ->
  (2 ^ 53 - 1) * a <= 2 ^ 53 * (round_mag a b * b) <= (2 ^ 53 + 1) * a.
Proof.
  intros Hb Ha.
  assert (P52 : 0 < 2 ^ 52) by reflexivity.
  assert (Ha0 : 0 <= a) by nia.
  unfold round_mag. set (g := grid (a / b)).
  pose proof (grid_nonneg (a / b)) as G0. fold g in G0.
  assert (Pg : 0 < 2 ^ g) by (apply Z.pow_pos_nonneg; lia).
  assert (L : 2 ^ g * 2 ^ 52 * b <= a).
  { destruct (Z.eq_dec g 0) as [E|N].
    - rewrite E. change (2 ^ 0) with 1. lia.
    - pose proof (grid_lower (a / b) ltac:(fold g; lia)) as GL. fold g in GL.
      rewrite Z.pow_add_r in GL by lia.
      pose proof (Z.mul_div_le a b Hb). nia. }
  pose proof (rne_bounds a (b * 2 ^ g) ltac:(nia)) as [Lo Up].
  set (n := rne a (b * 2 ^ g)) in *.
  replace (n * 2 ^ g * b) with (b * 2 ^ g * n) by ring.
  set (B := b * 2 ^ g) in *.
  assert (LB : 2 ^ 52 * B <= a) by (unfold B; nia).
  change (2 ^ 53) with (2 * 2 ^ 52).
  set (X := B * n) in *.
  assert (Lo' : 2 * a - B <= 2 * X) by (unfold X; lia).
  assert (Up' : 2 * X <= 2 * a + B) by (unfold X; lia).
  clearbody X B. clear - Lo' Up' LB.
  change (2 ^ 52) with 4503599627370496 in *. lia.
Qed.

Lemma of_decimal_finite (a : Z) (e : nat) :
  round_mag (a * unit) (10 ^ Z.of_nat e) < overflow_threshold ->
  of_decimal a e = Finite false (round_mag (a * unit) (10 ^ Z.of_nat e)).
Proof. intros H. apply round_finite. exact H. Qed.

Lemma mul_finite_pos (k k' : Z) :
  round_mag (k * k') unit < overflow_threshold ->
  mul (Finite false k) (Finite false k') =
  Finite false (round_mag (k * k') unit).
Proof. intros H. apply round_finite. exact H. Qed.

Lemma unit_large : 2 ^ 52 * 10 ^ 6 <= unit.
Proof. vm_compute. discriminate. Qed.

(** The two roundings of [amount * 1000000], in units. *)
Lemma filter_units (a : Z) :
  1 <= a <= 2 ^ 51 ->
  let k1 := round_mag (a * unit) (10 ^ 6) in
  let k2 := round_mag (k1 * (10 ^ 6 * unit)) unit in
  (a - 1) * unit <= k2 < (a + 1) * unit /\
  k1 < overflow_threshold /\ k2 < overflow_threshold.
Proof.
  intros Ha k1 k2. pose proof unit_pos as U. pose proof unit_large as UL.
  assert (N1 : (2 ^ 53 - 1) * (a * unit)
               <= 2 ^ 53 * (k1 * 10 ^ 6) <= (2 ^ 53 + 1) * (a * unit)).
  { apply round_mag_near; [reflexivity|]. nia. }
  assert (AU : unit <= a * unit <= 2 ^ 51 * unit) by nia.
  assert (OT : 2 ^ 53 * unit <= overflow_threshold).
  { rewrite overflow_threshold_eq. apply Z.mul_le_mono_nonneg_r; [lia|].
    vm_compute. discriminate. }
  assert (N2 : (2 ^ 53 - 1) * (k1 * (10 ^ 6 * unit))
               <= 2 ^ 53 * (k2 * unit)
               <= (2 ^ 53 + 1) * (k1 * (10 ^ 6 * unit))).
  { apply round_mag_near; [exact U|].
    assert (2 ^ 52 <= k1 * 10 ^ 6); [|nia].
    change (2 ^ 53) with 9007199254740992 in N1.
    change (2 ^ 52) with 4503599627370496 in *.
    change (10 ^ 6) with 1000000 in *. lia. }
  assert (N2' : (2 ^ 53 - 1) * (k1 * 10 ^ 6) <= 2 ^ 53 * k2
                <= (2 ^ 53 + 1) * (k1 * 10 ^ 6)).
  { replace (k1 * (10 ^ 6 * unit)) with (k1 * 10 ^ 6 * unit) in N2 by ring.
    split; nia. }
  change (2 ^ 53) with 9007199254740992 in *.
  change (2 ^ 51) with 2251799813685248 in *.
  change (10 ^ 6) with 1000000 in *.
  replace ((a - 1) * unit) with (a * unit - unit) by ring.
  replace ((a + 1) * unit) with (a * unit + unit) by ring.
  clear N2 UL.
  generalize dependent k2. generalize dependent k1.
  generalize dependent (a * unit). intros A AU k1 N1 k2 N2'.
  split; [lia|]. split; lia.
Qed.

(** X18.  The filter of the bet-amount prompt,
    [Math.floor(amount * 1000000).toString()], applied to the double
    nearest to [a / 10^6] for [1 <= a <= 2^51], returns the numeral of
    [a] or of [a - 1], never more and never less. *)
Theorem bet_amount_filter_is_within_one_unit (a : Z) :
  1 <= a <= 2 ^ 51 ->
  exists r : Z,
    betAmount_filter (of_decimal a 6) = Str (BigInt_toString r) /\
    a - 1 <= r <= a.
Proof.
  intros Ha. pose proof unit_pos as U.
  destruct (filter_units a Ha) as (B & O1 & O2). cbv zeta in *.
  set (k1 := round_mag (a * unit) (10 ^ 6)) in *.
  set (k2 := round_mag (k1 * (10 ^ 6 * unit)) unit) in *.
  exists (k2 / unit).
  assert (R : a - 1 <= k2 / unit <= a).
  { split.
    - apply Z.div_le_lower_bound; [exact U|]. lia.
    - assert (k2 / unit < a + 1); [|lia].
      apply Z.div_lt_upper_bound; [exact U|]. lia. }
  split; [|exact R].
  unfold betAmount_filter.
  rewrite (of_decimal_finite a 6) by exact O1.
  change (Z.of_nat 6) with 6. fold k1.
  rewrite (of_Z_exact 1000000) by (split; [lia|reflexivity]).
  change 1000000 with (10 ^ 6).
  rewrite mul_finite_pos by exact O2. fold k2.
  unfold Math_floor, toString.
  rewrite Z.mod_mul, Z.div_mul by lia.
  replace (k2 / unit <? 2 ^ 53) with true.
  - reflexivity.
  - symmetry. apply Z.ltb_lt. apply Z.le_lt_trans with (2 ^ 51); [lia|reflexivity].
Qed.

#[local] Set Warnings "-inexact-float".

(** X19.  The filter does lose a base unit: for the input 2.01, which
    is read as the machine double [2.01], it returns 2009999 and not
    2010000. *)
Theorem bet_of_2_01_loses_a_unit :
  of_decimal 201 2 = of_float 2.01%float /\
  of_decimal 2010000 6 = of_decimal 201 2 /\
  betAmount_filter (of_decimal 201 2) = Str "2009999".
Proof.
  split; [vm_compute; reflexivity|].
  split; vm_compute; reflexivity.
Qed.

Example multiplication_agrees_with_the_machine :
  forallb (fun ab : PrimFloat.float * PrimFloat.float =>
             same (of_float (fst ab * snd ab))
                  (mul (of_float (fst ab)) (of_float (snd ab))))
    [ (2.01, 1000000); (1.1, 1000000); (0.1, 3); (1e308, 10); (1e-308, 1e-10);
      (5e-324, 0.5); (1.5e-323, 0.5); (-1, 3); (0, -1); (1e200, 1e200);
      (123456789.123, 1e6); (4.35, 100); (0.000249, 1000000);
      (2.2250738585072014e-308, 0.9999999999999999);
      (1.7976931348623157e308, 1.0000000000000002) ]%float
  = true.
Proof. vm_compute. reflexivity. Qed.

(** [convertToNominalUnits] of an integer below [2^53], in units. *)
Lemma convertToNominalUnits_units (z : Z) :
  0 <= z < 2 ^ 53 ->
  let k := round_mag (z * unit * unit) (10 ^ 6 * unit) in
  convertToNominalUnits (of_Z z) 6 = Str (fixed2 false (hundredths k)) /\
  0 <= k /\
  (2 ^ 53 - 1) * (z * unit) <= 2 ^ 53 * (k * 10 ^ 6)
    <= (2 ^ 53 + 1) * (z * unit).
Proof.
  intros Hz k. pose proof unit_pos as U. pose proof unit_large as UL.
  assert (K : 0 <= k) by (apply round_mag_nonneg; nia).
  assert (N : (2 ^ 53 - 1) * (z * unit) <= 2 ^ 53 * (k * 10 ^ 6)
              <= (2 ^ 53 + 1) * (z * unit)).
  { destruct (Z.eq_dec z 0) as [->|NZ].
    - replace k with 0 by (vm_compute; reflexivity). lia.
    - assert (N0 : (2 ^ 53 - 1) * (z * unit * unit)
                   <= 2 ^ 53 * (k * (10 ^ 6 * unit))
                   <= (2 ^ 53 + 1) * (z * unit * unit)).
      { apply round_mag_near; [nia|].
        assert (2 ^ 52 * 10 ^ 6 <= z * unit) by nia. nia. }
      replace (k * (10 ^ 6 * unit)) with (k * 10 ^ 6 * unit) in N0 by ring.
      split; nia. }
  assert (Small : k < 10 ^ 21 * unit).
  { assert (k * 10 ^ 6 <= 2 * (z * unit)).
    { change (2 ^ 53) with 9007199254740992 in N.
      assert (0 <= z * unit) by nia. lia. }
    assert (z * unit <= 2 ^ 53 * unit) by nia.
    assert (2 * (2 ^ 53 * unit) < 10 ^ 21 * unit).
    { rewrite Z.mul_assoc. apply Z.mul_lt_mono_pos_r; [exact U|reflexivity]. }
    change (10 ^ 6) with 1000000 in *. lia. }
  split; [|split; [exact K|exact N]].
  unfold convertToNominalUnits.
  rewrite pow10_6_eq, (of_Z_exact z Hz), div_finite_pos; fold k.
  - unfold toFixed2. change (false && (0 <? k)) with false.
    destruct (Z.leb_spec (10 ^ 21 * unit) k); [lia|reflexivity].
  - nia.
  - pose proof below_overflow. lia.
Qed.

(** X20.  For an amount [z] of base units in [[0, 2^53)],
    [convertToNominalUnits] returns a numeral with two decimals of
    some [n] hundredths with [z - 5000 <= n * 10^4 <= z + 5000]: the
    amount shown is off by half a hundredth at most, and a whole number
    of hundredths is shown exactly. *)
Theorem displayed_amount_is_within_half_a_cent (z : Z) :
  0 <= z < 2 ^ 53 ->
  exists n : Z,
    convertToNominalUnits (of_Z z) 6 = Str (fixed2 false n) /\
    0 <= n /\
    z - 5000 <= n * 10 ^ 4 <= z + 5000 /\
    (forall m : Z, z = m * 10 ^ 4 -> n = m).
Proof.
  intros Hz. pose proof unit_pos as U.
  destruct (convertToNominalUnits_units z Hz) as (E & K & N). cbv zeta in *.
  set (k := round_mag (z * unit * unit) (10 ^ 6 * unit)) in *.
  exists (hundredths k).
  split; [exact E|]. split; [apply hundredths_nonneg; exact K|].
  assert (H : 2 * unit * hundredths k <= 200 * k + unit
              < 2 * unit * hundredths k + 2 * unit).
  { unfold hundredths.
    pose proof (Z.div_mod (200 * k + unit) (2 * unit) ltac:(lia)) as D.
    pose proof (Z.mod_pos_bound (200 * k + unit) (2 * unit) ltac:(lia)) as R.
    lia. }
  set (n := hundredths k) in *.
  assert (ZU : 0 <= z * unit < 2 ^ 53 * unit) by nia.
  change (2 ^ 53) with 9007199254740992 in *.
  change (10 ^ 6) with 1000000 in *.
  change (10 ^ 4) with 10000.
  assert (B : z - 5000 <= n * 10000 <= z + 5000).
  { assert (Up : (n * 10000 - z - 5001) * unit < 0) by lia.
    assert (Lo : 0 < (n * 10000 - z + 5001) * unit) by lia.
    nia. }
  split; [exact B|]. intros m ->. lia.
Qed.

(** X21.  [convertToNominalUnits] keeps the order of amounts in
    [[0, 2^53)]: a larger amount is never shown as a smaller one. *)
Theorem displayed_amounts_keep_their_order (z z' : Z) :
  0 <= z <= z' -> z' < 2 ^ 53 ->
  exists n n' : Z,
    convertToNominalUnits (of_Z z) 6 = Str (fixed2 false n) /\
    convertToNominalUnits (of_Z z') 6 = Str (fixed2 false n') /\
    0 <= n <= n'.
Proof.
  intros Hz Hz'. pose proof unit_pos as U.
  destruct (convertToNominalUnits_units z ltac:(lia)) as (E & K & _).
  destruct (convertToNominalUnits_units z' ltac:(lia)) as (E' & K' & _).
  cbv zeta in *.
  eexists. eexists. split; [exact E|]. split; [exact E'|].
  split; [apply hundredths_nonneg; exact K|].
  apply hundredths_mono.
  assert (UU : 0 < unit * unit) by nia.
  assert (ZUU : z * unit * unit <= z' * unit * unit).
  { rewrite <- !Z.mul_assoc. apply Z.mul_le_mono_nonneg_r; lia. }
  assert (0 <= z * unit * unit) by (rewrite <- Z.mul_assoc; nia).
  assert (0 <= z' * unit * unit) by lia.
  apply round_mag_mono; try lia.
  apply Z.mul_le_mono_nonneg_r; lia.
Qed.

End RoundingError.

(** ** [formatter.js]: the remaining taker space *)

Section RemainingSpace.
Import JS Float64 Formatter FormatterStatements.

(** The BigInt expression of [calculateRemainingTakerSpace]. *)
Lemma calculateRemainingTakerSpace_value (o : order) :
  percentageOdds o <> 0 ->
  let remainingStake := totalBetSize o - fillAmount o in
  calculateRemainingTakerSpace o =
    Ok (toFixed2
          (div (of_Z (Z.quot (remainingStake * 10 ^ 20) (percentageOdds o)
                      - remainingStake))
               (pow10 6))).
Proof.
  intros H. cbv zeta.
  unfold calculateRemainingTakerSpace, BigInt_div, BigInt_1e20, bind.
  replace (percentageOdds o =? 0) with false by (symmetry; apply Z.eqb_neq; lia).
  reflexivity.
Qed.

(** C6, amended.  [calculateRemainingTakerSpace] has no [InvalidState]
    error.  It raises [RangeError: Division by zero] when
    [percentageOdds] is 0 and returns for every other order, also for
    one with [fillAmount > totalBetSize]: the BigInt
    [remaining = remainingStake * 10^20 / percentageOdds - remainingStake]
    with [remainingStake = totalBetSize - fillAmount] and the quotient
    truncated toward zero, converted to a Number, divided by the Number
    [10^6] and rendered by [toFixed(2)].  When [fillAmount <= totalBetSize]
    and [percentageOdds > 0] the quotient is the floor; when also
    [percentageOdds <= 10^20], [remaining] and the text are not
    negative; the text is ["0.00"] when [fillAmount = totalBetSize].
    When [fillAmount > totalBetSize] and [0 < percentageOdds <= 10^20],
    [remaining] is zero or negative.  For [0 <= remaining < 2^53] the
    text is the numeral with two decimals of [n] hundredths with
    [remaining - 5000 <= n * 10^4 <= remaining + 5000]: the nominal
    amount [remaining / 10^6] to the nearest hundredth, exactly so
    when it is a whole number of hundredths. *)
Theorem calculateRemainingTakerSpace_spec (o : order) :
  let remainingStake := totalBetSize o - fillAmount o in
  let remaining :=
    Z.quot (remainingStake * 10 ^ 20) (percentageOdds o) - remainingStake in
  (percentageOdds o = 0 ->
   calculateRemainingTakerSpace o = Throw RangeError_DivisionByZero) /\
  (percentageOdds o <> 0 ->
   calculateRemainingTakerSpace o =
     Ok (toFixed2 (div (of_Z remaining) (Finite false (10 ^ 6 * unit))))) /\
  (0 <= remainingStake -> 0 < percentageOdds o ->
   remaining = remainingStake * 10 ^ 20 / percentageOdds o - remainingStake) /\
  (0 <= remainingStake -> 0 < percentageOdds o <= 10 ^ 20 ->
   0 <= remaining /\
   exists t : text,
     calculateRemainingTakerSpace o = Ok t /\ nonneg_text t) /\
  (remainingStake = 0 -> percentageOdds o <> 0 ->
   calculateRemainingTakerSpace o = Ok (Str "0.00")) /\
  (remainingStake < 0 -> 0 < percentageOdds o <= 10 ^ 20 -> remaining <= 0) /\
  (percentageOdds o <> 0 -> 0 <= remaining < 2 ^ 53 ->
   exists n : Z,
     calculateRemainingTakerSpace o = Ok (Str (fixed2 false n)) /\
     remaining - 5000 <= n * 10 ^ 4 <= remaining + 5000 /\
     (forall m : Z, remaining = m * 10 ^ 4 -> n = m)).
Proof.
  intros remainingStake remaining. pose proof unit_pos as U.
  assert (V : percentageOdds o <> 0 ->
              calculateRemainingTakerSpace o =
                Ok (convertToNominalUnits (of_Z remaining) 6))
    by (intros H; apply (calculateRemainingTakerSpace_value o H)).
  assert (F : 0 <= remainingStake -> 0 < percentageOdds o ->
              remaining =
                remainingStake * 10 ^ 20 / percentageOdds o - remainingStake).
  { intros H0 H1. unfold remaining.
    rewrite Z.quot_div_nonneg by nia. reflexivity. }
  assert (N : 0 <= remainingStake -> 0 < percentageOdds o <= 10 ^ 20 ->
              0 <= remaining).
  { intros H0 H1. rewrite (F H0 (proj1 H1)).
    assert (remainingStake <= remainingStake * 10 ^ 20 / percentageOdds o);
      [|lia].
    apply Z.div_le_lower_bound; [lia|]. nia. }
  split; [|split; [|split; [|split; [|split; [|split]]]]].
  - intros H0.
    unfold calculateRemainingTakerSpace, BigInt_div, bind. rewrite H0.
    reflexivity.
  - intros H. rewrite (V H). unfold convertToNominalUnits.
    rewrite pow10_6_eq. reflexivity.
  - exact F.
  - intros H0 H1. split; [exact (N H0 H1)|].
    eexists. split; [apply V; lia|].
    apply convertToNominalUnits_nonneg. exact (N H0 H1).
  - intros H0 H1. rewrite (V H1). unfold remaining. rewrite H0.
    rewrite Z.mul_0_l, Z.quot_0_l by exact H1. vm_compute. reflexivity.
  - intros H0 H1. unfold remaining.
    replace (remainingStake * 10 ^ 20) with (- (- remainingStake * 10 ^ 20))
      by ring.
    rewrite Z.quot_opp_l by lia.
    rewrite Z.quot_div_nonneg by nia.
    assert (- remainingStake <= - remainingStake * 10 ^ 20 / percentageOdds o);
      [|lia].
    apply Z.div_le_lower_bound; [lia|]. nia.
  - intros H R. rewrite (V H).
    destruct (convertToNominalUnits_units remaining R) as (E & K & B).
    cbv zeta in *.
    set (k := round_mag (remaining * unit * unit) (10 ^ 6 * unit)) in *.
    exists (hundredths k). split; [rewrite E; reflexivity|].
    assert (D : 2 * unit * hundredths k <= 200 * k + unit
                < 2 * unit * hundredths k + 2 * unit).
    { unfold hundredths.
      pose proof (Z.div_mod (200 * k + unit) (2 * unit) ltac:(lia)) as D.
      pose proof (Z.mod_pos_bound (200 * k + unit) (2 * unit) ltac:(lia)) as M.
      lia. }
    set (n := hundredths k) in *.
    assert (ZU : 0 <= remaining * unit < 2 ^ 53 * unit) by nia.
    change (2 ^ 53) with 9007199254740992 in *.
    change (10 ^ 6) with 1000000 in *.
    change (10 ^ 4) with 10000.
    assert (C : remaining - 5000 <= n * 10000 <= remaining + 5000).
    { assert (Up : (n * 10000 - remaining - 5001) * unit < 0) by lia.
      assert (Lo : 0 < (n * 10000 - remaining + 5001) * unit) by lia.
      nia. }
    split; [exact C|]. intros m Hm. lia.
Qed.

(** C6, amended, at an order of 3.00 filled for 1.00, at even odds:
    2.00 remain. *)
Lemma calculateRemainingTakerSpace_spec_witness :
  let o := {| totalBetSize := 3000000; fillAmount := 1000000;
              percentageOdds := 5 * 10 ^ 19 |} in
  let remaining := 2000000 in
  calculateRemainingTakerSpace o =
    Ok (toFixed2 (div (of_Z remaining) (Finite false (10 ^ 6 * unit)))) /\
  exists n : Z,
    calculateRemainingTakerSpace o = Ok (Str (fixed2 false n)) /\
    remaining - 5000 <= n * 10 ^ 4 <= remaining + 5000 /\
    (forall m : Z, remaining = m * 10 ^ 4 -> n = m).
Proof.
  intros o remaining.
  destruct (calculateRemainingTakerSpace_spec o)
    as (_ & V & _ & _ & _ & _ & N).
  split.
  - apply V. vm_compute. discriminate.
  - apply N; [vm_compute; discriminate|].
    split; vm_compute; [discriminate|reflexivity].
Defined.

End RemainingSpace.

(** ** The stand-alone utilities *)

Section Addresses.
Import Utils.




End Addresses.

(** ** [post.js] next to [formatter.js]: odds of 100 % and more *)

Section Unbounded.
Import JS Ethers Units PostOrder MoreStatements.

(** X23.  [processOdds] sets no upper bound: odds that parse to
    [10^20] or more (100 % or more) come back as [10^20] or more, and
    [calculateTakerOdds] shows the result as N/A. *)
Theorem processOdds_does_not_bound_the_odds (printed : string) (raw : Z) :
  parseUnits printed 18 = Ok raw -> 10 ^ 20 <= raw ->
  exists r : Z,
    processOdds printed = Ok r /\ 10 ^ 20 <= r <= raw /\
    Formatter.calculateTakerOdds r = Float64.Str "N/A".
Proof.
  intros Raw Big.
  pose proof ladder_step_pos as S.
  pose proof (Z.div_mod raw ladder_step ltac:(lia)) as E.
  pose proof (Z.mod_pos_bound raw ladder_step S) as B.
  unfold processOdds. rewrite Raw. cbn [JS.bind].
  rewrite checkOddsLadderValid_value.
  destruct (Z.rem raw ladder_step =? 0).
  - exists raw. split; [reflexivity|]. split; [lia|].
    apply calculateTakerOdds_sentinel. exact Big.
  - rewrite roundDownOddsToNearestStep_value. cbn [JS.bind].
    eexists. split; [reflexivity|].
    assert (40000 <= raw / ladder_step).
    { apply Z.div_le_lower_bound; [exact S|].
      rewrite Z.mul_comm, <- ladder_step_divides. exact Big. }
    assert (G : 10 ^ 20 <= raw / ladder_step * ladder_step).
    { rewrite ladder_step_divides. apply Z.mul_le_mono_nonneg_r; lia. }
    split; [lia|]. apply calculateTakerOdds_sentinel. exact G.
Qed.

End Unbounded.

(** ** The preimage of the order hash determines the order *)

Section Preimage.
Import JS Ethers Node SigningStatements.

Lemma byte_of_Z_value (z : Z) : Z.of_N (Byte.to_N (byte_of_Z z)) = z mod 256.
Proof.
  unfold byte_of_Z.
  pose proof (Z.mod_pos_bound z 256 ltac:(lia)) as B.
  destruct (Byte.of_N (Z.to_N (z mod 256))) as [b|] eqn:E.
  - apply Byte.to_of_N in E. rewrite E. lia.
  - apply Byte.of_N_None_iff in E. lia.
Qed.

Lemma toBigInt_be_bytes (n : nat) (z : Z) :
  0 <= z < 256 ^ Z.of_nat n -> toBigInt (be_bytes n z) = z.
Proof.
  revert z. induction n as [|n IH]; intros z Hz.
  - change (256 ^ Z.of_nat 0) with 1 in Hz. cbn. lia.
  - cbn [be_bytes]. rewrite toBigInt_snoc, byte_of_Z_value.
    rewrite Nat2Z.inj_succ, Z.pow_succ_r in Hz by lia.
    rewrite IH.
    + pose proof (Z.div_mod z 256 ltac:(lia)). lia.
    + split; [apply Z.div_pos; lia|].
      apply Z.div_lt_upper_bound; lia.
Qed.

Lemma be_bytes_inj (n : nat) (x y : Z) :
  0 <= x < 256 ^ Z.of_nat n -> 0 <= y < 256 ^ Z.of_nat n ->
  be_bytes n x = be_bytes n y -> x = y.
Proof.
  intros Hx Hy E. rewrite <- (toBigInt_be_bytes n x Hx).
  rewrite <- (toBigInt_be_bytes n y Hy). now rewrite E.
Qed.

Lemma app_inj_length {A : Type} (a b x y : list A) :
  List.length a = List.length b -> a ++ x = b ++ y -> a = b /\ x = y.
Proof.
  revert b. induction a as [|h a IH]; intros [|k b] L E; cbn in *;
    try discriminate.
  - split; [reflexivity|exact E].
  - injection E as -> E. destruct (IH b ltac:(lia) E) as [-> ->].
    split; reflexivity.
Qed.

(** X24.  The preimage of the order hash determines the nine fields
    that [createOrderHash] packs, and nothing more: two well-formed
    orders have the same packed bytes exactly when they agree on these
    nine fields.  The tenth field of an order, [apiExpiry], has no part
    in the hash that is signed. *)
Theorem order_preimage_is_unambiguous (o o' : order) :
  well_formed o -> well_formed o' ->
  (packed o = packed o' <->
   marketHash o = marketHash o' /\ baseToken o = baseToken o' /\
   totalBetSize o = totalBetSize o' /\ percentageOdds o = percentageOdds o' /\
   expiry o = expiry o' /\ salt o = salt o' /\
   maker o = maker o' /\ executor o = executor o' /\
   isMakerBettingOutcomeOne o = isMakerBettingOutcomeOne o').
Proof.
  intros (M & B & K & X & T & O & E & S) (M' & B' & K' & X' & T' & O' & E' & S').
  unfold packed. split.
  - intros H.
    apply app_inj_length in H as [H1 H]; [|congruence].
    apply app_inj_length in H as [H2 H]; [|congruence].
    apply app_inj_length in H as [H3 H]; [|rewrite !be_bytes_length; reflexivity].
    apply app_inj_length in H as [H4 H]; [|rewrite !be_bytes_length; reflexivity].
    apply app_inj_length in H as [H5 H]; [|rewrite !be_bytes_length; reflexivity].
    apply app_inj_length in H as [H6 H]; [|rewrite !be_bytes_length; reflexivity].
    apply app_inj_length in H as [H7 H]; [|congruence].
    apply app_inj_length in H as [H8 H]; [|congruence].
    apply be_bytes_inj in H3, H4, H5, H6; try assumption.
    split; [exact H1|]. split; [exact H2|]. split; [exact H3|].
    split; [exact H4|]. split; [exact H5|]. split; [exact H6|].
    split; [exact H7|]. split; [exact H8|].
    destruct (isMakerBettingOutcomeOne o), (isMakerBettingOutcomeOne o');
      try reflexivity; discriminate H.
  - intros (-> & -> & -> & -> & -> & -> & -> & -> & ->). reflexivity.
Qed.

End Preimage.

(** ** The type tables handed to [signTypedData] *)

Section TypeTables.
Import JS Ethers Node MoreStatements SigningStatements.
Context {P : Primitives}.

Lemma signTypedData_ambiguous (wallet : Wallet) (d : domain)
  (types : typetable) (v : value) (w : world) (e : exn) :
  inferPrimaryType types = Throw e ->
  signTypedData wallet d types v w = (Throw e, w).
Proof.
  intros H. unfold signTypedData, Node.bind, lift, TypedDataEncoder_hash.
  rewrite H. reflexivity.
Qed.

(** X25.  The type table that [getCancelOrderEIP712Payload] returns
    cannot be handed to [signTypedData] as it is: with its
    [EIP712Domain] entry the encoder finds two candidates for the
    primary type and throws, before anything is signed.  With the
    [Details] entry alone, as [createCancelOrderPayload] passes it, the
    primary type is [Details]. *)
Theorem cancel_types_are_filtered_before_signing
  (orderHashes : list string) (salt : bytes) (timestamp : Float64.number)
  (chain : Z) (wallet : Wallet) (w : world) :
  let payload :=
    Cancel.getCancelOrderEIP712Payload orderHashes salt timestamp chain in
  let e := InvalidArgument "ambiguous primary types or unused types" in
  inferPrimaryType (Cancel.types payload) = Throw e /\
  signTypedData wallet (Cancel.domain payload) (Cancel.types payload)
    (Cancel.message payload) w = (Throw e, w) /\
  inferPrimaryType
    [("Details", Cancel.get_type "Details" (Cancel.types payload))]
  = Ok "Details".
Proof.
  cbv zeta.
  assert (A : inferPrimaryType
                (Cancel.types
                   (Cancel.getCancelOrderEIP712Payload orderHashes salt
                      timestamp chain))
              = Throw (InvalidArgument
                         "ambiguous primary types or unused types"))
    by reflexivity.
  split; [exact A|]. split; [|reflexivity].
  apply signTypedData_ambiguous. exact A.
Qed.

(** X26.  The same holds for a fill: handed the whole table of
    [createSigningPayload], [signTypedData] throws without signing;
    with the three entries [Details], [FillObject] and [Order] that
    [fillOrder] passes, the primary type is [Details]. *)
Theorem fill_types_are_filtered_before_signing (order : bookOrder)
  (takerBetAmount : Z) (wallet : Wallet) (w w' : world)
  (sp : Fill.signingPayload) :
  Fill.createSigningPayload order takerBetAmount w = (Ok sp, w') ->
  let e := InvalidArgument "ambiguous primary types or unused types" in
  inferPrimaryType (Fill.types sp) = Throw e /\
  signTypedData wallet (Fill.domain sp) (Fill.types sp) (Fill.message sp) w'
    = (Throw e, w') /\
  inferPrimaryType
    [ ("Details", Fill.get_type "Details" (Fill.types sp));
      ("FillObject", Fill.get_type "FillObject" (Fill.types sp));
      ("Order", Fill.get_type "Order" (Fill.types sp)) ]
  = Ok "Details".
Proof.
  unfold Fill.createSigningPayload, Fill.generateFillSalt, Node.bind,
    randomBytes, ret, lift.
  destruct (Fill.calculateFillAmount _ _) as [f|err]; [|discriminate].
  intros H. injection H as <- <-. cbv zeta. cbn [Fill.types].
  assert (A : inferPrimaryType
                [ ("EIP712Domain", Fill.types_EIP712Domain);
                  ("Details", Fill.types_Details);
                  ("FillObject", Fill.types_FillObject);
                  ("Order", Fill.types_Order) ]
              = Throw (InvalidArgument
                         "ambiguous primary types or unused types"))
    by reflexivity.
  split; [exact A|]. split; [|reflexivity].
  apply signTypedData_ambiguous. exact A.
Qed.

End TypeTables.

(** ** [display.js]: the two sides of the order book *)

Section OrderBook.
Import JS Float64 Formatter Display MoreStatements.

Lemma calculateRemainingTakerSpace_line (o : listedOrder) :
  percentageOdds (quote o) <> 0 ->
  calculateRemainingTakerSpace (quote o) = Ok (liquidity (book_line o)).
Proof.
  intros H. unfold calculateRemainingTakerSpace, BigInt_div, BigInt_1e20.
  cbv zeta.
  replace (percentageOdds (quote o) =? 0) with false
    by (symmetry; apply Z.eqb_neq; exact H).
  reflexivity.
Qed.

Lemma displayOrderBook_forEach_lists (orders : list listedOrder)
  (one two : list orderData) :
  Forall (fun o => percentageOdds (quote o) <> 0) orders ->
  displayOrderBook_forEach orders one two =
    Ok (one ++ map book_line
                 (filter (fun o => negb (isMakerBettingOutcomeOne o)) orders),
        two ++ map book_line (filter isMakerBettingOutcomeOne orders)).
Proof.
  intros H. revert one two.
  induction H as [|o orders Ho _ IH]; intros one two.
  - cbn. rewrite !app_nil_r. reflexivity.
  - cbn [displayOrderBook_forEach filter].
    rewrite (calculateRemainingTakerSpace_line o Ho). cbn [JS.bind].
    destruct (isMakerBettingOutcomeOne o); cbn [negb map].
    + rewrite IH, <- app_assoc. reflexivity.
    + rewrite IH, <- app_assoc. reflexivity.
Qed.

(** X27.  When no listed order has odds of zero, the loop of
    [displayOrderBook] ends, and each order is put on exactly one of
    the two lists, in the order of the listing: the orders whose maker
    bets on outcome one on the list of outcome two, the others on the
    list of outcome one, each with its taker odds and its remaining
    taker space. *)
Theorem order_book_lists_every_order_on_the_other_side
  (orders : list listedOrder) :
  Forall (fun o => percentageOdds (quote o) <> 0) orders ->
  exists outcomeOneOrders outcomeTwoOrders : list orderData,
    displayOrderBook_forEach orders [] [] =
      Ok (outcomeOneOrders, outcomeTwoOrders) /\
    outcomeOneOrders =
      map book_line
        (filter (fun o => negb (isMakerBettingOutcomeOne o)) orders) /\
    outcomeTwoOrders =
      map book_line (filter isMakerBettingOutcomeOne orders) /\
    (List.length outcomeOneOrders + List.length outcomeTwoOrders)%nat =
      List.length orders.
Proof.
  intros H. eexists. eexists.
  split; [apply (displayOrderBook_forEach_lists orders [] [] H)|].
  cbn [app]. split; [reflexivity|]. split; [reflexivity|].
  rewrite !length_map. clear H.
  induction orders as [|o orders IH]; [reflexivity|].
  cbn [filter]. destruct (isMakerBettingOutcomeOne o); cbn [negb List.length];
    lia.
Qed.

(** X28.  One listed order with odds of zero is enough to make the
    loop of [displayOrderBook] throw [RangeError: Division by zero],
    wherever it stands in the listing: no order book is shown. *)
Theorem order_at_zero_odds_breaks_the_order_book
  (before after : list listedOrder) (o : listedOrder) :
  Forall (fun o => percentageOdds (quote o) <> 0) before ->
  percentageOdds (quote o) = 0 ->
  displayOrderBook_forEach (before ++ o :: after) [] [] =
    Throw RangeError_DivisionByZero.
Proof.
  intros H Zero. generalize (@nil orderData) at 1.
  generalize (@nil orderData).
  induction H as [|b before Hb _ IH]; intros two one.
  - cbn [app displayOrderBook_forEach].
    unfold calculateRemainingTakerSpace, BigInt_div. cbv zeta.
    rewrite Zero. reflexivity.
  - cbn [app displayOrderBook_forEach].
    rewrite (calculateRemainingTakerSpace_line b Hb). cbn [JS.bind].
    destruct (isMakerBettingOutcomeOne b); apply IH.
Qed.

End OrderBook.

(** ** The statements above at concrete inputs *)

Section MoreClosed.
Import JS Ethers Node Units PostOrder MoreStatements SigningStatements.

(** Odds of 50.3012 %, which are off the ladder: they are moved down
    to 50.3 %. *)
Lemma processOdds_returns_ladder_odds_witness :
  exists r : Z,
    processOdds "50.3012" = Ok r /\
    checkOddsLadderValid r = Ok true /\
    r <= 50301200000000000000 < r + 25 * 10 ^ 14 /\
    (checkOddsLadderValid 50301200000000000000 = Ok true ->
     r = 50301200000000000000).
Proof.
  apply (processOdds_returns_ladder_odds "50.3012" 50301200000000000000).
  vm_compute. reflexivity.
Defined.

(** Odds of 150 % pass. *)
Lemma processOdds_does_not_bound_the_odds_witness :
  exists r : Z,
    processOdds "150" = Ok r /\ 10 ^ 20 <= r <= 150000000000000000000 /\
    Formatter.calculateTakerOdds r = Float64.Str "N/A".
Proof.
  apply (processOdds_does_not_bound_the_odds "150" 150000000000000000000).
  - vm_compute. reflexivity.
  - vm_compute. discriminate.
Defined.

(** A stake of 12.5 at even odds. *)
Lemma createOrder_reads_the_stake_in_millionths_witness :
  let whole := "12" in
  let fraction := "5" in
  let odds := 5 * 10 ^ 19 in
  let w := sample_world in
  let stake :=
    digits_value whole * 10 ^ 6 +
    digits_value fraction * 10 ^ Z.of_nat (6 - String.length fraction) in
  exists o : order,
    createOrder (numeral false whole fraction) odds w = (Ok o, draw 32 w) /\
    totalBetSize o = stake /\
    percentageOdds o = odds /\
    apiExpiry o = clock_ms w / 1000 + 3600 /\
    expiry o = 2209006800 /\
    Node.salt o = toBigInt (next_bytes 32 w) /\
    well_formed o.
Proof.
  intros whole fraction odds w.
  apply (createOrder_reads_the_stake_in_millionths whole fraction odds w).
  - reflexivity.
  - reflexivity.
  - vm_compute. lia.
  - vm_compute. lia.
  - split; vm_compute; discriminate.
  - vm_compute. reflexivity.
  - split; vm_compute; [discriminate|reflexivity].
Defined.

(** A stake of 1.0000001. *)
Lemma createOrder_refuses_a_seventh_decimal_witness :
  createOrder (numeral false "1" ("000000" ++ "1")) (5 * 10 ^ 19) sample_world
  = (Throw (InvalidArgument "too many decimals for format"),
     draw 32 sample_world).
Proof.
  apply (createOrder_refuses_a_seventh_decimal false "1" "000000" "1"
           (5 * 10 ^ 19) sample_world); reflexivity.
Defined.

(** A stake of 12.5 at even odds, signed. *)
Lemma created_order_is_signed_witness :
  let w := sample_world in
  let key := repeat x01 32 in
  let o := created_order 12500000 (5 * 10 ^ 19) (clock_ms w / 1000)
             (next_bytes 32 w) in
  let digest :=
    @hashMessage sample_primitives (@keccak256 sample_primitives (packed o)) in
  (order <~ createOrder "12.5" (5 * 10 ^ 19) ;;
   @Post.signOrder sample_primitives order)%io w =
    (Ok {| unsigned := o; signature := @sign sample_primitives key digest |},
     record_signed digest (draw 32 w)) /\
  List.length (packed o) = 221%nat.
Proof.
  intros w key.
  apply (@created_order_is_signed sample_primitives "12.5" (5 * 10 ^ 19)
           12500000 w key).
  - vm_compute. reflexivity.
  - split; vm_compute; [discriminate|reflexivity].
  - split; vm_compute; [discriminate|reflexivity].
  - split; vm_compute; discriminate.
  - reflexivity.
  - exact sample_key_valid.
Defined.

(** A stake of -5. *)
Lemma stake_out_of_range_fails_at_signing_witness :
  let w := sample_world in
  let o := created_order (-5000000) (5 * 10 ^ 19) (clock_ms w / 1000)
             (next_bytes 32 w) in
  let e := InvalidArgument "unsigned value cannot be negative" in
  createOrder "-5" (5 * 10 ^ 19) w = (Ok o, draw 32 w) /\
  @Post.signOrder sample_primitives o (draw 32 w) =
    (Throw e, record_reported "Error signing order:" e (draw 32 w)) /\
  signed (record_reported "Error signing order:" e (draw 32 w)) = signed w.
Proof.
  intros w.
  apply (@stake_out_of_range_fails_at_signing sample_primitives "-5"
           (5 * 10 ^ 19) (-5000000) w (repeat x01 32)).
  - vm_compute. reflexivity.
  - left. reflexivity.
  - split; vm_compute; discriminate.
  - reflexivity.
  - exact sample_key_valid.
Defined.

(** A line with two order hashes, the first followed by a no-break
    space. *)
Lemma cancellation_is_signed_sent_and_reported_witness :
  let input := ("0xaa" ++ String "194" (String "160" ", 0xbb"))%string in
  let w := sample_world in
  let key := repeat x01 32 in
  let orderHashes := map Cancel.trim (Cancel.split_comma input) in
  let digest :=
    @cancel_digest sample_primitives orderHashes (next_bytes 32 w)
      (clock_ms w / 1000) in
  let request :=
    @cancel_request sample_primitives orderHashes key (next_bytes 32 w)
      (clock_ms w / 1000) in
  let sent :=
    record_posted Cancel.CONSTANTS.apiUrl request
      (record_signed digest (draw 32 w)) in
  let no_data := TypeError_reading "cancelledCount" in
  @Cancel.cancelOrdersFromInput sample_primitives input w =
    (Ok tt,
     if accepts w Cancel.CONSTANTS.apiUrl request then
       if with_data w Cancel.CONSTANTS.apiUrl request then sent
       else record_reported "Cancellation process failed:" no_data
              (record_reported "Failed to cancel orders:" no_data sent)
     else record_reported "Cancellation process failed:" ApiError
            (record_reported "Failed to cancel orders:" ApiError
               (record_reported "Error submitting cancellation:" ApiError
                  sent))).
Proof.
  intros input w key.
  apply (@cancellation_is_signed_sent_and_reported sample_primitives input w
           key).
  - reflexivity.
  - exact sample_key_valid.
  - split; vm_compute; discriminate.
  - vm_compute. discriminate.
Defined.

(** The same line without a key. *)
Lemma cancellation_without_a_key_witness :
  let input := "0xaa, 0xbb" in
  let w := keyless_world in
  let e := Error "PRIVATE_KEY not found in .env file" in
  @Cancel.cancelOrdersFromInput sample_primitives input w =
    (Ok tt,
     record_reported "Cancellation process failed:" e
       (record_reported "Failed to cancel orders:" e
          (record_reported "Error creating cancel order payload:" e w))).
Proof.
  intros input w.
  apply (@cancellation_without_a_key sample_primitives input w).
  - reflexivity.
  - vm_compute. discriminate.
Defined.

(** The two modules at one order hash. *)
Lemma standalone_cancellation_sends_the_same_request_witness :
  let orderHashes := ["0xaa"] in
  let w := sample_world in
  let key := repeat x01 32 in
  let tutorial := @Cancel.cancelOrders sample_primitives orderHashes w in
  let standalone :=
    @OrderManagement.cancelOrders sample_primitives orderHashes
      {| privateKey := key |} w in
  signed (snd standalone) = signed (snd tutorial) /\
  posted (snd standalone) = posted (snd tutorial) /\
  consumed (snd standalone) = consumed (snd tutorial) /\
  match fst standalone with
  | Ok data =>
      success data = true /\
      fst tutorial =
        if has_data data then Ok data
        else Throw (TypeError_reading "cancelledCount")
  | Throw e => fst tutorial = Throw e
  end.
Proof.
  intros orderHashes w key.
  apply (@standalone_cancellation_sends_the_same_request sample_primitives
           orderHashes w key); [reflexivity|exact sample_key_valid].
Defined.

(** One and two units at 50 % and 60 %. *)
Lemma fill_formulas_are_monotone_witness :
  let a := 1000000 in
  let a' := 2000000 in
  let o := 5 * 10 ^ 19 in
  let o' := 6 * 10 ^ 19 in
  exists f f' p p' : Z,
    Fill.calculateFillAmount a o = Ok (BigInt_toString f) /\
    Fill.calculateFillAmount a' o' = Ok (BigInt_toString f') /\
    Fill.calculatePotentialPayout a o = Ok (BigInt_toString p) /\
    Fill.calculatePotentialPayout a' o' = Ok (BigInt_toString p') /\
    0 <= f <= f' /\ a <= p <= p' /\
    f * (10 ^ 20 - o) <= a * o < (f + 1) * (10 ^ 20 - o).
Proof.
  intros a a' o o'.
  apply (fill_formulas_are_monotone a a' o o').
  - split; vm_compute; discriminate.
  - split; vm_compute; discriminate.
  - vm_compute. reflexivity.
Defined.

(** 51.75 % is shown as 51 %. *)
Lemma formatOdds_shows_the_whole_percent_witness :
  exists n : Z,
    FillPrompt.formatOdds 51750000000000000000 =
      Ok (BigInt_toString n ++ "%")%string /\
    n * 10 ^ 18 <= 51750000000000000000 < (n + 1) * 10 ^ 18.
Proof.
  apply (formatOdds_shows_the_whole_percent 51750000000000000000).
  vm_compute. discriminate.
Defined.

(** The sample listing at 100 %. *)
Lemma order_at_full_odds_cannot_be_filled_witness :
  @Fill.fillOrder sample_primitives (listing_at (10 ^ 20))
    {| privateKey := repeat x01 32 |} 1000000 sample_world =
    (Ok tt,
     record_reported "Error filling order:" RangeError_DivisionByZero
       (draw 32 sample_world)).
Proof.
  apply (@order_at_full_odds_cannot_be_filled sample_primitives
           (listing_at (10 ^ 20)) {| privateKey := repeat x01 32 |} 1000000
           sample_world).
  reflexivity.
Defined.

(** An amount of 2.01. *)
Lemma bet_amount_filter_is_within_one_unit_witness :
  exists r : Z,
    FillPrompt.betAmount_filter (Float64More.of_decimal 2010000 6) =
      Float64.Str (BigInt_toString r) /\
    2010000 - 1 <= r <= 2010000.
Proof.
  apply (bet_amount_filter_is_within_one_unit 2010000).
  split; vm_compute; discriminate.
Defined.

(** An amount of 1.005. *)
Lemma displayed_amount_is_within_half_a_cent_witness :
  exists n : Z,
    Formatter.convertToNominalUnits (Float64.of_Z 1005000) 6 =
      Float64.Str (Float64.fixed2 false n) /\
    0 <= n /\
    1005000 - 5000 <= n * 10 ^ 4 <= 1005000 + 5000 /\
    (forall m : Z, 1005000 = m * 10 ^ 4 -> n = m).
Proof.
  apply (displayed_amount_is_within_half_a_cent 1005000).
  split; vm_compute; [discriminate|reflexivity].
Defined.

(** Amounts of 1.005 and 1.015. *)
Lemma displayed_amounts_keep_their_order_witness :
  exists n n' : Z,
    Formatter.convertToNominalUnits (Float64.of_Z 1005000) 6 =
      Float64.Str (Float64.fixed2 false n) /\
    Formatter.convertToNominalUnits (Float64.of_Z 1015000) 6 =
      Float64.Str (Float64.fixed2 false n') /\
    0 <= n <= n'.
Proof.
  apply (displayed_amounts_keep_their_order 1005000 1015000).
  - split; vm_compute; discriminate.
  - vm_compute. reflexivity.
Defined.

(** The sample order and the same order with another [apiExpiry]. *)
Lemma order_preimage_is_unambiguous_witness :
  let o := sample_order in
  let o' :=
    {| marketHash := marketHash o; maker := maker o;
       totalBetSize := totalBetSize o; percentageOdds := percentageOdds o;
       baseToken := baseToken o; apiExpiry := apiExpiry o + 86400;
       expiry := expiry o; executor := executor o;
       isMakerBettingOutcomeOne := isMakerBettingOutcomeOne o;
       salt := salt o |} in
  packed o = packed o' <->
  marketHash o = marketHash o' /\ baseToken o = baseToken o' /\
  totalBetSize o = totalBetSize o' /\ percentageOdds o = percentageOdds o' /\
  expiry o = expiry o' /\ salt o = salt o' /\
  maker o = maker o' /\ executor o = executor o' /\
  isMakerBettingOutcomeOne o = isMakerBettingOutcomeOne o'.
Proof.
  intros o o'.
  apply (order_preimage_is_unambiguous o o').
  - exact sample_order_well_formed.
  - exact sample_order_well_formed.
Defined.

(** The table of a fill of the sample listing. *)
Lemma fill_types_are_filtered_before_signing_witness :
  let order := sample_bookOrder in
  let wallet := {| privateKey := repeat x01 32 |} in
  let w := sample_world in
  let sp :=
    {| Fill.types :=
         [ ("EIP712Domain", Fill.types_EIP712Domain);
           ("Details", Fill.types_Details);
           ("FillObject", Fill.types_FillObject);
           ("Order", Fill.types_Order) ];
       Fill.primaryType := "Details";
       Fill.domain :=
         {| name := Some "SX Bet"; version := Some "6.0";
            chainId := Some 4162;
            verifyingContract := Some Fill.CONSTANTS.EIP712_FILL_HASHER;
            Ethers.salt := None |};
       Fill.message :=
         fill_message order 1000000 (toBigInt (next_bytes 32 w));
       Fill.fillAmount := BigInt_toString 1000000;
       Fill.fillSalt := BigInt_toString (toBigInt (next_bytes 32 w)) |} in
  let e := InvalidArgument "ambiguous primary types or unused types" in
  inferPrimaryType (Fill.types sp) = Throw e /\
  @signTypedData sample_primitives wallet (Fill.domain sp) (Fill.types sp)
    (Fill.message sp) (draw 32 w) = (Throw e, draw 32 w) /\
  inferPrimaryType
    [ ("Details", Fill.get_type "Details" (Fill.types sp));
      ("FillObject", Fill.get_type "FillObject" (Fill.types sp));
      ("Order", Fill.get_type "Order" (Fill.types sp)) ]
  = Ok "Details".
Proof.
  intros order wallet w sp.
  apply (@fill_types_are_filtered_before_signing sample_primitives order
           1000000 wallet w (draw 32 w) sp).
  apply (createSigningPayload_run order 1000000 w).
  - vm_compute. discriminate.
  - split; vm_compute; reflexivity.
Defined.

(** A book of two orders, one on each side. *)
Lemma order_book_lists_every_order_on_the_other_side_witness :
  let orders :=
    [ {| Display.quote :=
           {| Formatter.totalBetSize := 1000000; Formatter.fillAmount := 0;
              Formatter.percentageOdds := 5 * 10 ^ 19 |};
         Display.isMakerBettingOutcomeOne := true |};
      {| Display.quote :=
           {| Formatter.totalBetSize := 3000000;
              Formatter.fillAmount := 1000000;
              Formatter.percentageOdds := 4 * 10 ^ 19 |};
         Display.isMakerBettingOutcomeOne := false |} ] in
  exists outcomeOneOrders outcomeTwoOrders : list Display.orderData,
    Display.displayOrderBook_forEach orders [] [] =
      Ok (outcomeOneOrders, outcomeTwoOrders) /\
    outcomeOneOrders =
      map book_line
        (filter (fun o => negb (Display.isMakerBettingOutcomeOne o)) orders) /\
    outcomeTwoOrders =
      map book_line (filter Display.isMakerBettingOutcomeOne orders) /\
    (List.length outcomeOneOrders + List.length outcomeTwoOrders)%nat =
      List.length orders.
Proof.
  intros orders.
  apply (order_book_lists_every_order_on_the_other_side orders).
  constructor; [vm_compute; discriminate|].
  constructor; [vm_compute; discriminate|].
  constructor.
Defined.

(** A book whose second order has odds of zero. *)
Lemma order_at_zero_odds_breaks_the_order_book_witness :
  let before :=
    [ {| Display.quote :=
           {| Formatter.totalBetSize := 1000000; Formatter.fillAmount := 0;
              Formatter.percentageOdds := 5 * 10 ^ 19 |};
         Display.isMakerBettingOutcomeOne := true |} ] in
  let o :=
    {| Display.quote :=
         {| Formatter.totalBetSize := 1000000; Formatter.fillAmount := 0;
            Formatter.percentageOdds := 0 |};
       Display.isMakerBettingOutcomeOne := false |} in
  Display.displayOrderBook_forEach (before ++ o :: []) [] [] =
    Throw RangeError_DivisionByZero.
Proof.
  intros before o.
  apply (order_at_zero_odds_breaks_the_order_book before [] o).
  - constructor; [vm_compute; discriminate|]. constructor.
  - reflexivity.
Defined.

End MoreClosed.
